(** * Hallo Tractor: the WhatsApp negotiation webhook of [server.js]

    A shallow embedding of the request handler [app.post("/whatsapp")] and
    of the helpers it calls, followed by the properties of the negotiation
    protocol (negotiate, name collection, offer) that hold of it.

    Conventions of the embedding.
    - A JavaScript string is a [string]: each [ascii] is one UTF-16 code
      unit in the range U+0000..U+00FF.  [toLowerCase], [trim], the
      regular expressions and [parseInt] are given on that range.
    - [data.json] is a [Data] record; [readData] and [writeData] copy it
      between the file and the handler's memory.  [user], the reference
      returned by [data.users.find], is an index into [data.users], so an
      assignment through it changes the collection that [writeData] saves.
    - A TwiML message is a [reply]; the fixed text of each one is quoted
      next to its constructor.
    - The numbers of [data.json] are the values [JSON.parse] gives them:
      ids and prices are integer-valued binary64 numbers, held as [Z].
      [price * 0.9] is the binary64 product, rounded to nearest with ties
      to even.  The model of the product and of the comparison is proved
      equal to the Standard Library's specification of IEEE 754
      ([mul09_is_SFmul], [geInt_is_SFleb]).
    - A number read by [parseInt] is a [Js.Number]: the binary64 number
      nearest to the integer written, which is that integer up to 2^53,
      or an infinity; NaN is [None]. *)

From Stdlib Require Import ZArith Lia Ascii String DecimalString DecimalPos DecimalN.
From Stdlib Require Import Floats.SpecFloat.
From stdpp Require Import base option list strings.

Local Open Scope string_scope.
Local Open Scope Z_scope.

(** ** Strings *)

Module Js.

(** Code unit of a character. *)
Definition code (c : ascii) : Z := Z.of_N (N_of_ascii c).

(** WhiteSpace and LineTerminator code units below U+0100: TAB, LF, VT, FF,
    CR, SP and NBSP.  This is the set removed by [trim], skipped by
    [parseInt] and matched by [\s]. *)
Definition isWhiteSpace (c : ascii) : bool :=
  let n := code c in
  ((9 <=? n) && (n <=? 13)) || (n =? 32) || (n =? 160).

(** [\d] *)
Definition isDigit (c : ascii) : bool :=
  let n := code c in (48 <=? n) && (n <=? 57).

(** [a-zA-Z] *)
Definition isLetter (c : ascii) : bool :=
  let n := code c in
  ((97 <=? n) && (n <=? 122)) || ((65 <=? n) && (n <=? 90)).

(** Lower-case mapping of one code unit: A-Z, and the Latin-1 capitals
    U+00C0..U+00DE except the multiplication sign U+00D7. *)
Definition lowerChar (c : ascii) : ascii :=
  let n := code c in
  if ((65 <=? n) && (n <=? 90))
     || ((192 <=? n) && (n <=? 222) && negb (n =? 215))
  then ascii_of_N (Z.to_N (n + 32))
  else c.

(** [String.prototype.toLowerCase] *)
Fixpoint toLowerCase (s : string) : string :=
  match s with
  | EmptyString => EmptyString
  | String c r => String (lowerChar c) (toLowerCase r)
  end.

Fixpoint trimStart (s : string) : string :=
  match s with
  | EmptyString => EmptyString
  | String c r => if isWhiteSpace c then trimStart r else s
  end.

Fixpoint trimEnd (s : string) : string :=
  match s with
  | EmptyString => EmptyString
  | String c r =>
      match trimEnd r with
      | EmptyString => if isWhiteSpace c then EmptyString else String c EmptyString
      | r' => String c r'
      end
  end.

(** [String.prototype.trim] *)
Definition trim (s : string) : string := trimEnd (trimStart s).

(** [String.prototype.startsWith] *)
Definition startsWith (s p : string) : bool := String.prefix p s.

(** [/^\d+$/.test] *)
Fixpoint allDigits (s : string) : bool :=
  match s with
  | EmptyString => true
  | String c r => isDigit c && allDigits r
  end.

Definition digitsOnly (s : string) : bool :=
  match s with
  | EmptyString => false
  | _ => allDigits s
  end.

(** [s.split(" ")]: the pieces between single U+0020 characters; never
    empty, the empty string gives one empty piece. *)
Fixpoint split_space (s : string) : list string :=
  match s with
  | EmptyString => [EmptyString]
  | String c r =>
      if (code c =? 32) then EmptyString :: split_space r
      else match split_space r with
           | w :: ws => String c w :: ws
           | [] => [String c EmptyString]
           end
  end.

(** Longest prefix of decimal digits, read most significant first, with
    the accumulated value; [None] when there is no digit. *)
Fixpoint digitsValue (acc : option Z) (s : string) : option Z :=
  match s with
  | String c r =>
      if isDigit c
      then digitsValue (Some (10 * default 0 acc + (code c - 48))) r
      else acc
  | EmptyString => acc
  end.

(** What [parseInt] returns when it is not NaN: an integer that is a
    binary64 number, or an infinity.  The two zeros are one [Int 0]: they
    are equal for [===] and [>=] and both print as 0. *)
Inductive Number := Int (z : Z) | Infinity (negative : bool).

#[global] Instance Number_eq_dec : EqDecision Number.
Proof. solve_decision. Defined.

(** The Number that a datum of the Standard Library's specification of
    binary64 denotes, for a datum whose value is an integer. *)
Definition ofSpec (x : spec_float) : option Number :=
  match x with
  | S754_zero _ => Some (Int 0)
  | S754_finite s m e =>
      let v := if 0 <=? e then Z.pos m * 2 ^ e else Z.pos m / 2 ^ (- e) in
      Some (Int (if s then - v else v))
  | S754_infinity s => Some (Infinity s)
  | S754_nan => None
  end.

(** The Number value of an integer: the nearest binary64 number, ties to
    the even significand, an infinity from 2^1024 - 2^970 on. *)
Definition ofInt (n : Z) : option Number :=
  ofSpec (binary_normalize 53 1024 n 0 false).

(** [parseInt(s, 10)]; [None] is NaN.  Leading white space is skipped, one
    sign is read, then the longest run of digits; what follows is ignored.
    The result is the Number value of the integer written, every digit
    counted. *)
Definition parseInt (s : string) : option Number :=
  match trimStart s with
  | String "-" r => digitsValue None r ≫= fun n => ofInt (- n)
  | String "+" r => digitsValue None r ≫= ofInt
  | t => digitsValue None t ≫= ofInt
  end.

(** [parseInt(x, 10)] where [x] may be [undefined]: the text "undefined"
    has no digit. *)
Definition parseIntArg (x : option string) : option Number := x ≫= parseInt.

End Js.

(** An integer where a Number is expected is that integer. *)
Coercion Js.Int : Z >-> Js.Number.

(** ** Numbers *)

Module Double.

(** A finite binary64 value, [mant * 2^expo]. *)
Record dyadic := { mant : Z; expo : Z }.

(** The literal [0.9] is the binary64 number [nine_tenths * 2^-53]
    (0x3FECCCCCCCCCCCCD), a little above nine tenths:
    [10 * nine_tenths = 9 * 2^53 + 2]. *)
Definition nine_tenths : Z := 8106479329266893.

(** [n / 2^s] rounded to the nearest integer, ties to the even one. *)
Definition roundNearestEven (n s : Z) : Z :=
  let q := n / 2 ^ s in
  let r := n mod 2 ^ s in
  match 2 * r ?= 2 ^ s with
  | Lt => q
  | Gt => q + 1
  | Eq => if Z.even q then q else q + 1
  end.

(** The binary64 number nearest to [n * 2^e], for [0 <= n]: at most 53
    significant bits are kept.  The products formed below neither overflow
    nor underflow. *)
Definition round53 (n e : Z) : dyadic :=
  let s := Z.log2 n - 52 in
  if s <=? 0 then {| mant := n; expo := e |}
  else {| mant := roundNearestEven n s; expo := e + s |}.

(** [price * 0.9] for an integer-valued [price] below 2^53: the exact
    product of the two binary64 numbers, rounded once. *)
Definition mul09 (price : Z) : dyadic :=
  let d := round53 (Z.abs price * nine_tenths) (-53) in
  {| mant := Z.sgn price * mant d; expo := expo d |}.

(** [a >= x] for an integer [a]: the two values are compared exactly.  It
    is the comparison of the specification of IEEE 754 on [x] and the
    binary64 number of [a] ([geInt_is_SFleb]). *)
Definition geInt (a : Z) (x : dyadic) : bool :=
  if 0 <=? expo x then mant x * 2 ^ expo x <=? a
  else mant x <=? a * 2 ^ (- expo x).

(** [a >= x] for a Number [a] and a finite [x]. *)
Definition ge (a : Js.Number) (x : dyadic) : bool :=
  match a with
  | Js.Int z => geInt z x
  | Js.Infinity negative => negb negative
  end.

(** The integer [n] for which [n / 100 - x] is closest to zero, the larger
    one when there are two; [0 <= x]. *)
Definition hundredths (x : dyadic) : Z :=
  if 0 <=? expo x then 100 * mant x * 2 ^ expo x
  else (200 * mant x + 2 ^ (- expo x)) / (2 * 2 ^ (- expo x)).

Definition digitChar (d : Z) : ascii := ascii_of_N (Z.to_N (48 + d)).

(** Decimal digits of a natural number, no leading zero, "0" for zero. *)
Definition decimal (n : Z) : string :=
  DecimalString.NilZero.string_of_uint (N.to_uint (Z.to_N n)).

(** [x.toFixed(2)] for [x] below 10^21: the digits of [hundredths x] with
    a point before the last two, at least one digit before the point. *)
Definition toFixed2 (x : dyadic) : string :=
  let n := hundredths {| mant := Z.abs (mant x); expo := expo x |} in
  (if mant x <? 0 then "-" else EmptyString)
  +:+ decimal (n / 100)
  +:+ String "." (String (digitChar (n mod 100 / 10))
                 (String (digitChar (n mod 10)) EmptyString)).

End Double.

(** ** The contents of [data.json] *)

Inductive Stage := name_collection | offer_collection.

Module Negotiation.
Record t := { tractorId : Z; stage : Stage }.
End Negotiation.

Module User.
(** [name] is absent until a name has been collected; [currentNegotiation]
    is [null] when [None].  [phone] is the [From] field of the request that
    created the record. *)
Record t := {
  phone : option string;
  name : option string;
  currentNegotiation : option Negotiation.t
}.
End User.

Module Tractor.
Record t := {
  id : Z;
  name : string;
  price : Z;
  condition : string;
  useCase : string;
  image : string
}.
End Tractor.

Record Data := { users : list User.t; tractors : list Tractor.t }.

(** ** Replies *)

(** One constructor for each [twiml.message(...)] of the handler.  Every
    text except the image link goes through [createResponseMessage], which
    puts the robot marker in front of it. *)
Inductive reply :=
  (** Welcome to Hallo Tractor! Type 'Recommend' ... Type 'Browse' ... *)
  | Welcome
  (** Great! Let's find the perfect tractor for you. ... *)
  | RecommendPrompt
  (** Top <Category> Tractors: one line [id. name - $price] per tractor *)
  | CategoryList (category : string) (items : list Tractor.t)
  (** Here are some tractors for sale: one line per tractor *)
  | BrowseList (items : list Tractor.t)
  (** Tractor Details: name, price, condition, best for *)
  | TractorDetails (tractor : Tractor.t)
  (** the image URL, sent as it is *)
  | Image (url : string)
  (** Interested? Type 'Negotiate [ID]' to start a conversation ... *)
  | Interested
  (** Tractor not found. Type 'Browse' to see available tractors. *)
  | TractorNotFound
  (** Negotiating <name>. Please send your full name ... *)
  | Negotiating (tractorName : string)
  (** Hello, <name>! What's your initial offer for the tractor? ... *)
  | Hello (userName : option string)
  (** Invalid name. Please enter your full name using letters, ... *)
  | InvalidName
  (** Please enter a valid number for your offer. Example: 'Offer 5000' *)
  | InvalidOffer
  (** Deal accepted, <name>! You've negotiated the <tractor> at $<amount>. *)
  | DealAccepted (userName : option string) (tractorName : string)
                 (amount : Js.Number)
  (** Offer too low! The seller suggests a minimum of $<minimum>. *)
  | OfferTooLow (minimum : string)
  (** No active negotiation. Start by typing 'Negotiate [ID]'. *)
  | NoActiveNegotiation
  (** Welcome to Hallo Tractor! Type 'Start' to begin, 'Help' ... *)
  | Help.

(** ** The handler's world and its monad *)

(** [file] is [data.json]; [data] is the object the handler got from
    [readData] and changes in place; [twiml] is the reply under
    construction. *)
Record world := { file : Data; data : Data; twiml : list reply }.

(** A computation ends normally with a value, or throws (a [TypeError]);
    either way the world it leaves behind is known. *)
Inductive result (A : Type) :=
  | Returned (a : A) (w : world)
  | Thrown (w : world).
Arguments Returned {A} a w.
Arguments Thrown {A} w.

Definition M (A : Type) : Type := world -> result A.

Definition ret {A} (a : A) : M A := fun w => Returned a w.

Definition bind {A B} (m : M A) (k : A -> M B) : M B :=
  fun w => match m w with
           | Returned a w' => k a w'
           | Thrown w' => Thrown w'
           end.

Definition throw {A} : M A := fun w => Thrown w.

Declare Scope js_scope.
Delimit Scope js_scope with js.
Notation "'let*' x ':=' m 'in' k" := (bind m (fun x => k))
  (at level 10, x name, m at level 100, k at level 200) : js_scope.
Notation "m ';;' k" := (bind m (fun _ => k))
  (at level 100, k at level 200, right associativity) : js_scope.

Definition world_of (A : Type) (r : result A) : world :=
  match r with Returned _ w => w | Thrown w => w end.
Arguments world_of {A} r.

(** [readData()]: parse the file into a fresh object. *)
Definition readData : M Data :=
  fun w => Returned (file w) {| file := file w; data := file w; twiml := twiml w |}.

(** [writeData(data)]: the whole object replaces the file. *)
Definition writeData : M unit :=
  fun w => Returned tt {| file := data w; data := data w; twiml := twiml w |}.

(** The current value of the object [data]. *)
Definition getData : M Data := fun w => Returned (data w) w.

(** [twiml.message(m)] *)
Definition message (m : reply) : M unit :=
  fun w => Returned tt {| file := file w; data := data w; twiml := (twiml w ++ [m])%list |}.

(** A change of [data.users] in place. *)
Definition setUsers (f : list User.t -> list User.t) : M unit :=
  fun w => Returned tt
    {| file := file w;
       data := {| users := f (users (data w)); tractors := tractors (data w) |};
       twiml := twiml w |}.

(** [data.users.push(u)]; the new record is the last one. *)
Definition pushUser (u : User.t) : M nat :=
  (let* d := getData in
   setUsers (fun us => (us ++ [u])%list) ;;
   ret (length (users d)))%js.

(** An assignment to a field of the record that [user] refers to. *)
Definition updateUser (user : nat) (f : User.t -> User.t) : M unit :=
  setUsers (fun us => match us !! user with
                      | Some u => <[user := f u]> us
                      | None => us
                      end).

Definition set_currentNegotiation (n : option Negotiation.t) (u : User.t) : User.t :=
  {| User.phone := User.phone u; User.name := User.name u;
     User.currentNegotiation := n |}.

Definition set_name (s : string) (u : User.t) : User.t :=
  {| User.phone := User.phone u; User.name := Some s;
     User.currentNegotiation := User.currentNegotiation u |}.

Definition set_stage (s : Stage) (u : User.t) : User.t :=
  {| User.phone := User.phone u; User.name := User.name u;
     User.currentNegotiation :=
       (fun n => {| Negotiation.tractorId := Negotiation.tractorId n;
                    Negotiation.stage := s |}) <$> User.currentNegotiation u |}.

(** [data.users.find((u) => u.phone === userNumber)]: the first match, as
    a reference (its index) and its value. *)
Definition findUser (userNumber : option string) (d : Data) : option (nat * User.t) :=
  list_find (fun u => User.phone u = userNumber) (users d).

(** [data.tractors.find((t) => t.id === x)]; [x] may be NaN or an
    infinity, which no id equals. *)
Definition findTractor (x : option Js.Number) (d : Data) : option Tractor.t :=
  snd <$> list_find (fun t => Some (Js.Int (Tractor.id t)) = x) (tractors d).

(** ** Helpers of [server.js] *)

(** [nameRegex = /^[a-zA-Z\s\-']+$/] *)
Definition nameChar (c : ascii) : bool :=
  Js.isLetter c || Js.isWhiteSpace c || (Js.code c =? 45) || (Js.code c =? 39).

Fixpoint allNameChars (s : string) : bool :=
  match s with
  | EmptyString => true
  | String c r => nameChar c && allNameChars r
  end.

Definition nameRegex_test (s : string) : bool :=
  match s with
  | EmptyString => false
  | _ => allNameChars s
  end.

Definition isValidName (name : string) : bool :=
  nameRegex_test name && (2 <=? Z.of_nat (String.length (Js.trim name))).

(** ** The webhook *)

Record request := { Body : option string; From : option string }.

(** [req.body.Body ? req.body.Body.toLowerCase().trim() : ''] *)
Definition incomingMsg (req : request) : string :=
  match Body req with
  | Some (String c b) => Js.trim (Js.toLowerCase (String c b))
  | _ => EmptyString
  end.

(** [x || y] on strings that may be [undefined]. *)
Definition orElse (x : option string) (y : string) : string :=
  match x with
  | Some (String c r) => String c r
  | _ => y
  end.

(** [["farming", "landscaping", "construction"].includes(msg)] *)
Definition isCategory (msg : string) : bool :=
  String.eqb msg "farming" || String.eqb msg "landscaping"
  || String.eqb msg "construction".

(** The case [incomingMsg.startsWith("view") || /^\d+$/.test(incomingMsg)]. *)
Definition viewCase (msg : string) : M unit :=
  (let* d := getData in
   let tractorId := Js.parseInt (orElse (Js.split_space msg !! 1%nat) msg) in
   match findTractor tractorId d with
   | Some tractor =>
       message (TractorDetails tractor) ;;
       message (Image (Tractor.image tractor)) ;;
       message Interested
   | None => message TractorNotFound
   end)%js.

(** The case [incomingMsg.startsWith("negotiate")]. *)
Definition negotiateCase (msg : string) (userNumber : option string)
    (user : option nat) : M unit :=
  (let* d := getData in
   let negotiateId := Js.parseIntArg (Js.split_space msg !! 1%nat) in
   match negotiateId, findTractor negotiateId d with
   | Some (Js.Int nid), Some negotiateTractor =>
       let* user :=
         match user with
         | Some i => ret i
         | None => pushUser {| User.phone := userNumber; User.name := None;
                               User.currentNegotiation := None |}
         end in
       updateUser user
         (set_currentNegotiation
            (Some {| Negotiation.tractorId := nid;
                     Negotiation.stage := name_collection |})) ;;
       message (Negotiating (Tractor.name negotiateTractor)) ;;
       writeData
   | _, _ => message TractorNotFound
   end)%js.

(** The case of a user whose negotiation is in stage ['name_collection']. *)
Definition nameCase (msg : string) (user : nat) : M unit :=
  (if isValidName msg then
     updateUser user (set_name (Js.trim msg)) ;;
     updateUser user (set_stage offer_collection) ;;
     let* d := getData in
     message (Hello (users d !! user ≫= User.name)) ;;
     writeData
   else message InvalidName)%js.

(** The case [incomingMsg.startsWith("offer")]. *)
Definition offerCase (msg : string) (userNumber : option string) : M unit :=
  (let* d := getData in
   match findUser userNumber d with
   | Some (userOffer, u) =>
       match User.currentNegotiation u with
       | Some {| Negotiation.tractorId := tid; Negotiation.stage := offer_collection |} =>
           let offerAmount := Js.parseIntArg (Js.split_space msg !! 1%nat) in
           let offerTractor := findTractor (Some (Js.Int tid)) d in
           match offerAmount with
           | None => message InvalidOffer
           | Some amount =>
               match offerTractor with
               | None => throw
               | Some t =>
                   if Double.ge amount (Double.mul09 (Tractor.price t)) then
                     message (DealAccepted (User.name u) (Tractor.name t) amount) ;;
                     updateUser userOffer (set_currentNegotiation None)
                   else
                     message (OfferTooLow
                                (Double.toFixed2 (Double.mul09 (Tractor.price t))))
               end
           end
       | _ => message NoActiveNegotiation
       end
   | None => message NoActiveNegotiation
   end)%js.

(** Whether the user has a negotiation in stage ['name_collection']. *)
Definition collectingName (u : option (nat * User.t)) : option nat :=
  match u with
  | Some (i, r) =>
      match User.currentNegotiation r with
      | Some {| Negotiation.stage := name_collection |} => Some i
      | _ => None
      end
  | None => None
  end.

(** [app.post("/whatsapp", ...)]: the [switch (true)] tries its cases in
    the order they are written. *)
Definition whatsapp (req : request) : M unit :=
  (let incomingMsg := incomingMsg req in
   let userNumber := From req in
   let* d := readData in
   let user := findUser userNumber d in
   if String.eqb incomingMsg "start" then message Welcome
   else if String.eqb incomingMsg "recommend" then message RecommendPrompt
   else if isCategory incomingMsg then
     message (CategoryList incomingMsg
                (filter (fun t => Js.toLowerCase (Tractor.useCase t) = incomingMsg)
                        (tractors d)))
   else if String.eqb incomingMsg "browse" then
     message (BrowseList (tractors d))
   else if Js.startsWith incomingMsg "view" || Js.digitsOnly incomingMsg then
     viewCase incomingMsg
   else if Js.startsWith incomingMsg "negotiate" then
     negotiateCase incomingMsg userNumber (fst <$> user)
   else match collectingName user with
        | Some i => nameCase incomingMsg i
        | None =>
            if Js.startsWith incomingMsg "offer" then offerCase incomingMsg userNumber
            else message Help
        end)%js.

(** One request against the file [f]: the handler starts with an empty
    reply and nothing read yet. *)
Definition handle (req : request) (f : Data) : result unit :=
  whatsapp req {| file := f; data := {| users := []; tractors := [] |}; twiml := [] |}.

(** What a request leaves behind. *)
Definition replies (req : request) (f : Data) : list reply :=
  twiml (world_of (handle req f)).
Definition persisted (req : request) (f : Data) : Data :=
  file (world_of (handle req f)).
Definition inMemory (req : request) (f : Data) : Data :=
  data (world_of (handle req f)).

(** Requests handled one after the other, each on the file the previous
    one left; the replies are collected in order. *)
Fixpoint run (reqs : list request) (f : Data) : list (list reply) * Data :=
  match reqs with
  | [] => ([], f)
  | req :: rest =>
      let '(rs, f') := run rest (persisted req f) in
      (replies req f :: rs, f')
  end.

(** ** Vocabulary of the statements *)

(** The session of a user in a collection: the record [find] returns. *)
Definition session (userNumber : option string) (d : Data) : option User.t :=
  snd <$> findUser userNumber d.

Definition negotiationOf (userNumber : option string) (d : Data) : option Negotiation.t :=
  session userNumber d ≫= User.currentNegotiation.

Definition stageOf (userNumber : option string) (d : Data) : option Stage :=
  Negotiation.stage <$> negotiationOf userNumber d.

Definition nameOf (userNumber : option string) (d : Data) : option string :=
  session userNumber d ≫= User.name.

(** The tractor a user is negotiating, looked up as the offer case does. *)
Definition negotiatedTractor (userNumber : option string) (d : Data) : option Tractor.t :=
  negotiationOf userNumber d ≫= fun n => findTractor (Some (Js.Int (Negotiation.tractorId n))) d.

(** The cases of the [switch] written before the name-collection case. *)
Definition earlierCase (msg : string) : bool :=
  String.eqb msg "start" || String.eqb msg "recommend" || isCategory msg
  || String.eqb msg "browse"
  || (Js.startsWith msg "view" || Js.digitsOnly msg)
  || Js.startsWith msg "negotiate".

(** The second piece of [msg.split(" ")], read by [parseInt]. *)
Definition amountOf (msg : string) : option Js.Number :=
  Js.parseIntArg (Js.split_space msg !! 1%nat).

(** [a >= 0.9 p] for a Number [a]: the amount is an integer and ten times
    the amount is at least nine times the price, or it is the positive
    infinity. *)
Definition atLeastNineTenths (a : Js.Number) (p : Z) : Prop :=
  match a with
  | Js.Int z => 9 * p <= 10 * z
  | Js.Infinity negative => negative = false
  end.

(** Prices for which the binary64 product and its two-decimal rendering
    are those of the exact product. *)
Definition priceInRange (p : Z) : Prop := 0 < p < 2 ^ 45.

(** The characters [a-zA-Z\s\-'] by their code units. *)
Definition inNameClass (c : ascii) : Prop :=
  let n := Js.code c in
  97 <= n <= 122 \/ 65 <= n <= 90
  \/ 9 <= n <= 13 \/ n = 32 \/ n = 160
  \/ n = 45 \/ n = 39.

(** What the name pattern and the length test ask of a text: every
    character in the class, and at least two characters once trimmed. *)
Definition wellFormedName (msg : string) : Prop :=
  Forall inNameClass (list_ascii_of_string msg)
  /\ (2 <= String.length (Js.trim msg))%nat.

(** A decimal digit as text. *)
Definition digitText (d : Z) : string :=
  match d with
  | 0 => "0" | 1 => "1" | 2 => "2" | 3 => "3" | 4 => "4"
  | 5 => "5" | 6 => "6" | 7 => "7" | 8 => "8" | 9 => "9"
  | _ => EmptyString
  end.

(** [9p/10] written with two decimals: the integer part in decimal, a
    point, the tenths digit and a zero.  It is written with the Standard
    Library's decimal numbers and the table above, not with the functions
    that model [toFixed]. *)
Definition nineTenthsText (p : Z) : string :=
  NilZero.string_of_uint (N.to_uint (Z.to_N (9 * p / 10)))
  +:+ "." +:+ digitText (9 * p mod 10) +:+ "0".

(** [price * 0.9] in the Standard Library's specification of IEEE 754
    binary64 arithmetic, and the number that a [dyadic] denotes there. *)
Definition SFmul09 (price : Z) : spec_float :=
  SFmul 53 1024 (binary_normalize 53 1024 price 0 false)
        (S754_finite false (Z.to_pos Double.nine_tenths) (-53)).

Definition toSpec (x : Double.dyadic) : spec_float :=
  binary_normalize 53 1024 (Double.mant x) (Double.expo x) false.

(** The binary64 number of an integer, as the comparison converts the
    amount. *)
Definition SFofInt (a : Z) : spec_float := binary_normalize 53 1024 a 0 false.

(** The world right after [readData()] on the file [f]. *)
Definition loaded (f : Data) : world := {| file := f; data := f; twiml := [] |}.

(** The users after [negotiate] has put the negotiation [n] on the session
    of [userNumber], creating the session when there is none. *)
Definition withNegotiation (userNumber : option string) (n : Negotiation.t)
    (d : Data) : Data :=
  {| users :=
       match findUser userNumber d with
       | Some (i, u) => <[i := set_currentNegotiation (Some n) u]> (users d)
       | None => (users d ++ [ {| User.phone := userNumber; User.name := None;
                                  User.currentNegotiation := Some n |} ])%list
       end;
     tractors := tractors d |}.

(** The users after the record at index [i] has been replaced by [u]. *)
Definition withUser (i : nat) (u : User.t) (d : Data) : Data :=
  {| users := <[i := u]> (users d); tractors := tractors d |}.

(** Whether the negotiation of a record, if any, is on a tractor of the
    catalogue. *)
Definition resolves (d : Data) (u : User.t) : bool :=
  match User.currentNegotiation u with
  | Some n =>
      match findTractor (Some (Js.Int (Negotiation.tractorId n))) d with
      | Some _ => true
      | None => false
      end
  | None => true
  end.

(** Every negotiation of the collection is on a tractor of the catalogue. *)
Definition negotiationsResolve (d : Data) : Prop :=
  Forall (fun u => resolves d u = true) (users d).

(** A name as the handler stores it: accepted by [isValidName], trimmed
    and in lower case. *)
Definition normalName (n : string) : Prop :=
  isValidName n = true /\ Js.trim n = n /\ Js.toLowerCase n = n.

(** Every name of the collection is such a name. *)
Definition namesNormal (d : Data) : Prop :=
  Forall (fun u => forall n, User.name u = Some n -> normalName n) (users d).

(** The id a view message asks for. *)
Definition viewedId (msg : string) : option Js.Number :=
  Js.parseInt (orElse (Js.split_space msg !! 1%nat) msg).

(** The text stops the run of digits that [parseInt] reads. *)
Definition noDigitFirst (s : string) : Prop :=
  match s with
  | String c _ => Js.isDigit c = false
  | EmptyString => True
  end.

(** ** Sample data *)

Module Sample.

Definition catalog : list Tractor.t :=
  [ {| Tractor.id := 1; Tractor.name := "Compact 15"; Tractor.price := 15;
       Tractor.condition := "used"; Tractor.useCase := "Landscaping";
       Tractor.image := "https://example.com/1.jpg" |};
    {| Tractor.id := 2; Tractor.name := "Field Master"; Tractor.price := 10000;
       Tractor.condition := "new"; Tractor.useCase := "Farming";
       Tractor.image := "https://example.com/2.jpg" |} ].

Definition jane : option string := Some "whatsapp:+15550100".

Definition says (text : string) : request :=
  {| Body := Some text; From := jane |}.

(** No session yet. *)
Definition fresh : Data := {| users := []; tractors := catalog |}.

(** After [negotiate 2]: collecting the name. *)
Definition naming : Data :=
  {| users := [ {| User.phone := jane; User.name := None;
                   User.currentNegotiation :=
                     Some {| Negotiation.tractorId := 2;
                             Negotiation.stage := name_collection |} |} ];
     tractors := catalog |}.

(** After the name: collecting the offer on tractor 2 (price 10000). *)
Definition offering : Data :=
  {| users := [ {| User.phone := jane; User.name := Some "jane doe";
                   User.currentNegotiation :=
                     Some {| Negotiation.tractorId := 2;
                             Negotiation.stage := offer_collection |} |} ];
     tractors := catalog |}.

(** Collecting the offer on tractor 1 (price 15). *)
Definition offering15 : Data :=
  {| users := [ {| User.phone := jane; User.name := Some "jane doe";
                   User.currentNegotiation :=
                     Some {| Negotiation.tractorId := 1;
                             Negotiation.stage := offer_collection |} |} ];
     tractors := catalog |}.

(** A session whose negotiation was set to [null]. *)
Definition idle : Data :=
  {| users := [ {| User.phone := jane; User.name := Some "jane doe";
                   User.currentNegotiation := None |} ];
     tractors := catalog |}.


(** A catalogue whose tractor has the id 2^53, and no session. *)
Definition numbered : Data :=
  {| users := [];
     tractors :=
       [ {| Tractor.id := 9007199254740992; Tractor.name := "Long Hauler";
            Tractor.price := 20000;
            Tractor.condition := "used"; Tractor.useCase := "Construction";
            Tractor.image := "https://example.com/4.jpg" |} ] |}.

(** Collecting the offer on a tractor that is not in the catalogue. *)
Definition orphaned : Data :=
  {| users := [ {| User.phone := jane; User.name := Some "jane doe";
                   User.currentNegotiation :=
                     Some {| Negotiation.tractorId := 9;
                             Negotiation.stage := offer_collection |} |} ];
     tractors := catalog |}.

End Sample.

(** * Properties *)

(** ** Strings *)

Example toLowerCase_ex : Js.toLowerCase "  Jane Doe " = "  jane doe ".
Proof. reflexivity. Qed.

Example trim_ex : Js.trim "  jane  doe  " = "jane  doe".
Proof. reflexivity. Qed.

Example split_ex :
  Js.split_space "offer  9500" = ["offer"; EmptyString; "9500"].
Proof. reflexivity. Qed.

Example parseInt_ex :
  Js.parseInt "9500abc" = Some (Js.Int 9500)
  /\ Js.parseInt "-12.5" = Some (Js.Int (-12))
  /\ Js.parseInt "9007199254740993" = Some (Js.Int 9007199254740992)
  /\ Js.parseInt "abc" = None /\ Js.parseInt EmptyString = None.
Proof. repeat split; reflexivity. Qed.

(** A run of 310 digits is read as an infinity. *)
Example parseInt_overflow :
  Js.parseInt (String "1" (string_of_list_ascii (repeat "0"%char 309)))
  = Some (Js.Infinity false)
  /\ Js.parseInt (String "-" (String "1" (string_of_list_ascii (repeat "0"%char 309))))
     = Some (Js.Infinity true).
Proof. split; vm_compute; reflexivity. Qed.

Lemma trimEnd_idem s : Js.trimEnd (Js.trimEnd s) = Js.trimEnd s.
Proof.
  induction s as [|c r IH]; simpl; [reflexivity|].
  destruct (Js.trimEnd r) as [|c' r'] eqn:E.
  - destruct (Js.isWhiteSpace c) eqn:W; simpl; [reflexivity|].
    rewrite W. reflexivity.
  - simpl in *. rewrite IH. reflexivity.
Qed.

Lemma trimEnd_head c r :
  Js.isWhiteSpace c = false -> exists r', Js.trimEnd (String c r) = String c r'.
Proof.
  intros W. simpl. destruct (Js.trimEnd r); rewrite ?W; eauto.
Qed.

Lemma trimStart_head s :
  Js.trimStart s = EmptyString
  \/ exists c r, Js.trimStart s = String c r /\ Js.isWhiteSpace c = false.
Proof.
  induction s as [|c r IH]; simpl; [left; reflexivity|].
  destruct (Js.isWhiteSpace c) eqn:W; [exact IH|]. right. eauto.
Qed.

(** Trimming a trimmed string changes nothing: [incomingMsg.trim()] is
    [incomingMsg]. *)
Lemma trim_idem s : Js.trim (Js.trim s) = Js.trim s.
Proof.
  unfold Js.trim.
  destruct (trimStart_head s) as [E | (c & r & E & W)]; rewrite E.
  - reflexivity.
  - destruct (trimEnd_head c r W) as [r' E']. rewrite E'.
    simpl Js.trimStart. rewrite W. rewrite <- E'. apply trimEnd_idem.
Qed.

Lemma prefix_String a p s :
  String.prefix (String a p) s = true ->
  exists r, s = String a r /\ String.prefix p r = true.
Proof.
  destruct s as [|b r]; simpl; [discriminate|].
  destruct (ascii_dec a b) as [->|]; [eauto | discriminate].
Qed.

(** ** Binary64 arithmetic of the offer threshold *)

Lemma nine_tenths_eq : 10 * Double.nine_tenths = 9 * 2 ^ 53 + 2.
Proof. reflexivity. Qed.

Lemma roundNearestEven_bounds n s :
  0 <= n -> 0 <= s ->
  2 * n - 2 ^ s <= 2 * (Double.roundNearestEven n s * 2 ^ s) <= 2 * n + 2 ^ s.
Proof.
  intros Hn Hs. unfold Double.roundNearestEven.
  assert (HD : 0 < 2 ^ s) by (apply Z.pow_pos_nonneg; lia).
  set (D := 2 ^ s) in *.
  pose proof (Z.div_mod n D ltac:(lia)) as E.
  pose proof (Z.mod_pos_bound n D HD) as B.
  set (q := n / D) in *. set (r := n mod D) in *.
  destruct (Z.compare_spec (2 * r) D); [destruct (Z.even q)|..]; nia.
Qed.

(** Shape of the product for a price of at least 2: a shift [s] between 1
    and 46, and the rounded mantissa within half a unit of the exact one. *)
Lemma mul09_shape p :
  2 <= p < 2 ^ 45 ->
  exists s m,
    1 <= s <= 46 /\
    Double.mul09 p = {| Double.mant := m; Double.expo := s - 53 |} /\
    2 * (p * Double.nine_tenths) - 2 ^ s <= 2 * (m * 2 ^ s)
      <= 2 * (p * Double.nine_tenths) + 2 ^ s /\
    2 ^ s * 2 ^ 52 <= p * Double.nine_tenths < 2 ^ s * 2 ^ 53.
Proof.
  intros Hp. unfold Double.mul09, Double.round53.
  rewrite Z.abs_eq, Z.sgn_pos by lia.
  set (n := p * Double.nine_tenths).
  assert (Hn : 2 ^ 53 <= n < 2 ^ 98).
  { unfold n, Double.nine_tenths. change (2 ^ 53) with 9007199254740992.
    change (2 ^ 98) with (2 ^ 45 * 2 ^ 53) . change (2 ^ 53) with 9007199254740992. nia. }
  pose proof (Z.log2_spec n ltac:(lia)) as L.
  assert (53 <= Z.log2 n) by (apply Z.log2_le_pow2; lia).
  assert (Z.log2 n < 98) by (apply Z.log2_lt_pow2; lia).
  set (s := Z.log2 n - 52) in *.
  destruct (Z.leb_spec s 0); [lia|].
  exists s, (Double.roundNearestEven n s). simpl.
  split; [lia|]. split; [f_equal; lia|].
  split; [apply roundNearestEven_bounds; lia|].
  replace (Z.log2 n) with (s + 52) in L by lia.
  replace (Z.succ (s + 52)) with (s + 53) in L by lia.
  rewrite !Z.pow_add_r in L by lia. exact L.
Qed.

Lemma pow2_split s :
  1 <= s <= 46 ->
  2 ^ s * 2 ^ (53 - s) = 2 ^ 53 /\ 2 <= 2 ^ s <= 2 ^ 46 /\ 0 < 2 ^ (53 - s).
Proof.
  intros Hs. rewrite <- Z.pow_add_r by lia. replace (s + (53 - s)) with 53 by lia.
  split; [reflexivity|]. split; [|apply Z.pow_pos_nonneg; lia].
  split.
  - change 2 with (2 ^ 1) at 1. apply Z.pow_le_mono_r; lia.
  - apply Z.pow_le_mono_r; lia.
Qed.

(** The comparison [amount >= price * 0.9] decides [10 * amount >= 9 * price]. *)
Lemma geInt_mul09 a p :
  priceInRange p -> Double.geInt a (Double.mul09 p) = (9 * p <=? 10 * a).
Proof.
  intros [Hp0 Hp]. destruct (Z.eq_dec p 1) as [->|Hp1].
  { vm_compute Double.mul09. unfold Double.geInt. simpl Double.expo. simpl Double.mant.
    change (2 ^ (- (-53))) with 9007199254740992. simpl (0 <=? -53).
    cbv iota. destruct (Z.leb_spec 9 (10 * a)), (Z.leb_spec 8106479329266893 (a * 9007199254740992));
      simpl in *; try reflexivity; lia. }
  destruct (mul09_shape p ltac:(lia)) as (s & m & Hs & -> & Hm & Hl).
  destruct (pow2_split s Hs) as (HDT & HD & HT).
  unfold Double.geInt. simpl Double.expo. simpl Double.mant.
  destruct (Z.leb_spec 0 (s - 53)); [lia|].
  replace (- (s - 53)) with (53 - s) by lia.
  pose proof nine_tenths_eq as Hc.
  set (D := 2 ^ s) in *. set (T := 2 ^ (53 - s)) in *.
  set (c := Double.nine_tenths) in *.
  change (2 ^ 53) with 9007199254740992 in *.
  change (2 ^ 52) with 4503599627370496 in *.
  change (2 ^ 46) with 70368744177664 in *.
  change (2 ^ 45) with 35184372088832 in *.
  assert (HaT : a * T * D = a * 9007199254740992) by (rewrite <- HDT; ring).
  destruct (Z.leb_spec m (a * T)) as [Hle|Hgt], (Z.leb_spec (9 * p) (10 * a)) as [Hq|Hq];
    try reflexivity; exfalso.
  - assert (m * D <= a * T * D) by (apply Z.mul_le_mono_nonneg_r; lia). lia.
  - assert ((a * T + 1) * D <= m * D) by (apply Z.mul_le_mono_nonneg_r; lia). lia.
Qed.

(** Rounded to hundredths, [price * 0.9] is [90 * price] hundredths. *)
Lemma hundredths_mul09 p :
  priceInRange p -> Double.hundredths (Double.mul09 p) = 90 * p.
Proof.
  intros [Hp0 Hp]. destruct (Z.eq_dec p 1) as [->|Hp1]; [vm_compute; reflexivity|].
  destruct (mul09_shape p ltac:(lia)) as (s & m & Hs & -> & Hm & Hl).
  destruct (pow2_split s Hs) as (HDT & HD & HT).
  unfold Double.hundredths. simpl Double.expo. simpl Double.mant.
  destruct (Z.leb_spec 0 (s - 53)); [lia|].
  replace (- (s - 53)) with (53 - s) by lia.
  pose proof nine_tenths_eq as Hc.
  set (D := 2 ^ s) in *. set (T := 2 ^ (53 - s)) in *.
  set (c := Double.nine_tenths) in *.
  change (2 ^ 53) with 9007199254740992 in *.
  change (2 ^ 52) with 4503599627370496 in *.
  change (2 ^ 46) with 70368744177664 in *.
  change (2 ^ 45) with 35184372088832 in *.
  symmetry. apply Z.div_unique with (r := 200 * m + T - 2 * T * (90 * p)); [|ring].
  left.
  assert (E1 : (200 * m + T - 2 * T * (90 * p)) * D
               = 200 * (m * D) + 9007199254740992 - 180 * p * 9007199254740992)
    by (rewrite <- HDT; ring).
  assert (E2 : 2 * T * D = 2 * 9007199254740992) by (rewrite <- HDT; ring).
  split.
  - apply (Z.mul_le_mono_pos_r _ _ D); [lia|]. rewrite E1. lia.
  - apply (Z.mul_lt_mono_pos_r D); [lia|]. rewrite E1, E2. lia.
Qed.

Lemma mul09_mant_nonneg p : priceInRange p -> 0 <= Double.mant (Double.mul09 p).
Proof.
  intros [Hp0 Hp]. destruct (Z.eq_dec p 1) as [->|Hp1]; [vm_compute; discriminate|].
  destruct (mul09_shape p ltac:(lia)) as (s & m & Hs & -> & Hm & Hl).
  destruct (pow2_split s Hs) as (HDT & HD & HT). simpl.
  unfold Double.nine_tenths in *. nia.
Qed.

(** [(price * 0.9).toFixed(2)] is nine tenths of the price with two
    decimals. *)
Lemma toFixed2_mul09 p :
  priceInRange p -> Double.toFixed2 (Double.mul09 p) = nineTenthsText p.
Proof.
  intros Hp. unfold Double.toFixed2, nineTenthsText.
  pose proof (mul09_mant_nonneg p Hp) as Hm.
  destruct (Z.ltb_spec (Double.mant (Double.mul09 p)) 0); [lia|].
  rewrite Z.abs_eq by lia.
  replace {| Double.mant := Double.mant (Double.mul09 p);
             Double.expo := Double.expo (Double.mul09 p) |}
    with (Double.mul09 p) by (destruct (Double.mul09 p); reflexivity).
  rewrite hundredths_mul09 by assumption.
  replace (90 * p / 100) with (9 * p / 10) by (Z.div_mod_to_equations; lia).
  replace (90 * p mod 100 / 10) with (9 * p mod 10) by (Z.div_mod_to_equations; lia).
  replace (90 * p mod 10) with 0 by (Z.div_mod_to_equations; lia).
  pose proof (Z.mod_pos_bound (9 * p) 10 ltac:(lia)) as Hd.
  unfold Double.decimal.
  match goal with |- EmptyString +:+ ?x = _ => change (EmptyString +:+ x) with x end.
  f_equal.
  assert (E : 9 * p mod 10 = 0 \/ 9 * p mod 10 = 1 \/ 9 * p mod 10 = 2
              \/ 9 * p mod 10 = 3 \/ 9 * p mod 10 = 4 \/ 9 * p mod 10 = 5
              \/ 9 * p mod 10 = 6 \/ 9 * p mod 10 = 7 \/ 9 * p mod 10 = 8
              \/ 9 * p mod 10 = 9) by lia.
  repeat destruct E as [E|E]; rewrite E; reflexivity.
Qed.

Example toFixed2_ex :
  Double.toFixed2 (Double.mul09 10000) = "9000.00"
  /\ Double.toFixed2 (Double.mul09 15) = "13.50".
Proof. split; reflexivity. Qed.

(** ** The model and IEEE 754 *)

(** The Standard Library specifies binary64 arithmetic on [spec_float]
    ([SFmul], [SFleb], [binary_normalize]).  This section computes what
    its rounding does, bit by bit, and concludes that [Double.mul09] and
    [Double.geInt] are the IEEE 754 product and comparison. *)

Lemma digits2_pos_size q : digits2_pos q = Pos.size q.
Proof. induction q; cbn; congruence. Qed.

Lemma digits2_pos_log2 q : Zpos (digits2_pos q) = Z.log2 (Zpos q) + 1.
Proof.
  rewrite digits2_pos_size. destruct q; cbn [Z.log2 Pos.size]; try reflexivity;
    rewrite Pos2Z.inj_succ; lia.
Qed.

(** Shifting right [p] times is iterating the one-bit shift. *)
Lemma iter_pos_nat {A} (f : A -> A) p x :
  SpecFloat.iter_pos f p x = Nat.iter (Pos.to_nat p) f x.
Proof.
  revert x. induction p as [p IH|p IH|]; intros x; cbn [SpecFloat.iter_pos].
  - rewrite !IH, Pos2Nat.inj_xI, Nat.iter_succ_r.
    replace (2 * Pos.to_nat p)%nat with (Pos.to_nat p + Pos.to_nat p)%nat by lia.
    rewrite Nat.iter_add. reflexivity.
  - rewrite !IH, Pos2Nat.inj_xO.
    replace (2 * Pos.to_nat p)%nat with (Pos.to_nat p + Pos.to_nat p)%nat by lia.
    rewrite Nat.iter_add. reflexivity.
  - reflexivity.
Qed.

(** One shift: the mantissa is halved, the bit shifted out becomes the
    round bit, and the sticky bit collects the earlier ones. *)
Lemma shr_1_spec m r s :
  0 <= m ->
  shr_1 {| shr_m := m; shr_r := r; shr_s := s |}
  = {| shr_m := m / 2; shr_r := Z.odd m; shr_s := r || s |}.
Proof.
  intros Hm. destruct m as [|p|p]; [reflexivity| |lia].
  destruct p as [p|p|]; cbn [shr_1].
  - f_equal. rewrite Pos2Z.inj_xI. apply Z.div_unique with (r := 1); lia.
  - f_equal. rewrite Pos2Z.inj_xO. apply Z.div_unique with (r := 0); lia.
  - reflexivity.
Qed.

(** After [k + 1] shifts: the quotient by [2^(k+1)], bit [k], and whether
    the bits below it are all zero. *)
Lemma shr_iter_spec m k :
  0 <= m ->
  Nat.iter (S k) shr_1 {| shr_m := m; shr_r := false; shr_s := false |}
  = {| shr_m := m / 2 ^ Z.of_nat (S k);
       shr_r := Z.odd (m / 2 ^ Z.of_nat k);
       shr_s := negb (m mod 2 ^ Z.of_nat k =? 0) |}.
Proof.
  intros Hm. induction k as [|k IH].
  - cbn [Nat.iter]. rewrite shr_1_spec by lia.
    change (Z.of_nat 1) with 1. change (Z.of_nat 0) with 0.
    rewrite Z.pow_1_r, Z.pow_0_r, Z.div_1_r, Z.mod_1_r. reflexivity.
  - rewrite Nat.iter_succ, IH.
    assert (H2k : 0 < 2 ^ Z.of_nat k) by (apply Z.pow_pos_nonneg; lia).
    assert (H2k' : 0 < 2 ^ Z.of_nat (S k)) by (apply Z.pow_pos_nonneg; lia).
    assert (E : 2 ^ Z.of_nat (S k) = 2 * 2 ^ Z.of_nat k)
      by (rewrite Nat2Z.inj_succ, Z.pow_succ_r by lia; reflexivity).
    rewrite shr_1_spec by (apply Z.div_pos; lia).
    f_equal.
    + rewrite Z.div_div by lia. f_equal.
      rewrite (Nat2Z.inj_succ (S k)), Z.pow_succ_r by lia. ring.
    + rewrite E.
      pose proof (Z.div_mod m (2 ^ Z.of_nat k) ltac:(lia)) as D1.
      pose proof (Z.mod_pos_bound m (2 ^ Z.of_nat k) H2k) as B1.
      set (q := m / 2 ^ Z.of_nat k) in *. set (r := m mod 2 ^ Z.of_nat k) in *.
      pose proof (Z.div_mod q 2 ltac:(lia)) as D2.
      pose proof (Z.mod_pos_bound q 2 ltac:(lia)) as B2.
      assert (Hq : Z.odd q = negb (q mod 2 =? 0)).
      { rewrite Zmod_odd. destruct (Z.odd q); reflexivity. }
      assert (Em : m mod (2 * 2 ^ Z.of_nat k) = (q mod 2) * 2 ^ Z.of_nat k + r).
      { symmetry. apply Z.mod_unique with (q := q / 2); [left; nia|].
        rewrite D1 at 1. rewrite D2 at 1. ring. }
      rewrite Em, Hq.
      destruct (Z.eqb_spec (q mod 2) 0), (Z.eqb_spec r 0),
               (Z.eqb_spec (q mod 2 * 2 ^ Z.of_nat k + r) 0);
        cbn; try reflexivity; exfalso; nia.
Qed.

(** The remainder modulo [2^s]: its top bit and the bits below. *)
Lemma mod_pow2_split m s :
  0 <= m -> 0 < s ->
  m mod 2 ^ s = (m / 2 ^ (s - 1)) mod 2 * 2 ^ (s - 1) + m mod 2 ^ (s - 1)
  /\ 0 <= m mod 2 ^ (s - 1) < 2 ^ (s - 1)
  /\ 2 ^ s = 2 * 2 ^ (s - 1)
  /\ 0 <= (m / 2 ^ (s - 1)) mod 2 < 2.
Proof.
  intros Hm Hs.
  assert (H2 : 0 < 2 ^ (s - 1)) by (apply Z.pow_pos_nonneg; lia).
  assert (E : 2 ^ s = 2 * 2 ^ (s - 1)).
  { replace s with (Z.succ (s - 1)) at 1 by lia. apply Z.pow_succ_r. lia. }
  pose proof (Z.div_mod m (2 ^ (s - 1)) ltac:(lia)) as D1.
  pose proof (Z.mod_pos_bound m (2 ^ (s - 1)) H2) as B1.
  set (q := m / 2 ^ (s - 1)) in *. set (r := m mod 2 ^ (s - 1)) in *.
  pose proof (Z.div_mod q 2 ltac:(lia)) as D2.
  pose proof (Z.mod_pos_bound q 2 ltac:(lia)) as B2.
  repeat split; try lia.
  rewrite E. symmetry. apply Z.mod_unique with (q := q / 2); [left; nia|].
  rewrite D1 at 1. rewrite D2 at 1. ring.
Qed.

(** Rounding by round bit and sticky bit is [roundNearestEven]. *)
Lemma round_loc m s :
  0 <= m -> 0 < s ->
  round_nearest_even (m / 2 ^ s)
    (loc_of_shr_record
       {| shr_m := m / 2 ^ s;
          shr_r := Z.odd (m / 2 ^ (s - 1));
          shr_s := negb (m mod 2 ^ (s - 1) =? 0) |})
  = Double.roundNearestEven m s.
Proof.
  intros Hm Hs. unfold Double.roundNearestEven.
  destruct (mod_pow2_split m s Hm Hs) as (E & B & P & B2).
  rewrite E, P. rewrite Zmod_odd in *.
  set (low := m mod 2 ^ (s - 1)) in *. set (h := 2 ^ (s - 1)) in *.
  cbn [loc_of_shr_record].
  destruct (Z.odd (m / h)); destruct (Z.eqb_spec low 0) as [E0|N0];
    cbn [negb round_nearest_even].
  - rewrite E0. replace (2 * (1 * h + 0)) with (2 * h) by ring.
    rewrite Z.compare_refl. reflexivity.
  - destruct (Z.compare_spec (2 * (1 * h + low)) (2 * h)); first [lia | reflexivity].
  - destruct (Z.compare_spec (2 * (0 * h + low)) (2 * h)); first [lia | reflexivity].
  - destruct (Z.compare_spec (2 * (0 * h + low)) (2 * h)); first [lia | reflexivity].
Qed.

(** The first step of rounding: how many bits the format drops from a
    mantissa, and what is left. *)
Lemma shr_fexp_spec m e :
  0 < m ->
  let s := Z.max (Z.log2 m + 1 + e - 53) (-1074) - e in
  shr_fexp 53 1024 m e loc_Exact
  = if 0 <? s
    then ({| shr_m := m / 2 ^ s;
             shr_r := Z.odd (m / 2 ^ (s - 1));
             shr_s := negb (m mod 2 ^ (s - 1) =? 0) |}, e + s)
    else ({| shr_m := m; shr_r := false; shr_s := false |}, e).
Proof.
  intros Hm s. unfold shr_fexp, shr, fexp, emin.
  destruct m as [|q|q]; try lia.
  cbn [Zdigits2 shr_record_of_loc]. rewrite digits2_pos_log2.
  change (3 - 1024 - 53) with (-1074). fold s.
  destruct s as [|k|k] eqn:Es; try reflexivity.
  rewrite iter_pos_nat.
  destruct (Pos2Nat.is_succ k) as [n Hn]. rewrite Hn.
  rewrite shr_iter_spec by lia.
  assert (H1 : Z.of_nat (S n) = Zpos k) by (rewrite <- Hn; apply positive_nat_Z).
  assert (H2 : Z.of_nat n = Zpos k - 1) by lia.
  rewrite H1, H2. reflexivity.
Qed.

(** The position of the leading bit, from bounds. *)
Lemma log2_between m k : 0 <= k -> 2 ^ k <= m < 2 ^ (k + 1) -> Z.log2 m = k.
Proof. intros Hk H. apply Z.log2_unique; [lia|]. rewrite <- Z.add_1_r. exact H. Qed.

(** A mantissa of exactly 53 bits is kept as it is. *)
Lemma binary_round_aux_exact sx m e :
  2 ^ 52 <= m < 2 ^ 53 -> -1074 <= e <= 971 ->
  binary_round_aux 53 1024 sx m e loc_Exact = S754_finite sx (Z.to_pos m) e.
Proof.
  intros Hm He. unfold binary_round_aux.
  assert (Hpos : 0 < m) by (change (2 ^ 52) with 4503599627370496 in Hm; lia).
  assert (Hs : shr_fexp 53 1024 m e loc_Exact
               = ({| shr_m := m; shr_r := false; shr_s := false |}, e)).
  { rewrite shr_fexp_spec by exact Hpos. cbv zeta.
    rewrite (log2_between m 52) by (try lia; exact Hm).
    destruct (Z.ltb_spec 0 (Z.max (52 + 1 + e - 53) (-1074) - e));
      [lia | reflexivity]. }
  rewrite Hs. cbn [shr_m loc_of_shr_record round_nearest_even]. rewrite Hs.
  cbn [shr_m]. destruct m as [|q|q]; try lia.
  change (1024 - 53) with 971. destruct (Z.leb_spec e 971); [reflexivity | lia].
Qed.

(** Rounding a mantissa of [53 + s] bits by [s] bits gives 53 bits, or
    2^53. *)
Lemma roundNearestEven_range M s :
  0 < s -> 2 ^ (52 + s) <= M < 2 ^ (53 + s) ->
  2 ^ 52 <= Double.roundNearestEven M s <= 2 ^ 53.
Proof.
  intros Hs HM. unfold Double.roundNearestEven.
  assert (HD : 0 < 2 ^ s) by (apply Z.pow_pos_nonneg; lia).
  rewrite !Z.pow_add_r in HM by lia.
  pose proof (Z.div_mod M (2 ^ s) ltac:(lia)) as E.
  pose proof (Z.mod_pos_bound M (2 ^ s) HD) as B.
  set (D := 2 ^ s) in *. set (q := M / D) in *. set (r := M mod D) in *.
  change (2 ^ 52) with 4503599627370496 in *.
  change (2 ^ 53) with 9007199254740992 in *.
  assert (4503599627370496 <= q < 9007199254740992) by nia.
  destruct (Z.compare_spec (2 * r) D); [destruct (Z.even q)|..]; lia.
Qed.

(** Rounding in general: [s] bits are dropped, a carry into a 54th bit is
    renormalised, and the result is infinite when the exponent is too
    large. *)
Lemma binary_round_aux_general sx M E s :
  0 < s -> 2 ^ (52 + s) <= M < 2 ^ (53 + s) ->
  -1074 <= E + s ->
  binary_round_aux 53 1024 sx M E loc_Exact
  = let m1 := Double.roundNearestEven M s in
    let m2 := if m1 =? 2 ^ 53 then 2 ^ 52 else m1 in
    let e2 := if m1 =? 2 ^ 53 then E + s + 1 else E + s in
    if e2 <=? 971 then S754_finite sx (Z.to_pos m2) e2 else S754_infinity sx.
Proof.
  intros Hs HM HE. cbv zeta. unfold binary_round_aux.
  assert (Hpos : 0 < M).
  { assert (0 < 2 ^ (52 + s)) by (apply Z.pow_pos_nonneg; lia). lia. }
  rewrite shr_fexp_spec by exact Hpos. cbv zeta.
  rewrite (log2_between M (52 + s))
    by (try lia; replace (52 + s + 1) with (53 + s) by lia; exact HM).
  replace (Z.max (52 + s + 1 + E - 53) (-1074) - E) with s by lia.
  destruct (Z.ltb_spec 0 s); [|lia].
  cbn [shr_m]. rewrite round_loc by lia.
  pose proof (roundNearestEven_range M s Hs HM) as R.
  set (m1 := Double.roundNearestEven M s) in *.
  change (2 ^ 52) with 4503599627370496 in *.
  change (2 ^ 53) with 9007199254740992 in *.
  destruct (Z.eqb_spec m1 9007199254740992) as [E1|N1].
  - rewrite E1. vm_compute (Z.log2 _).
    rewrite shr_fexp_spec by lia. cbv zeta. vm_compute (Z.log2 _).
    replace (Z.max (53 + 1 + (E + s) - 53) (-1074) - (E + s)) with 1 by lia.
    cbn [Z.ltb Z.compare shr_m].
    change (9007199254740992 / 2 ^ 1) with 4503599627370496.
    cbn iota. reflexivity.
  - assert (Hs' : shr_fexp 53 1024 m1 (E + s) loc_Exact
               = ({| shr_m := m1; shr_r := false; shr_s := false |}, E + s)).
    { rewrite shr_fexp_spec by lia. cbv zeta.
      rewrite (log2_between m1 52)
        by (try lia; change (2 ^ 52) with 4503599627370496;
            change (2 ^ (52+1)) with 9007199254740992; lia).
      destruct (Z.ltb_spec 0 (Z.max (52 + 1 + (E + s) - 53) (-1074) - (E + s)));
        [lia | reflexivity]. }
    rewrite Hs'. cbn [shr_m]. destruct m1 as [|q|q]; try lia. reflexivity.
Qed.

(** Within the exponent range the result is finite. *)
Lemma binary_round_aux_inexact sx M E s :
  0 < s -> 2 ^ (52 + s) <= M < 2 ^ (53 + s) ->
  -1074 <= E + s <= 970 ->
  binary_round_aux 53 1024 sx M E loc_Exact
  = let m1 := Double.roundNearestEven M s in
    if m1 =? 2 ^ 53 then S754_finite sx (Z.to_pos (2 ^ 52)) (E + s + 1)
    else S754_finite sx (Z.to_pos m1) (E + s).
Proof.
  intros Hs HM HE. rewrite (binary_round_aux_general sx M E s) by (try lia; exact HM).
  cbv zeta. destruct (Double.roundNearestEven M s =? 2 ^ 53).
  - destruct (Z.leb_spec (E + s + 1) 971); [reflexivity | lia].
  - destruct (Z.leb_spec (E + s) 971); [reflexivity | lia].
Qed.

(** Shifting a mantissa left. *)
Lemma iter_xO q k : Zpos (Pos.iter xO q k) = Zpos q * 2 ^ Zpos k.
Proof.
  change 2 with (Zpos 2). rewrite <- Pos2Z.inj_pow, <- Pos2Z.inj_mul. f_equal.
  induction k as [|k IH] using Pos.peano_ind.
  - cbn. lia.
  - rewrite Pos.iter_succ, IH, Pos.pow_succ_r. lia.
Qed.

(** Aligning a mantissa to a smaller exponent. *)
Lemma shl_align_spec mx ex ex' :
  shl_align mx ex ex'
  = if ex' <? ex then (Z.to_pos (Zpos mx * 2 ^ (ex - ex')), ex') else (mx, ex).
Proof.
  unfold shl_align. destruct (Z.ltb_spec ex' ex) as [H|H].
  - destruct (ex' - ex) as [|d|d] eqn:E; try lia.
    f_equal. replace (ex - ex') with (Zpos d) by lia.
    rewrite <- iter_xO. reflexivity.
  - destruct (ex' - ex) as [|d|d] eqn:E; try lia; reflexivity.
Qed.

(** A value with 53 or 54 significant bits, the latter only as 2^53. *)
Lemma normalize_53 m e :
  2 ^ 52 <= m <= 2 ^ 53 -> -1074 <= e <= 969 ->
  binary_normalize 53 1024 m e false
  = if m =? 2 ^ 53 then S754_finite false (Z.to_pos (2 ^ 52)) (e + 1)
    else S754_finite false (Z.to_pos m) e.
Proof.
  intros Hm He.
  change (2 ^ 52) with 4503599627370496 in *.
  change (2 ^ 53) with 9007199254740992 in *.
  destruct m as [|q|q]; try lia.
  unfold binary_normalize, binary_round. rewrite shl_align_spec, digits2_pos_log2.
  unfold fexp, emin. change (3 - 1024 - 53) with (-1074).
  destruct (Z.eqb_spec (Zpos q) 9007199254740992) as [E|N].
  - rewrite E. vm_compute (Z.log2 _).
    destruct (Z.ltb_spec (Z.max (53 + 1 + e - 53) (-1074)) e); [lia|].
    rewrite E.
    rewrite (binary_round_aux_inexact _ _ e 1); [reflexivity | lia | | lia].
    split; [discriminate | reflexivity].
  - rewrite (log2_between (Zpos q) 52)
      by (try lia; change (2 ^ 52) with 4503599627370496;
          change (2 ^ (52+1)) with 9007199254740992; lia).
    destruct (Z.ltb_spec (Z.max (52 + 1 + e - 53) (-1074)) e); [lia|].
    rewrite binary_round_aux_exact; [reflexivity| |lia].
    change (2 ^ 52) with 4503599627370496.
    change (2 ^ 53) with 9007199254740992. lia.
Qed.

(** The binary64 number of an integer below 2^53: the integer shifted
    left to 53 bits. *)
Lemma binary_round_int sx q :
  Zpos q < 2 ^ 53 ->
  binary_round 53 1024 sx q 0
  = S754_finite sx (Z.to_pos (Zpos q * 2 ^ (52 - Z.log2 (Zpos q))))
                (Z.log2 (Zpos q) - 52).
Proof.
  intros Hp.
  pose proof (Z.log2_spec (Zpos q) ltac:(lia)) as L.
  assert (HL : 0 <= Z.log2 (Zpos q) < 53).
  { split; [apply Z.log2_nonneg|]. apply Z.log2_lt_pow2; lia. }
  set (l := Z.log2 (Zpos q)) in *.
  unfold binary_round. rewrite shl_align_spec, digits2_pos_log2.
  fold l. unfold fexp, emin. change (3 - 1024 - 53) with (-1074).
  replace (Z.max (l + 1 + 0 - 53) (-1074)) with (l - 52) by lia.
  assert (R : 2 ^ 52 <= Zpos q * 2 ^ (52 - l) < 2 ^ 53).
  { assert (E1 : 2 ^ 52 = 2 ^ l * 2 ^ (52 - l))
      by (rewrite <- Z.pow_add_r by lia; f_equal; lia).
    assert (E2 : 2 ^ 53 = 2 ^ Z.succ l * 2 ^ (52 - l))
      by (rewrite <- Z.pow_add_r by lia; f_equal; lia).
    assert (0 < 2 ^ (52 - l)) by (apply Z.pow_pos_nonneg; lia).
    rewrite E1, E2. nia. }
  destruct (Z.ltb_spec (l - 52) 0) as [H|H].
  - replace (0 - (l - 52)) with (52 - l) by lia.
    rewrite Z2Pos.id by lia.
    apply binary_round_aux_exact; [exact R | lia].
  - assert (l = 52) by lia. subst l.
    replace (52 - Z.log2 (Zpos q)) with 0 in * by lia.
    rewrite Z.mul_1_r in *.
    replace (Z.log2 (Zpos q) - 52) with 0 by lia.
    apply binary_round_aux_exact; [exact R | lia].
Qed.

(** The binary64 number of an integer of 54 bits or more: infinite, or
    finite with a positive exponent. *)
Lemma binary_round_big sx q :
  2 ^ 53 <= Zpos q ->
  binary_round 53 1024 sx q 0 = S754_infinity sx
  \/ exists m e, binary_round 53 1024 sx q 0 = S754_finite sx m e /\ 1 <= e.
Proof.
  intros Hq.
  pose proof (Z.log2_spec (Zpos q) ltac:(lia)) as L.
  assert (HL : 53 <= Z.log2 (Zpos q)) by (apply Z.log2_le_pow2; lia).
  set (l := Z.log2 (Zpos q)) in *.
  unfold binary_round. rewrite shl_align_spec, digits2_pos_log2. fold l.
  unfold fexp, emin. change (3 - 1024 - 53) with (-1074).
  destruct (Z.ltb_spec (Z.max (l + 1 + 0 - 53) (-1074)) 0); [lia|].
  rewrite (binary_round_aux_general sx (Zpos q) 0 (l - 52)); try lia.
  - cbv zeta.
    destruct (Double.roundNearestEven (Z.pos q) (l - 52) =? 2 ^ 53).
    + destruct (Z.leb_spec (0 + (l - 52) + 1) 971); [right | left; reflexivity].
      eexists _, _. split; [reflexivity | lia].
    + destruct (Z.leb_spec (0 + (l - 52)) 971); [right | left; reflexivity].
      eexists _, _. split; [reflexivity | lia].
  - replace (52 + (l - 52)) with l by lia.
    replace (53 + (l - 52)) with (Z.succ l) by lia. exact L.
Qed.

(** Rounding does not see trailing zero bits. *)
Lemma roundNearestEven_scale n k s :
  0 <= k -> 0 <= s ->
  Double.roundNearestEven (n * 2 ^ k) (s + k) = Double.roundNearestEven n s.
Proof.
  intros Hk Hs. unfold Double.roundNearestEven.
  assert (HK : 0 < 2 ^ k) by (apply Z.pow_pos_nonneg; lia).
  assert (HS : 0 < 2 ^ s) by (apply Z.pow_pos_nonneg; lia).
  rewrite Z.pow_add_r by lia.
  rewrite Z.div_mul_cancel_r by lia.
  rewrite Z.mul_mod_distr_r by lia.
  replace (2 * (n mod 2 ^ s * 2 ^ k)) with (2 * (n mod 2 ^ s) * 2 ^ k) by ring.
  rewrite <- Zmult_compare_compat_r by lia. reflexivity.
Qed.

Lemma roundNearestEven_0 n : Double.roundNearestEven n 0 = n.
Proof.
  unfold Double.roundNearestEven. rewrite Z.pow_0_r, Z.div_1_r, Z.mod_1_r.
  reflexivity.
Qed.

Lemma normalize_int p :
  0 < p < 2 ^ 53 ->
  binary_normalize 53 1024 p 0 false
  = S754_finite false (Z.to_pos (p * 2 ^ (52 - Z.log2 p))) (Z.log2 p - 52).
Proof.
  intros Hp. destruct p as [|q|q]; try lia. apply binary_round_int. lia.
Qed.

(** Shape of the product for any price below 2^53: the exact product
    [price * nine_tenths] loses [s] bits. *)
Lemma mul09_form p :
  0 < p < 2 ^ 53 ->
  exists s,
    0 <= s <= 53
    /\ Z.log2 (p * Double.nine_tenths) = s + 52
    /\ Double.mul09 p
       = {| Double.mant := Double.roundNearestEven (p * Double.nine_tenths) s;
            Double.expo := s - 53 |}
    /\ 2 ^ 52 <= Double.roundNearestEven (p * Double.nine_tenths) s <= 2 ^ 53.
Proof.
  intros Hp.
  assert (Hc : 2 ^ 52 <= Double.nine_tenths < 2 ^ 53)
    by (vm_compute; split; [discriminate | reflexivity]).
  set (n := p * Double.nine_tenths).
  assert (Hn : 2 ^ 52 <= n < 2 ^ 106).
  { unfold n. change (2 ^ 106) with (2 ^ 53 * 2 ^ 53).
    change (2 ^ 52) with 4503599627370496 in *.
    change (2 ^ 53) with 9007199254740992 in *. nia. }
  assert (Hn0 : 0 < n) by (change (2 ^ 52) with 4503599627370496 in *; lia).
  pose proof (Z.log2_spec n Hn0) as L.
  assert (HL : 52 <= Z.log2 n < 106).
  { split; [apply Z.log2_le_pow2; lia | apply Z.log2_lt_pow2; lia]. }
  exists (Z.log2 n - 52). split; [lia|]. split; [lia|].
  set (s := Z.log2 n - 52) in *.
  unfold Double.mul09, Double.round53. rewrite Z.abs_eq, Z.sgn_pos by lia.
  fold n. fold s.
  destruct (Z.leb_spec s 0) as [H0|H0]; cbn [Double.mant Double.expo];
    rewrite Z.mul_1_l.
  - assert (E : s = 0) by lia. replace (Z.log2 n) with 52 in L by lia.
    rewrite E, roundNearestEven_0. change (Z.succ 52) with 53 in L.
    split; [reflexivity | lia].
  - split; [f_equal; lia|].
    apply roundNearestEven_range; [lia|].
    replace (52 + s) with (Z.log2 n) by lia.
    replace (53 + s) with (Z.succ (Z.log2 n)) by lia. exact L.
Qed.

(** The IEEE 754 product, in canonical form. *)
Lemma SFmul09_form p :
  0 < p < 2 ^ 53 ->
  exists s,
    0 <= s <= 53
    /\ Double.mul09 p
       = {| Double.mant := Double.roundNearestEven (p * Double.nine_tenths) s;
            Double.expo := s - 53 |}
    /\ 2 ^ 52 <= Double.roundNearestEven (p * Double.nine_tenths) s <= 2 ^ 53
    /\ SFmul09 p
       = if Double.roundNearestEven (p * Double.nine_tenths) s =? 2 ^ 53
         then S754_finite false (Z.to_pos (2 ^ 52)) (s - 53 + 1)
         else S754_finite false
                (Z.to_pos (Double.roundNearestEven (p * Double.nine_tenths) s)) (s - 53).
Proof.
  intros Hp. destruct (mul09_form p Hp) as (s & Hs & Hlog & Hform & Hr).
  exists s. split; [exact Hs|]. split; [exact Hform|]. split; [exact Hr|].
  set (n := p * Double.nine_tenths) in *.
  assert (Hn0 : 0 < n) by (unfold n, Double.nine_tenths; lia).
  unfold SFmul09. rewrite normalize_int by exact Hp.
  assert (Hlp : 0 <= Z.log2 p < 53).
  { split; [apply Z.log2_nonneg|]. apply Z.log2_lt_pow2; lia. }
  set (k := 52 - Z.log2 p).
  assert (HK : 0 < 2 ^ k) by (apply Z.pow_pos_nonneg; lia).
  cbn [SFmul xorb].
  rewrite Pos2Z.inj_mul, !Z2Pos.id by (try (vm_compute; reflexivity); nia).
  replace (p * 2 ^ k * Double.nine_tenths) with (n * 2 ^ k) by (unfold n; ring).
  assert (Hlog' : Z.log2 (n * 2 ^ k) = k + Z.log2 n).
  { apply Z.log2_mul_pow2; lia. }
  assert (Hsk : 0 < s + k).
  { destruct (Z.eq_dec k 0) as [Ek|]; [|lia].
    assert (Elp : Z.log2 p = 52) by lia.
    pose proof (Z.log2_spec p ltac:(lia)) as Lp. rewrite Elp in Lp.
    assert (2 ^ 104 <= n).
    { unfold n, Double.nine_tenths. change (2 ^ 104) with (2 ^ 52 * 2 ^ 52).
      change (2 ^ 52) with 4503599627370496 in *. nia. }
    assert (104 <= Z.log2 n) by (apply Z.log2_le_pow2; lia). lia. }
  rewrite (binary_round_aux_inexact _ (n * 2 ^ k) (Z.log2 p - 52 + -53) (s + k)).
  - rewrite roundNearestEven_scale by lia. cbv zeta.
    replace (Z.log2 p - 52 + -53 + (s + k)) with (s - 53) by lia. reflexivity.
  - exact Hsk.
  - pose proof (Z.log2_spec (n * 2 ^ k) ltac:(nia)) as LM.
    rewrite Hlog' in LM.
    replace (52 + (s + k)) with (k + Z.log2 n) by lia.
    replace (53 + (s + k)) with (Z.succ (k + Z.log2 n)) by lia. exact LM.
  - lia.
Qed.

(** The product is below 2^53: its canonical exponent is not positive. *)
Lemma mul09_no_carry_at_53 p :
  0 < p < 2 ^ 53 ->
  Double.roundNearestEven (p * Double.nine_tenths) 53 <> 2 ^ 53.
Proof.
  intros Hp E.
  pose proof (roundNearestEven_bounds (p * Double.nine_tenths) 53
                ltac:(unfold Double.nine_tenths; lia) ltac:(lia)) as B.
  rewrite E in B. unfold Double.nine_tenths in B.
  change (2 ^ 53) with 9007199254740992 in *. lia.
Qed.

(** The model of [price * 0.9] is the IEEE 754 binary64 product of the
    price and the literal, for every integer price below 2^53. *)
Theorem mul09_is_SFmul p : 0 < p < 2 ^ 53 -> toSpec (Double.mul09 p) = SFmul09 p.
Proof.
  intros Hp. destruct (SFmul09_form p Hp) as (s & Hs & -> & Hr & ->).
  unfold toSpec. cbn [Double.mant Double.expo].
  apply normalize_53; [exact Hr | lia].
Qed.

(** Comparison of mantissas. *)
Lemma compare_cont_Eq x y : Pos.compare_cont Eq x y = (Zpos x ?= Zpos y).
Proof. reflexivity. Qed.

(** A positive binary64 number with a 53-bit mantissa against the binary64
    number of an integer: [SFleb] compares their values. *)
Lemma SFleb_int mx ex a :
  2 ^ 52 <= mx < 2 ^ 53 -> -1074 <= ex ->
  - 2 ^ 53 < a < 2 ^ 53 ->
  SFleb (S754_finite false (Z.to_pos mx) ex) (SFofInt a)
  = Double.geInt a {| Double.mant := mx; Double.expo := ex |}.
Proof.
  intros Hm He Ha. unfold Double.geInt. cbn [Double.mant Double.expo].
  change (2 ^ 52) with 4503599627370496 in *.
  change (2 ^ 53) with 9007199254740992 in *.
  destruct a as [|q|q].
  - unfold SFofInt, binary_normalize, SFleb, SFcompare. rewrite Z.mul_0_l.
    destruct (Z.leb_spec 0 ex).
    + assert (0 < 2 ^ ex) by (apply Z.pow_pos_nonneg; lia).
      destruct (Z.leb_spec (mx * 2 ^ ex) 0); [nia | reflexivity].
    + destruct (Z.leb_spec mx 0); [lia | reflexivity].
  - unfold SFofInt, binary_normalize.
    rewrite binary_round_int by (change (2 ^ 53) with 9007199254740992; lia).
    pose proof (Z.log2_spec (Zpos q) ltac:(lia)) as L.
    assert (HL : 0 <= Z.log2 (Zpos q) < 53).
    { split; [apply Z.log2_nonneg|]. apply Z.log2_lt_pow2; [lia|].
      change (2 ^ 53) with 9007199254740992; lia. }
    set (a := Zpos q) in *. set (t := 52 - Z.log2 a).
    replace (Z.log2 a - 52) with (- t) by (unfold t; lia).
    assert (Ht : 0 <= t <= 52) by (unfold t; lia).
    assert (HT : 0 < 2 ^ t) by (apply Z.pow_pos_nonneg; lia).
    assert (Hma : 4503599627370496 <= a * 2 ^ t < 9007199254740992).
    { assert (E1 : 4503599627370496 = 2 ^ Z.log2 a * 2 ^ t).
      { rewrite <- Z.pow_add_r by lia. unfold t.
        replace (Z.log2 a + (52 - Z.log2 a)) with 52 by lia. reflexivity. }
      assert (E2 : 9007199254740992 = 2 ^ Z.succ (Z.log2 a) * 2 ^ t).
      { rewrite <- Z.pow_add_r by lia. unfold t.
        replace (Z.succ (Z.log2 a) + (52 - Z.log2 a)) with 53 by lia.
        reflexivity. }
      rewrite E1 at 1. rewrite E2. nia. }
    set (ma := a * 2 ^ t) in *.
    assert (Ema : ma = a * 2 ^ t) by reflexivity.
    clearbody ma. clearbody t. clearbody a.
    unfold SFleb, SFcompare.
    destruct (Z.compare_spec ex (- t)) as [E|Hlt|Hgt].
    + rewrite compare_cont_Eq, !Z2Pos.id by lia. subst ex.
      destruct (Z.leb_spec 0 (- t)) as [H0|H0].
      * assert (t = 0) by lia. subst t. cbn [Z.opp].
        rewrite Z.pow_0_r, !Z.mul_1_r in *. subst ma.
        destruct (Z.compare_spec mx a), (Z.leb_spec mx a); try reflexivity; lia.
      * rewrite Z.opp_involutive. rewrite <- Ema.
        destruct (Z.compare_spec mx ma), (Z.leb_spec mx ma); try reflexivity; lia.
    + destruct (Z.leb_spec 0 ex); [lia|].
      set (u := - t - ex). assert (Hu : 0 < u) by (unfold u; lia).
      replace (- ex) with (t + u) by (unfold u; lia).
      rewrite Z.pow_add_r, Z.mul_assoc by lia. rewrite <- Ema.
      assert (2 <= 2 ^ u).
      { change 2 with (2 ^ 1) at 1. apply Z.pow_le_mono_r; lia. }
      destruct (Z.leb_spec mx (ma * 2 ^ u)); [reflexivity | nia].
    + destruct (Z.leb_spec 0 ex) as [H0|H0].
      * assert (0 < 2 ^ ex) by (apply Z.pow_pos_nonneg; lia).
        destruct (Z.leb_spec (mx * 2 ^ ex) a); [|reflexivity]. exfalso.
        destruct (Z.eq_dec t 0) as [E0|N0].
        -- subst t. rewrite Z.pow_0_r, Z.mul_1_r in Ema.
           assert (2 <= 2 ^ ex).
           { change 2 with (2 ^ 1) at 1. apply Z.pow_le_mono_r; lia. }
           nia.
        -- assert (2 <= 2 ^ t).
           { change 2 with (2 ^ 1) at 1. apply Z.pow_le_mono_r; lia. }
           nia.
      * set (v := t + ex). assert (Hv : 0 < v) by (unfold v; lia).
        assert (Et : 2 ^ t = 2 ^ (- ex) * 2 ^ v).
        { rewrite <- Z.pow_add_r by lia. f_equal. unfold v. lia. }
        assert (2 <= 2 ^ v).
        { change 2 with (2 ^ 1) at 1. apply Z.pow_le_mono_r; lia. }
        assert (0 < 2 ^ (- ex)) by (apply Z.pow_pos_nonneg; lia).
        rewrite Et, Z.mul_assoc in Ema.
        destruct (Z.leb_spec mx (a * 2 ^ (- ex))); [exfalso; nia | reflexivity].
  - assert (Hneg : exists m e, SFofInt (Zneg q) = S754_finite true m e).
    { unfold SFofInt, binary_normalize.
      rewrite binary_round_int by (change (2 ^ 53) with 9007199254740992; lia).
      eauto. }
    destruct Hneg as (m & e & ->). unfold SFleb, SFcompare.
    destruct (Z.leb_spec 0 ex).
    + assert (0 < 2 ^ ex) by (apply Z.pow_pos_nonneg; lia).
      destruct (Z.leb_spec (mx * 2 ^ ex) (Zneg q)); [nia | reflexivity].
    + assert (0 < 2 ^ (- ex)) by (apply Z.pow_pos_nonneg; lia).
      destruct (Z.leb_spec mx (Zneg q * 2 ^ (- ex))); [nia | reflexivity].
Qed.

(** Against an integer of 54 bits or more the sign decides. *)
Lemma SFleb_big mx ex a :
  2 ^ 52 <= mx < 2 ^ 53 -> -1074 <= ex <= 0 ->
  2 ^ 53 <= Z.abs a ->
  SFleb (S754_finite false (Z.to_pos mx) ex) (SFofInt a)
  = Double.geInt a {| Double.mant := mx; Double.expo := ex |}.
Proof.
  intros Hm He Ha. unfold Double.geInt. cbn [Double.mant Double.expo].
  assert (HT : 1 <= 2 ^ (- ex)).
  { assert (0 < 2 ^ (- ex)) by (apply Z.pow_pos_nonneg; lia). lia. }
  change (2 ^ 52) with 4503599627370496 in *.
  change (2 ^ 53) with 9007199254740992 in *.
  destruct a as [|q|q]; [cbn in Ha; lia | |].
  - assert (Hgeq : (if 0 <=? ex then mx * 2 ^ ex <=? Zpos q
                    else mx <=? Zpos q * 2 ^ (- ex)) = true).
    { destruct (Z.leb_spec 0 ex).
      - assert (ex = 0) by lia. subst ex. rewrite Z.pow_0_r, Z.mul_1_r.
        apply Z.leb_le. cbn in Ha. lia.
      - apply Z.leb_le. cbn in Ha. nia. }
    rewrite Hgeq. unfold SFofInt, binary_normalize.
    destruct (binary_round_big false q ltac:(cbn in Ha; change (2 ^ 53) with 9007199254740992; lia))
      as [-> | (m & e & -> & Hpos)]; [reflexivity|].
    unfold SFleb, SFcompare.
    destruct (Z.compare_spec ex e); first [reflexivity | lia].
  - assert (Hgeq : (if 0 <=? ex then mx * 2 ^ ex <=? Zneg q
                    else mx <=? Zneg q * 2 ^ (- ex)) = false).
    { destruct (Z.leb_spec 0 ex).
      - assert (ex = 0) by lia. subst ex. rewrite Z.pow_0_r, Z.mul_1_r.
        apply Z.leb_gt. lia.
      - apply Z.leb_gt. nia. }
    rewrite Hgeq. unfold SFofInt, binary_normalize.
    destruct (binary_round_big true q ltac:(cbn in Ha; change (2 ^ 53) with 9007199254740992; lia))
      as [-> | (m & e & -> & Hpos)]; reflexivity.
Qed.

(** A positive binary64 number below 2^53 against the binary64 number of
    any integer. *)
Lemma SFleb_any mx ex a :
  2 ^ 52 <= mx < 2 ^ 53 -> -1074 <= ex <= 0 ->
  SFleb (S754_finite false (Z.to_pos mx) ex) (SFofInt a)
  = Double.geInt a {| Double.mant := mx; Double.expo := ex |}.
Proof.
  intros Hm He.
  destruct (Z.lt_ge_cases (Z.abs a) (2 ^ 53)) as [H|H].
  - apply SFleb_int; [exact Hm | lia | lia].
  - apply SFleb_big; assumption.
Qed.

(** The two ways of writing a product that was rounded up to 2^53 compare
    the same. *)
Lemma geInt_carry a e :
  Double.geInt a {| Double.mant := 2 ^ 53; Double.expo := e |}
  = Double.geInt a {| Double.mant := 2 ^ 52; Double.expo := e + 1 |}.
Proof.
  unfold Double.geInt. cbn [Double.mant Double.expo].
  change (2 ^ 52) with 4503599627370496.
  change (2 ^ 53) with 9007199254740992.
  destruct (Z.leb_spec 0 e) as [H0|H0], (Z.leb_spec 0 (e + 1)) as [H1|H1]; try lia.
  - rewrite Z.pow_add_r by lia. f_equal. ring.
  - assert (E1 : e = -1) by lia. subst e.
    change (2 ^ (-1 + 1)) with 1. change (2 ^ (- (-1))) with 2.
    destruct (Z.leb_spec 9007199254740992 (a * 2)),
             (Z.leb_spec (4503599627370496 * 1) a); try reflexivity; lia.
  - replace (- e) with (Z.succ (- (e + 1))) by lia.
    rewrite Z.pow_succ_r by lia.
    assert (0 < 2 ^ (- (e + 1))) by (apply Z.pow_pos_nonneg; lia).
    destruct (Z.leb_spec 9007199254740992 (a * (2 * 2 ^ (- (e + 1))))),
             (Z.leb_spec 4503599627370496 (a * 2 ^ (- (e + 1))));
      try reflexivity; lia.
Qed.

(** The model of [amount >= price * 0.9] is the IEEE 754 comparison of the
    product with the binary64 number of the amount, for every integer
    price below 2^53 and every integer amount. *)
Theorem geInt_is_SFleb a p :
  0 < p < 2 ^ 53 ->
  Double.geInt a (Double.mul09 p) = SFleb (SFmul09 p) (SFofInt a).
Proof.
  intros Hp. destruct (SFmul09_form p Hp) as (s & Hs & -> & Hr & ->).
  pose proof (mul09_no_carry_at_53 p Hp) as Hc.
  set (m := Double.roundNearestEven (p * Double.nine_tenths) s) in *.
  destruct (Z.eqb_spec m (2 ^ 53)) as [E|N].
  - assert (s <> 53) by (intros ->; contradiction).
    rewrite E, geInt_carry. symmetry.
    apply SFleb_any; [split; [discriminate | reflexivity] | lia].
  - symmetry. apply SFleb_any; lia.
Qed.

(** ** Dispatch *)

Lemma startsWith_negotiate msg :
  Js.startsWith msg "negotiate" = true ->
  String.eqb msg "start" = false /\ String.eqb msg "recommend" = false
  /\ isCategory msg = false /\ String.eqb msg "browse" = false
  /\ Js.startsWith msg "view" = false /\ Js.digitsOnly msg = false.
Proof.
  intros H. apply prefix_String in H as (r & -> & _). repeat split.
Qed.

Lemma startsWith_offer msg :
  Js.startsWith msg "offer" = true -> earlierCase msg = false.
Proof.
  intros H. apply prefix_String in H as (r & -> & _). reflexivity.
Qed.

Lemma handle_negotiate req f :
  Js.startsWith (incomingMsg req) "negotiate" = true ->
  handle req f
  = negotiateCase (incomingMsg req) (From req) (fst <$> findUser (From req) f) (loaded f).
Proof.
  intros H. destruct (startsWith_negotiate _ H) as (H1 & H2 & H3 & H4 & H5 & H6).
  unfold handle, whatsapp, bind, readData. cbn [file data twiml].
  rewrite H1, H2, H3, H4, H5, H6, H. reflexivity.
Qed.

Lemma handle_later req f :
  earlierCase (incomingMsg req) = false ->
  handle req f
  = match collectingName (findUser (From req) f) with
    | Some i => nameCase (incomingMsg req) i (loaded f)
    | None =>
        if Js.startsWith (incomingMsg req) "offer"
        then offerCase (incomingMsg req) (From req) (loaded f)
        else message Help (loaded f)
    end.
Proof.
  unfold earlierCase. intros H.
  repeat (apply orb_false_elim in H as [H ?]).
  unfold handle, whatsapp, bind, readData. cbn [file data twiml].
  repeat match goal with E : _ = false |- _ => rewrite E; clear E end.
  cbn [orb]. destruct (collectingName _); [reflexivity|].
  destruct (Js.startsWith _ "offer"); reflexivity.
Qed.

(** ** Sessions *)

Lemma findUser_Some userNumber d i u :
  findUser userNumber d = Some (i, u) ->
  users d !! i = Some u /\ User.phone u = userNumber.
Proof.
  unfold findUser. intros H. apply list_find_Some in H as (H1 & H2 & _). auto.
Qed.

Lemma findUser_withUser userNumber d i u u' :
  findUser userNumber d = Some (i, u) ->
  User.phone u' = userNumber ->
  findUser userNumber (withUser i u' d) = Some (i, u').
Proof.
  unfold findUser, withUser. cbn [users]. intros H Hp.
  apply list_find_Some in H as (H1 & H2 & H3).
  apply list_find_Some. split; [|split].
  - apply list_lookup_insert_eq. eapply lookup_lt_Some, H1.
  - exact Hp.
  - intros j y Hj Hlt. rewrite list_lookup_insert_ne in Hj by lia. eauto.
Qed.

Lemma findUser_push userNumber d u' :
  findUser userNumber d = None ->
  User.phone u' = userNumber ->
  list_find (fun u => User.phone u = userNumber) (users d ++ [u'])
  = Some (length (users d), u').
Proof.
  unfold findUser. intros H Hp.
  rewrite list_find_app_r by exact H. cbn.
  destruct (decide (User.phone u' = userNumber)); [|contradiction].
  cbn. reflexivity.
Qed.

Lemma findTractor_NaN d : findTractor None d = None.
Proof.
  unfold findTractor.
  destruct (list_find _ _) as [[i t]|] eqn:E; [|reflexivity].
  apply list_find_Some in E as (_ & E & _). discriminate.
Qed.

Lemma stageOf_Some userNumber d st :
  stageOf userNumber d = Some st ->
  exists i u n,
    findUser userNumber d = Some (i, u)
    /\ User.currentNegotiation u = Some n /\ Negotiation.stage n = st.
Proof.
  unfold stageOf, negotiationOf, session.
  destruct (findUser userNumber d) as [[i u]|]; [|discriminate]. cbn.
  destruct (User.currentNegotiation u) as [n|] eqn:En; [|discriminate]. cbn.
  intros [= <-]. exists i, u, n. auto.
Qed.

Lemma collectingName_Some userNumber d i u n :
  findUser userNumber d = Some (i, u) ->
  User.currentNegotiation u = Some n ->
  collectingName (findUser userNumber d)
  = match Negotiation.stage n with
    | name_collection => Some i
    | offer_collection => None
    end.
Proof.
  intros -> Hn. unfold collectingName. rewrite Hn. destruct n as [tid []]; reflexivity.
Qed.

(** ** The negotiate case *)

Lemma negotiateCase_found msg userNumber f nid t :
  amountOf msg = Some (Js.Int nid) ->
  findTractor (Some (Js.Int nid)) f = Some t ->
  let f' := withNegotiation userNumber
              {| Negotiation.tractorId := nid; Negotiation.stage := name_collection |} f in
  negotiateCase msg userNumber (fst <$> findUser userNumber f) (loaded f)
  = Returned tt {| file := f'; data := f'; twiml := [Negotiating (Tractor.name t)] |}.
Proof.
  unfold amountOf. intros Ha Ht. cbv zeta.
  unfold negotiateCase, bind, getData, loaded, withNegotiation. cbn [data].
  rewrite Ha, Ht.
  destruct (findUser userNumber f) as [[i u]|] eqn:E; cbn [fmap option_fmap option_map fst].
  - apply findUser_Some in E as [E _].
    unfold ret, updateUser, setUsers, message, writeData. cbn. rewrite E. reflexivity.
  - unfold pushUser, bind, getData, ret, updateUser, setUsers, message, writeData. cbn.
    rewrite lookup_app_r, Nat.sub_diag by lia. cbn.
    rewrite insert_app_r_alt, Nat.sub_diag by lia. reflexivity.
Qed.

Lemma negotiateCase_missing msg userNumber user f :
  findTractor (amountOf msg) f = None ->
  negotiateCase msg userNumber user (loaded f)
  = Returned tt {| file := f; data := f; twiml := [TractorNotFound] |}.
Proof.
  unfold amountOf. intros Ht.
  unfold negotiateCase, bind, getData, loaded. cbn [data].
  destruct (Js.parseIntArg _) as [[nid|negative]|]; rewrite ?Ht; reflexivity.
Qed.

Lemma negotiationOf_withNegotiation userNumber n f :
  negotiationOf userNumber (withNegotiation userNumber n f) = Some n.
Proof.
  unfold negotiationOf, session, withNegotiation.
  destruct (findUser userNumber f) as [[i u]|] eqn:E.
  - pose proof (findUser_Some _ _ _ _ E) as [_ Hp].
    pose proof (findUser_withUser userNumber f i u
                  (set_currentNegotiation (Some n) u) E Hp) as H.
    unfold withUser in H. rewrite H. reflexivity.
  - unfold findUser at 1. cbn [users].
    rewrite (findUser_push userNumber f
               {| User.phone := userNumber; User.name := None;
                  User.currentNegotiation := Some n |} E eq_refl).
    reflexivity.
Qed.

(** ** The name-collection case *)

Lemma nameCase_valid msg f i u :
  users f !! i = Some u ->
  isValidName msg = true ->
  let f' := withUser i (set_stage offer_collection (set_name (Js.trim msg) u)) f in
  nameCase msg i (loaded f)
  = Returned tt {| file := f'; data := f'; twiml := [Hello (Some (Js.trim msg))] |}.
Proof.
  intros Hu Hv. cbv zeta. unfold nameCase. rewrite Hv.
  unfold bind, updateUser, setUsers, getData, message, writeData, loaded, withUser.
  cbn [file data twiml users tractors]. rewrite Hu.
  rewrite list_lookup_insert_eq by (eapply lookup_lt_Some, Hu).
  rewrite list_insert_insert_eq.
  rewrite list_lookup_insert_eq by (eapply lookup_lt_Some, Hu).
  reflexivity.
Qed.

Lemma nameCase_invalid msg f i :
  isValidName msg = false ->
  nameCase msg i (loaded f)
  = Returned tt {| file := f; data := f; twiml := [InvalidName] |}.
Proof.
  intros Hv. unfold nameCase. rewrite Hv. reflexivity.
Qed.

(** ** The offer case *)

Lemma offerCase_idle msg userNumber f :
  negotiationOf userNumber f = None ->
  offerCase msg userNumber (loaded f)
  = Returned tt {| file := f; data := f; twiml := [NoActiveNegotiation] |}.
Proof.
  unfold negotiationOf, session, offerCase, bind, getData, loaded. cbn [data].
  destruct (findUser userNumber f) as [[i u]|]; [|reflexivity]. cbn.
  intros ->. reflexivity.
Qed.

Lemma offerCase_NaN msg userNumber f i u tid :
  findUser userNumber f = Some (i, u) ->
  User.currentNegotiation u
  = Some {| Negotiation.tractorId := tid; Negotiation.stage := offer_collection |} ->
  amountOf msg = None ->
  offerCase msg userNumber (loaded f)
  = Returned tt {| file := f; data := f; twiml := [InvalidOffer] |}.
Proof.
  unfold amountOf. intros Hu Hn Ha.
  unfold offerCase, bind, getData, loaded. cbn [data].
  rewrite Hu, Hn, Ha. reflexivity.
Qed.

Lemma offerCase_amount msg userNumber f i u tid a t :
  findUser userNumber f = Some (i, u) ->
  User.currentNegotiation u
  = Some {| Negotiation.tractorId := tid; Negotiation.stage := offer_collection |} ->
  amountOf msg = Some a ->
  findTractor (Some (Js.Int tid)) f = Some t ->
  offerCase msg userNumber (loaded f)
  = if Double.ge a (Double.mul09 (Tractor.price t))
    then Returned tt
           {| file := f;
              data := withUser i (set_currentNegotiation None u) f;
              twiml := [DealAccepted (User.name u) (Tractor.name t) a] |}
    else Returned tt
           {| file := f; data := f;
              twiml := [OfferTooLow (Double.toFixed2 (Double.mul09 (Tractor.price t)))] |}.
Proof.
  unfold amountOf. intros Hu Hn Ha Ht.
  unfold offerCase, bind, getData, loaded. cbn [data].
  rewrite Hu, Hn, Ha, Ht.
  destruct (Double.ge _ _); [|reflexivity].
  apply findUser_Some in Hu as [Hu _].
  unfold message, updateUser, setUsers, withUser. cbn [file data twiml users tractors].
  rewrite Hu. reflexivity.
Qed.

(** When the tractor under negotiation is no longer in the catalogue,
    [offerTractor.price] throws; nothing was written. *)
Lemma offerCase_throws msg userNumber f i u tid a :
  findUser userNumber f = Some (i, u) ->
  User.currentNegotiation u
  = Some {| Negotiation.tractorId := tid; Negotiation.stage := offer_collection |} ->
  amountOf msg = Some a ->
  findTractor (Some (Js.Int tid)) f = None ->
  offerCase msg userNumber (loaded f) = Thrown (loaded f).
Proof.
  unfold amountOf. intros Hu Hn Ha Ht.
  unfold offerCase, bind, getData, loaded. cbn [data].
  rewrite Hu, Hn, Ha, Ht. reflexivity.
Qed.

(** A request in the offer case of a user who is collecting an offer. *)
Lemma handle_offer req f i u tid :
  Js.startsWith (incomingMsg req) "offer" = true ->
  findUser (From req) f = Some (i, u) ->
  User.currentNegotiation u
  = Some {| Negotiation.tractorId := tid; Negotiation.stage := offer_collection |} ->
  handle req f = offerCase (incomingMsg req) (From req) (loaded f).
Proof.
  intros Hs Hu Hn. rewrite handle_later by (apply startsWith_offer, Hs).
  rewrite (collectingName_Some _ _ _ _ _ Hu Hn). cbn. rewrite Hs. reflexivity.
Qed.

(** What the statements assume of a user who is collecting an offer on a
    tractor: unpacked. *)
Lemma offering_inv userNumber f t :
  stageOf userNumber f = Some offer_collection ->
  negotiatedTractor userNumber f = Some t ->
  exists i u tid,
    findUser userNumber f = Some (i, u)
    /\ User.currentNegotiation u
       = Some {| Negotiation.tractorId := tid; Negotiation.stage := offer_collection |}
    /\ findTractor (Some (Js.Int tid)) f = Some t.
Proof.
  intros Hs Ht. apply stageOf_Some in Hs as (i & u & [tid st] & Hu & Hn & Hst).
  cbn in Hst. subst st.
  unfold negotiatedTractor, negotiationOf, session in Ht.
  rewrite Hu in Ht. cbn in Ht. rewrite Hn in Ht. cbn in Ht.
  exists i, u, tid. auto.
Qed.

Lemma findTractor_id x f t :
  findTractor x f = Some t -> x = Some (Js.Int (Tractor.id t)).
Proof.
  unfold findTractor. destruct (list_find _ _) as [[i t']|] eqn:E; [|discriminate].
  cbn. intros [= <-]. apply list_find_Some in E as (_ & E & _). auto.
Qed.

Lemma result_parts req f w :
  handle req f = Returned tt w ->
  replies req f = twiml w /\ persisted req f = file w /\ inMemory req f = data w.
Proof. unfold replies, persisted, inMemory. intros ->. auto. Qed.

(** * The claims *)

(** ** Negotiate *)

(** C9.  A message starting with "negotiate" whose second word parses to
    the id of a tractor in the catalogue puts a negotiation on that tractor,
    in stage name_collection, on the user's session, creating the session
    when the user has none; the collection is written to the file.  When
    the id does not resolve the reply is the tractor-not-found one and
    neither the file nor the object in memory changes. *)
Theorem negotiate_enters_name_collection req f :
  Js.startsWith (incomingMsg req) "negotiate" = true ->
  (forall t, findTractor (amountOf (incomingMsg req)) f = Some t ->
     let n := {| Negotiation.tractorId := Tractor.id t;
                 Negotiation.stage := name_collection |} in
     replies req f = [Negotiating (Tractor.name t)]
     /\ persisted req f = withNegotiation (From req) n f
     /\ inMemory req f = persisted req f
     /\ negotiationOf (From req) (persisted req f) = Some n
     /\ (session (From req) f = None ->
         users (persisted req f)
         = (users f ++ [ {| User.phone := From req; User.name := None;
                            User.currentNegotiation := Some n |} ])%list))
  /\ (findTractor (amountOf (incomingMsg req)) f = None ->
      replies req f = [TractorNotFound]
      /\ persisted req f = f /\ inMemory req f = f).
Proof.
  intros Hs. split.
  - intros t Ht n.
    pose proof (findTractor_id _ _ _ Ht) as Ha. rewrite Ha in Ht.
    pose proof (negotiateCase_found _ (From req) f _ t Ha Ht) as H. cbv zeta in H.
    rewrite <- handle_negotiate in H by exact Hs.
    apply result_parts in H as (-> & -> & ->). cbn [twiml file data].
    fold n. split; [reflexivity|]. split; [reflexivity|]. split; [reflexivity|].
    split; [apply negotiationOf_withNegotiation|].
    unfold session, withNegotiation. cbn [users].
    destruct (findUser (From req) f); [discriminate | reflexivity].
  - intros Ht.
    pose proof (negotiateCase_missing _ (From req) (fst <$> findUser (From req) f) f Ht) as H.
    rewrite <- handle_negotiate in H by exact Hs.
    apply result_parts in H as (-> & -> & ->). auto.
Qed.

Lemma negotiate_enters_name_collection_witness :
  replies (Sample.says "Negotiate 2") Sample.fresh = [Negotiating "Field Master"]
  /\ persisted (Sample.says "Negotiate 2") Sample.fresh = Sample.naming
  /\ replies (Sample.says "negotiate 7") Sample.naming = [TractorNotFound]
  /\ persisted (Sample.says "negotiate 7") Sample.naming = Sample.naming
  /\ replies (Sample.says "negotiate 9007199254740993") Sample.numbered
     = [Negotiating "Long Hauler"]
  /\ negotiationOf Sample.jane
       (persisted (Sample.says "negotiate 9007199254740993") Sample.numbered)
     = Some {| Negotiation.tractorId := 9007199254740992;
               Negotiation.stage := name_collection |}.
Proof.
  destruct (negotiate_enters_name_collection (Sample.says "Negotiate 2") Sample.fresh
              eq_refl) as [H _].
  destruct (H _ eq_refl) as (H1 & H2 & _).
  destruct (negotiate_enters_name_collection (Sample.says "negotiate 7") Sample.naming
              eq_refl) as [_ H'].
  destruct (H' eq_refl) as (H3 & H4 & _).
  destruct (negotiate_enters_name_collection
              (Sample.says "negotiate 9007199254740993") Sample.numbered eq_refl)
    as [H'' _].
  destruct (H'' _ eq_refl) as (H5 & _ & _ & H6 & _).
  split; [exact H1|]. split; [exact H2|]. split; [exact H3|]. split; [exact H4|].
  split; [exact H5 | exact H6].
Defined.

(** ** Offers *)

(** The outcome of an offer with a numeric amount, for a user who is
    collecting an offer on a tractor of the catalogue. *)
Lemma offer_outcome req f t a :
  stageOf (From req) f = Some offer_collection ->
  negotiatedTractor (From req) f = Some t ->
  priceInRange (Tractor.price t) ->
  Js.startsWith (incomingMsg req) "offer" = true ->
  amountOf (incomingMsg req) = Some (Js.Int a) ->
  exists i u tid,
    findUser (From req) f = Some (i, u)
    /\ User.currentNegotiation u
       = Some {| Negotiation.tractorId := tid; Negotiation.stage := offer_collection |}
    /\ handle req f
       = if 9 * Tractor.price t <=? 10 * a
         then Returned tt
                {| file := f;
                   data := withUser i (set_currentNegotiation None u) f;
                   twiml := [DealAccepted (User.name u) (Tractor.name t) a] |}
         else Returned tt
                {| file := f; data := f;
                   twiml := [OfferTooLow (nineTenthsText (Tractor.price t))] |}.
Proof.
  intros Hst Ht Hp Hs Ha.
  destruct (offering_inv _ _ _ Hst Ht) as (i & u & tid & Hu & Hn & Hf).
  exists i, u, tid. split; [exact Hu|]. split; [exact Hn|].
  rewrite (handle_offer req f i u tid Hs Hu Hn).
  rewrite (offerCase_amount _ _ _ _ _ _ _ _ Hu Hn Ha Hf). cbn [Double.ge].
  rewrite geInt_mul09, toFixed2_mul09 by exact Hp. reflexivity.
Qed.

Lemma nameOf_findUser userNumber f i u :
  findUser userNumber f = Some (i, u) -> nameOf userNumber f = User.name u.
Proof. unfold nameOf, session. intros ->. reflexivity. Qed.

Lemma negotiationOf_findUser userNumber f i u :
  findUser userNumber f = Some (i, u) ->
  negotiationOf userNumber f = User.currentNegotiation u.
Proof. unfold negotiationOf, session. intros ->. reflexivity. Qed.

(** An offer below nine tenths of the price: the rejection, and nothing
    changes. *)
Lemma rejected_offer req f t a :
  stageOf (From req) f = Some offer_collection ->
  negotiatedTractor (From req) f = Some t ->
  priceInRange (Tractor.price t) ->
  Js.startsWith (incomingMsg req) "offer" = true ->
  amountOf (incomingMsg req) = Some (Js.Int a) ->
  10 * a < 9 * Tractor.price t ->
  replies req f = [OfferTooLow (nineTenthsText (Tractor.price t))]
  /\ persisted req f = f /\ inMemory req f = f.
Proof.
  intros Hst Ht Hp Hs Ha Hlow.
  destruct (offer_outcome req f t a Hst Ht Hp Hs Ha) as (i & u & tid & Hu & Hn & H).
  destruct (Z.leb_spec (9 * Tractor.price t) (10 * a)); [lia|].
  apply result_parts in H as (Hr & Hf & Hm). auto.
Qed.

(** An amount that is at least nine tenths of the price, infinite or not:
    the acceptance reply; the negotiation is set to [null] in memory and
    the file is as it was. *)
Lemma accepted_amount req f t a :
  stageOf (From req) f = Some offer_collection ->
  negotiatedTractor (From req) f = Some t ->
  priceInRange (Tractor.price t) ->
  Js.startsWith (incomingMsg req) "offer" = true ->
  amountOf (incomingMsg req) = Some a ->
  atLeastNineTenths a (Tractor.price t) ->
  replies req f = [DealAccepted (nameOf (From req) f) (Tractor.name t) a]
  /\ persisted req f = f
  /\ negotiationOf (From req) (inMemory req f) = None
  /\ negotiationOf (From req) f <> None.
Proof.
  intros Hst Ht Hp Hs Ha Hok.
  destruct (offering_inv _ _ _ Hst Ht) as (i & u & tid & Hu & Hn & Hf).
  pose proof (handle_offer req f i u tid Hs Hu Hn) as H.
  rewrite (offerCase_amount _ _ _ _ _ _ _ _ Hu Hn Ha Hf) in H.
  assert (Hge : Double.ge a (Double.mul09 (Tractor.price t)) = true).
  { destruct a as [z|negative]; cbn [Double.ge atLeastNineTenths] in *.
    - rewrite (geInt_mul09 z _ Hp). apply Z.leb_le, Hok.
    - rewrite Hok. reflexivity. }
  rewrite Hge in H.
  apply result_parts in H as (Hr & Hf' & Hm). cbn [twiml file data] in *.
  rewrite Hr, Hf', Hm, (nameOf_findUser _ _ _ _ Hu).
  pose proof (findUser_Some _ _ _ _ Hu) as [Hl Hph].
  repeat split.
  - rewrite (negotiationOf_findUser _ _ i (set_currentNegotiation None u)); [reflexivity|].
    apply (findUser_withUser _ _ _ u); [exact Hu | exact Hph].
  - rewrite (negotiationOf_findUser _ _ _ _ Hu), Hn. discriminate.
Qed.

(** An offer of at least nine tenths of the price: the acceptance reply;
    the negotiation is set to [null] in memory and the file is as it was. *)
Lemma accepted_offer req f t a :
  stageOf (From req) f = Some offer_collection ->
  negotiatedTractor (From req) f = Some t ->
  priceInRange (Tractor.price t) ->
  Js.startsWith (incomingMsg req) "offer" = true ->
  amountOf (incomingMsg req) = Some (Js.Int a) ->
  9 * Tractor.price t <= 10 * a ->
  replies req f = [DealAccepted (nameOf (From req) f) (Tractor.name t) a]
  /\ persisted req f = f
  /\ negotiationOf (From req) (inMemory req f) = None
  /\ negotiationOf (From req) f <> None.
Proof.
  intros Hst Ht Hp Hs Ha Hok.
  destruct (offer_outcome req f t a Hst Ht Hp Hs Ha) as (i & u & tid & Hu & Hn & H).
  destruct (Z.leb_spec (9 * Tractor.price t) (10 * a)); [|lia].
  apply result_parts in H as (Hr & Hf & Hm). cbn [twiml file data] in *.
  rewrite Hr, Hf, Hm, (nameOf_findUser _ _ _ _ Hu).
  pose proof (findUser_Some _ _ _ _ Hu) as [Hl Hph].
  repeat split.
  - rewrite (negotiationOf_findUser _ _ i (set_currentNegotiation None u)); [reflexivity|].
    apply (findUser_withUser _ _ _ u); [exact Hu | exact Hph].
  - rewrite (negotiationOf_findUser _ _ _ _ Hu), Hn. discriminate.
Qed.




(** Every path of the handler but one leaves the file equal to the
    collection in memory: the accepted offer. *)
Lemma written_unless_accepted req f :
  inMemory req f = persisted req f
  \/ exists n t a, replies req f = [DealAccepted n t a].
Proof.
  unfold inMemory, persisted, replies, handle, whatsapp, bind, readData.
  cbn [file data twiml].
  repeat match goal with
         | |- context [if ?b then _ else _] => destruct b
         end; try (left; reflexivity).
  - unfold viewCase, bind, getData, message. cbn [file data twiml].
    destruct (findTractor _ _); left; reflexivity.
  - unfold negotiateCase, bind, getData. cbn [file data twiml].
    destruct (Js.parseIntArg _) as [[nid|negative]|]; try (left; reflexivity).
    destruct (findTractor _ _); [|left; reflexivity].
    destruct (fst <$> findUser (From req) f); left; reflexivity.
  - destruct (collectingName _).
    + unfold nameCase. destruct (isValidName _); left; reflexivity.
    + unfold offerCase, bind, getData. cbn [file data twiml].
      destruct (findUser _ _) as [[i u]|]; [|left; reflexivity].
      destruct (User.currentNegotiation u) as [[tid []]|]; try (left; reflexivity).
      destruct (Js.parseIntArg _); [|left; reflexivity].
      destruct (findTractor _ _); [|left; reflexivity].
      destruct (Double.ge _ _); [|left; reflexivity].
      right. eauto.
  - destruct (collectingName _); [|left; reflexivity].
    unfold nameCase. destruct (isValidName _); left; reflexivity.
Qed.

(** The conversation of a new user: negotiate, name, a low offer, a good
    offer.  The file at the end still has the negotiation. *)
Example conversation :
  run [ Sample.says "negotiate 2"; Sample.says "Jane Doe";
        Sample.says "offer 8000"; Sample.says "offer 9500" ] Sample.fresh
  = ([ [Negotiating "Field Master"]; [Hello (Some "jane doe")];
       [OfferTooLow "9000.00"];
       [DealAccepted (Some "jane doe") "Field Master" 9500] ],
     Sample.offering).
Proof. reflexivity. Qed.

(** The amount of an offer is the Number that [parseInt] returns: an
    integer that is not a binary64 number is replaced by the nearest one,
    and a run of 310 digits is an infinity, which is at least any price. *)
Example offer_amount_is_a_Number :
  replies (Sample.says "offer 9007199254740993") Sample.offering
  = [DealAccepted (Some "jane doe") "Field Master" 9007199254740992]
  /\ replies (Sample.says
                ("offer 1" +:+ string_of_list_ascii (repeat "0"%char 309)))
             Sample.offering
     = [DealAccepted (Some "jane doe") "Field Master" (Js.Infinity false)].
Proof. split; vm_compute; reflexivity. Qed.

(** C1.  What the code does on an accepted offer: the acceptance reply is
    produced and the session held in memory loses its negotiation, but
    [writeData] is not called; the file still has the negotiation in stage
    offer_collection. *)
Theorem offer_accepted_not_persisted req f t a :
  stageOf (From req) f = Some offer_collection ->
  negotiatedTractor (From req) f = Some t ->
  priceInRange (Tractor.price t) ->
  Js.startsWith (incomingMsg req) "offer" = true ->
  amountOf (incomingMsg req) = Some (Js.Int a) ->
  9 * Tractor.price t <= 10 * a ->
  replies req f = [DealAccepted (nameOf (From req) f) (Tractor.name t) a]
  /\ persisted req f = f
  /\ negotiationOf (From req) (persisted req f) <> None
  /\ stageOf (From req) (persisted req f) = Some offer_collection.
Proof.
  intros Hst Ht Hp Hs Ha Hok.
  destruct (accepted_offer req f t a Hst Ht Hp Hs Ha Hok) as (Hr & Hf & _ & Hn).
  rewrite Hr, Hf. auto.
Qed.

Lemma offer_accepted_not_persisted_witness :
  replies (Sample.says "offer 9500") Sample.offering
  = [DealAccepted (Some "jane doe") "Field Master" 9500]
  /\ negotiationOf Sample.jane (persisted (Sample.says "offer 9500") Sample.offering)
     = Some {| Negotiation.tractorId := 2; Negotiation.stage := offer_collection |}.
Proof.
  assert (Hp : priceInRange 10000) by (split; reflexivity).
  destruct (offer_accepted_not_persisted (Sample.says "offer 9500") Sample.offering
              _ 9500 eq_refl eq_refl Hp eq_refl eq_refl ltac:(discriminate))
    as (H1 & H2 & _).
  split; [exact H1|]. rewrite H2. reflexivity.
Defined.

(** C2.  On an accepted offer the collection in memory and the collection
    in the file differ when the request ends: the user's record has no
    negotiation in memory and still has one in the file.  The amount is any
    Number that [parseInt] returns: an integer of at least nine tenths of
    the price, or the positive infinity. *)
Theorem offer_accepted_memory_differs_from_file req f t a :
  stageOf (From req) f = Some offer_collection ->
  negotiatedTractor (From req) f = Some t ->
  priceInRange (Tractor.price t) ->
  Js.startsWith (incomingMsg req) "offer" = true ->
  amountOf (incomingMsg req) = Some a ->
  atLeastNineTenths a (Tractor.price t) ->
  negotiationOf (From req) (inMemory req f) = None
  /\ negotiationOf (From req) (persisted req f) <> None
  /\ inMemory req f <> persisted req f.
Proof.
  intros Hst Ht Hp Hs Ha Hok.
  destruct (accepted_amount req f t a Hst Ht Hp Hs Ha Hok) as (_ & Hf & Hm & Hn).
  rewrite Hf. split; [exact Hm|]. split; [exact Hn|].
  intros E. rewrite E in Hm. contradiction.
Qed.

Lemma offer_accepted_memory_differs_from_file_witness :
  inMemory (Sample.says "offer 9500") Sample.offering = Sample.idle
  /\ persisted (Sample.says "offer 9500") Sample.offering = Sample.offering
  /\ inMemory (Sample.says "offer 9500") Sample.offering
     <> persisted (Sample.says "offer 9500") Sample.offering.
Proof.
  assert (Hp : priceInRange 10000) by (split; reflexivity).
  destruct (offer_accepted_memory_differs_from_file (Sample.says "offer 9500")
              Sample.offering _ (Js.Int 9500) eq_refl eq_refl Hp eq_refl eq_refl
              ltac:(cbn; discriminate))
    as (_ & _ & H).
  split; [reflexivity|]. split; [reflexivity | exact H].
Defined.

(** C5, counterexample.  On the tractor of price 15 the floor of nine tenths
    of the price is 13; the offer of 13 is rejected. *)
Lemma floor_offer_rejected :
  stageOf Sample.jane Sample.offering15 = Some offer_collection
  /\ (Tractor.price <$> negotiatedTractor Sample.jane Sample.offering15) = Some 15
  /\ amountOf (incomingMsg (Sample.says "offer 13")) = Some (Js.Int (9 * 15 / 10))
  /\ replies (Sample.says "offer 13") Sample.offering15 = [OfferTooLow "13.50"]
  /\ persisted (Sample.says "offer 13") Sample.offering15 = Sample.offering15
  /\ inMemory (Sample.says "offer 13") Sample.offering15 = Sample.offering15.
Proof. repeat split. Qed.

(** C5, amended.  On a tractor whose price is an integer between 0 and
    2^45, an offer with an integer amount is answered by the acceptance
    reply exactly when the amount is at least nine tenths of the price,
    that is at least the ceiling of nine tenths of the price; otherwise by
    the rejection.  The floor of nine tenths of the price is accepted only
    for a price that is a multiple of 10. *)
Theorem offer_accepted_iff_nine_tenths req f t a :
  stageOf (From req) f = Some offer_collection ->
  negotiatedTractor (From req) f = Some t ->
  priceInRange (Tractor.price t) ->
  Js.startsWith (incomingMsg req) "offer" = true ->
  amountOf (incomingMsg req) = Some (Js.Int a) ->
  let accepted :=
    replies req f = [DealAccepted (nameOf (From req) f) (Tractor.name t) a] in
  let rejected :=
    replies req f = [OfferTooLow (nineTenthsText (Tractor.price t))] in
  (accepted <-> 9 * Tractor.price t <= 10 * a)
  /\ (accepted <-> (9 * Tractor.price t + 9) / 10 <= a)
  /\ (rejected <-> 10 * a < 9 * Tractor.price t)
  /\ (a = 9 * Tractor.price t / 10 -> (accepted <-> Tractor.price t mod 10 = 0)).
Proof.
  intros Hst Ht Hp Hs Ha accepted rejected. subst accepted rejected.
  destruct (offer_outcome req f t a Hst Ht Hp Hs Ha) as (i & u & tid & Hu & Hn & H).
  rewrite (nameOf_findUser _ _ _ _ Hu).
  set (p := Tractor.price t) in *.
  destruct (Z.leb_spec (9 * p) (10 * a)) as [Hle|Hlt];
    apply result_parts in H as (-> & _ & _); cbn [twiml].
  - repeat split; intros; try reflexivity; try discriminate; try lia;
      Z.div_mod_to_equations; lia.
  - repeat split; intros; try reflexivity; try discriminate; try lia;
      Z.div_mod_to_equations; lia.
Qed.

Lemma offer_accepted_iff_nine_tenths_witness :
  replies (Sample.says "offer 14") Sample.offering15
  = [DealAccepted (Some "jane doe") "Compact 15" 14]
  /\ replies (Sample.says "offer 9000") Sample.offering
     = [DealAccepted (Some "jane doe") "Field Master" 9000].
Proof.
  assert (Hp : priceInRange 15) by (split; reflexivity).
  assert (Hq : priceInRange 10000) by (split; reflexivity).
  destruct (offer_accepted_iff_nine_tenths (Sample.says "offer 14") Sample.offering15
              _ 14 eq_refl eq_refl Hp eq_refl eq_refl) as ([_ H1] & _).
  destruct (offer_accepted_iff_nine_tenths (Sample.says "offer 9000") Sample.offering
              _ 9000 eq_refl eq_refl Hq eq_refl eq_refl) as (_ & _ & _ & H2).
  split.
  - apply H1. discriminate.
  - apply (H2 eq_refl). reflexivity.
Defined.

(** C6.  What the code does on the two sides of the threshold.  An amount
    of at least the ceiling of nine tenths of the price gets the acceptance
    reply and the session in memory loses its negotiation, but the file is
    not written: the negotiation is still there for the next request, and
    the same offer is accepted again.  An amount of at most the floor minus
    one gets the rejection, and the stage stays offer_collection. *)
Theorem offer_thresholds req f t a :
  stageOf (From req) f = Some offer_collection ->
  negotiatedTractor (From req) f = Some t ->
  priceInRange (Tractor.price t) ->
  Js.startsWith (incomingMsg req) "offer" = true ->
  amountOf (incomingMsg req) = Some (Js.Int a) ->
  ((9 * Tractor.price t + 9) / 10 <= a ->
     replies req f = [DealAccepted (nameOf (From req) f) (Tractor.name t) a]
     /\ negotiationOf (From req) (inMemory req f) = None
     /\ stageOf (From req) (persisted req f) = Some offer_collection
     /\ replies req (persisted req f) = replies req f)
  /\ (a <= 9 * Tractor.price t / 10 - 1 ->
      replies req f = [OfferTooLow (nineTenthsText (Tractor.price t))]
      /\ stageOf (From req) (persisted req f) = Some offer_collection
      /\ stageOf (From req) (inMemory req f) = Some offer_collection).
Proof.
  intros Hst Ht Hp Hs Ha. split; intros Hb.
  - assert (Hok : 9 * Tractor.price t <= 10 * a) by (Z.div_mod_to_equations; lia).
    destruct (accepted_offer req f t a Hst Ht Hp Hs Ha Hok) as (Hr & Hf & Hm & _).
    rewrite Hf, Hr. auto.
  - assert (Hlow : 10 * a < 9 * Tractor.price t) by (Z.div_mod_to_equations; lia).
    destruct (rejected_offer req f t a Hst Ht Hp Hs Ha Hlow) as (Hr & Hf & Hm).
    rewrite Hr, Hf, Hm. auto.
Qed.

Lemma offer_thresholds_witness :
  replies (Sample.says "offer 9000") Sample.offering
  = [DealAccepted (Some "jane doe") "Field Master" 9000]
  /\ stageOf Sample.jane (persisted (Sample.says "offer 9000") Sample.offering)
     = Some offer_collection
  /\ replies (Sample.says "offer 8999") Sample.offering = [OfferTooLow "9000.00"].
Proof.
  assert (Hp : priceInRange 10000) by (split; reflexivity).
  destruct (offer_thresholds (Sample.says "offer 9000") Sample.offering
              _ 9000 eq_refl eq_refl Hp eq_refl eq_refl) as [H _].
  destruct (H ltac:(discriminate)) as (H1 & _ & H2 & _).
  destruct (offer_thresholds (Sample.says "offer 8999") Sample.offering
              _ 8999 eq_refl eq_refl Hp eq_refl eq_refl) as [_ H'].
  destruct (H' ltac:(discriminate)) as (H3 & _).
  split; [exact H1|]. split; [exact H2 | exact H3].
Defined.

(** ** Name collection *)

Lemma nameChar_spec c : nameChar c = true <-> inNameClass c.
Proof.
  unfold nameChar, inNameClass, Js.isLetter, Js.isWhiteSpace. cbv zeta.
  rewrite !orb_true_iff, !andb_true_iff, !Z.leb_le, !Z.eqb_eq. lia.
Qed.

Lemma allNameChars_spec s :
  allNameChars s = true <-> Forall inNameClass (list_ascii_of_string s).
Proof.
  induction s as [|c r IH]; cbn [allNameChars list_ascii_of_string].
  - split; [constructor | reflexivity].
  - rewrite andb_true_iff, Forall_cons, nameChar_spec, IH. reflexivity.
Qed.

(** [isValidName] decides [wellFormedName]. *)
Lemma isValidName_spec msg : isValidName msg = true <-> wellFormedName msg.
Proof.
  unfold isValidName, wellFormedName, nameRegex_test.
  rewrite andb_true_iff, Z.leb_le, <- allNameChars_spec.
  destruct msg as [|c r]; [|split; intros []; split; auto; lia].
  cbn. split; [intros [? _]; discriminate | intros [_ ?]; lia].
Qed.

Lemma incomingMsg_Body req body :
  Body req = Some body -> incomingMsg req = Js.trim (Js.toLowerCase body).
Proof.
  unfold incomingMsg. intros ->. destruct body; reflexivity.
Qed.

Lemma stageOf_withUser userNumber f i u u' n :
  findUser userNumber f = Some (i, u) ->
  User.phone u' = User.phone u ->
  User.currentNegotiation u' = Some n ->
  stageOf userNumber (withUser i u' f) = Some (Negotiation.stage n)
  /\ nameOf userNumber (withUser i u' f) = User.name u'.
Proof.
  intros Hu Hp Hn. pose proof (findUser_Some _ _ _ _ Hu) as [_ Hph].
  assert (H : findUser userNumber (withUser i u' f) = Some (i, u'))
    by (apply (findUser_withUser _ _ _ u); congruence).
  unfold stageOf. rewrite (negotiationOf_findUser _ _ _ _ H), (nameOf_findUser _ _ _ _ H), Hn.
  auto.
Qed.

(** A text that reaches the name-collection case: a valid name is stored
    and the stage advances, with the collection written; an invalid one
    gets the invalid-name reply and nothing changes. *)
Lemma name_attempt req f :
  stageOf (From req) f = Some name_collection ->
  earlierCase (incomingMsg req) = false ->
  (isValidName (incomingMsg req) = true ->
     replies req f = [Hello (Some (Js.trim (incomingMsg req)))]
     /\ inMemory req f = persisted req f
     /\ nameOf (From req) (persisted req f) = Some (Js.trim (incomingMsg req))
     /\ stageOf (From req) (persisted req f) = Some offer_collection)
  /\ (isValidName (incomingMsg req) = false ->
      replies req f = [InvalidName] /\ persisted req f = f /\ inMemory req f = f).
Proof.
  intros Hst He.
  apply stageOf_Some in Hst as (i & u & [tid st] & Hu & Hn & Hs). cbn in Hs. subst st.
  pose proof (handle_later req f He) as H.
  rewrite (collectingName_Some _ _ _ _ _ Hu Hn) in H. cbn [Negotiation.stage] in H.
  pose proof (findUser_Some _ _ _ _ Hu) as [Hl _].
  split; intros Hv.
  - rewrite (nameCase_valid _ _ _ _ Hl Hv) in H.
    apply result_parts in H as (-> & -> & ->). cbn [twiml file data].
    split; [reflexivity|]. split; [reflexivity|].
    destruct (stageOf_withUser (From req) f i u
                (set_stage offer_collection (set_name (Js.trim (incomingMsg req)) u))
                {| Negotiation.tractorId := tid; Negotiation.stage := offer_collection |}
                Hu eq_refl) as [H1 H2].
    { cbn. rewrite Hn. reflexivity. }
    rewrite H1, H2. split; reflexivity.
  - rewrite (nameCase_invalid _ _ _ Hv) in H.
    apply result_parts in H as (-> & -> & ->). auto.
Qed.

(** Invalid names can be sent any number of times: each gets the
    invalid-name reply and the file stays as it was. *)
Lemma invalid_names_retry userNumber f retries :
  stageOf userNumber f = Some name_collection ->
  Forall (fun r => From r = userNumber /\ earlierCase (incomingMsg r) = false
                   /\ ~ wellFormedName (incomingMsg r)) retries ->
  run retries f = ((fun _ => [InvalidName]) <$> retries, f).
Proof.
  intros Hst. induction 1 as [|r rs (Hf & He & Hw) _ IH]; [reflexivity|].
  subst userNumber.
  destruct (name_attempt r f Hst He) as [_ H].
  destruct H as (Hr & Hp & _).
  { destruct (isValidName (incomingMsg r)) eqn:E; [|reflexivity].
    apply isValidName_spec in E. contradiction. }
  cbn [run]. rewrite Hp, IH, Hr. reflexivity.
Qed.

Lemma handle_browse req f :
  incomingMsg req = "browse" ->
  handle req f
  = Returned tt {| file := f; data := f; twiml := [BrowseList (tractors f)] |}.
Proof.
  intros E. unfold handle, whatsapp. rewrite E. reflexivity.
Qed.

(** C3, counterexample.  A user who is collecting the name sends "browse":
    the reply is the browse listing, not the invalid-name reply. *)
Lemma browse_during_name_collection :
  stageOf Sample.jane Sample.naming = Some name_collection
  /\ replies (Sample.says "browse") Sample.naming = [BrowseList Sample.catalog]
  /\ replies (Sample.says "browse") Sample.naming <> [InvalidName]
  /\ stageOf Sample.jane (persisted (Sample.says "browse") Sample.naming)
     = Some name_collection.
Proof. repeat split. discriminate. Qed.

(** C3, amended.  For a user who is collecting the name, a text that none
    of the cases written before the name-collection case takes (start,
    recommend, a category word, browse, a text starting with "view" or made
    of digits only, a text starting with "negotiate") is handled as a name
    attempt, also when it starts with "offer".  The text "browse" gets the
    browse listing, and the stage stays name_collection. *)
Theorem name_collection_after_commands req f :
  stageOf (From req) f = Some name_collection ->
  (earlierCase (incomingMsg req) = false ->
     (isValidName (incomingMsg req) = true ->
        replies req f = [Hello (Some (Js.trim (incomingMsg req)))]
        /\ stageOf (From req) (persisted req f) = Some offer_collection)
     /\ (isValidName (incomingMsg req) = false ->
         replies req f = [InvalidName]
         /\ stageOf (From req) (persisted req f) = Some name_collection))
  /\ (Js.startsWith (incomingMsg req) "offer" = true ->
      earlierCase (incomingMsg req) = false)
  /\ (incomingMsg req = "browse" ->
      replies req f = [BrowseList (tractors f)]
      /\ stageOf (From req) (persisted req f) = Some name_collection).
Proof.
  intros Hst. split; [|split].
  - intros He. destruct (name_attempt req f Hst He) as [Hv Hi]. split; intros E.
    + destruct (Hv E) as (H1 & _ & _ & H2). auto.
    + destruct (Hi E) as (H1 & H2 & _). rewrite H1, H2. auto.
  - apply startsWith_offer.
  - intros E. pose proof (handle_browse req f E) as H.
    apply result_parts in H as (-> & -> & _). auto.
Qed.

Lemma name_collection_after_commands_witness :
  replies (Sample.says "offer 5000") Sample.naming = [InvalidName]
  /\ replies (Sample.says "browse") Sample.naming = [BrowseList Sample.catalog].
Proof.
  destruct (name_collection_after_commands (Sample.says "offer 5000") Sample.naming
              eq_refl) as (H & _ & _).
  destruct (H eq_refl) as [_ H1]. destruct (H1 eq_refl) as [H2 _].
  destruct (name_collection_after_commands (Sample.says "browse") Sample.naming
              eq_refl) as (_ & _ & H').
  destruct (H' eq_refl) as [H3 _].
  split; [exact H2 | exact H3].
Defined.

(** C4, counterexample.  A user who is collecting the name sends
    "Jane Doe": the name stored is "jane doe". *)
Lemma jane_doe_is_lowercased :
  stageOf Sample.jane Sample.naming = Some name_collection
  /\ isValidName (incomingMsg (Sample.says "Jane Doe")) = true
  /\ nameOf Sample.jane (persisted (Sample.says "Jane Doe") Sample.naming)
     = Some "jane doe"
  /\ nameOf Sample.jane (persisted (Sample.says "Jane Doe") Sample.naming)
     <> Some "Jane Doe"
  /\ stageOf Sample.jane (persisted (Sample.says "Jane Doe") Sample.naming)
     = Some offer_collection.
Proof. repeat split. discriminate. Qed.

(** C4, amended.  When the text of a user who is collecting the name
    reaches name validation and passes it, the name stored is the text
    lower-cased and trimmed, and the stage advances to offer_collection;
    "Jane Doe" is stored as "jane doe". *)
Theorem name_is_normalized_text req f body :
  stageOf (From req) f = Some name_collection ->
  Body req = Some body ->
  earlierCase (incomingMsg req) = false ->
  isValidName (incomingMsg req) = true ->
  nameOf (From req) (persisted req f) = Some (Js.trim (Js.toLowerCase body))
  /\ stageOf (From req) (persisted req f) = Some offer_collection
  /\ replies req f = [Hello (Some (Js.trim (Js.toLowerCase body)))]
  /\ inMemory req f = persisted req f
  /\ (body = "Jane Doe" -> nameOf (From req) (persisted req f) = Some "jane doe").
Proof.
  intros Hst Hb He Hv.
  destruct (name_attempt req f Hst He) as [H _].
  destruct (H Hv) as (Hr & Hm & Hn & Hs).
  rewrite (incomingMsg_Body _ _ Hb), trim_idem in Hr, Hn.
  rewrite Hr, Hm, Hn, Hs. repeat split. intros ->. reflexivity.
Qed.

Lemma name_is_normalized_text_witness :
  nameOf Sample.jane (persisted (Sample.says "  Mary-Ann O'Neil ") Sample.naming)
  = Some "mary-ann o'neil".
Proof.
  destruct (name_is_normalized_text (Sample.says "  Mary-Ann O'Neil ") Sample.naming
              _ eq_refl eq_refl eq_refl eq_refl) as (H & _).
  exact H.
Defined.

(** C8, counterexample.  A user who is collecting the name sends "start",
    which has only letters and length 5: it is not taken as a name.  The
    same user sends "12": the reply is tractor-not-found, not the
    invalid-name one. *)
Lemma start_is_not_taken_as_name :
  stageOf Sample.jane Sample.naming = Some name_collection
  /\ isValidName (incomingMsg (Sample.says "start")) = true
  /\ replies (Sample.says "start") Sample.naming = [Welcome]
  /\ persisted (Sample.says "start") Sample.naming = Sample.naming
  /\ isValidName (incomingMsg (Sample.says "12")) = false
  /\ replies (Sample.says "12") Sample.naming = [TractorNotFound]
  /\ replies (Sample.says "12") Sample.naming <> [InvalidName].
Proof. repeat split. discriminate. Qed.

(** C8, amended.  For a user who is collecting the name, a text that none
    of the earlier cases takes is accepted as a name exactly when all its
    characters are ASCII letters, white space, hyphens or apostrophes and
    its trimmed length is at least 2; then the stage advances.  Any other
    such text gets the invalid-name reply and the stage stays
    name_collection, any number of times. *)
Theorem name_validation req f :
  stageOf (From req) f = Some name_collection ->
  earlierCase (incomingMsg req) = false ->
  ((replies req f = [Hello (Some (Js.trim (incomingMsg req)))]
    /\ stageOf (From req) (persisted req f) = Some offer_collection)
   <-> wellFormedName (incomingMsg req))
  /\ (~ wellFormedName (incomingMsg req) ->
      replies req f = [InvalidName]
      /\ persisted req f = f
      /\ stageOf (From req) (persisted req f) = Some name_collection)
  /\ (forall retries,
        Forall (fun r => From r = From req
                         /\ earlierCase (incomingMsg r) = false
                         /\ ~ wellFormedName (incomingMsg r)) retries ->
        run retries f = ((fun _ => [InvalidName]) <$> retries, f)).
Proof.
  intros Hst He. destruct (name_attempt req f Hst He) as [Hv Hi].
  pose proof (isValidName_spec (incomingMsg req)) as Hspec.
  destruct (isValidName (incomingMsg req)) eqn:E.
  - destruct (Hv eq_refl) as (H1 & _ & _ & H2).
    assert (Hw : wellFormedName (incomingMsg req)) by (apply Hspec; reflexivity).
    split; [split; auto|]. split; [intros Hn; contradiction|].
    intros retries. apply invalid_names_retry, Hst.
  - destruct (Hi eq_refl) as (H1 & H2 & _).
    assert (Hw : ~ wellFormedName (incomingMsg req))
      by (intros Hw; apply Hspec in Hw; discriminate).
    split; [split; [intros [Hr _]; rewrite H1 in Hr; discriminate | contradiction]|].
    split; [intros _; rewrite H1, H2; auto|].
    intros retries. apply invalid_names_retry, Hst.
Qed.

Lemma name_validation_witness :
  replies (Sample.says "J4ne") Sample.naming = [InvalidName]
  /\ run [Sample.says "J4ne"; Sample.says "x"; Sample.says "a_b"] Sample.naming
     = ([ [InvalidName]; [InvalidName]; [InvalidName] ], Sample.naming).
Proof.
  assert (H4 : ~ wellFormedName "j4ne").
  { intros Hw. apply isValidName_spec in Hw. discriminate. }
  assert (Hx : ~ wellFormedName "x").
  { intros Hw. apply isValidName_spec in Hw. discriminate. }
  assert (Hu : ~ wellFormedName "a_b").
  { intros Hw. apply isValidName_spec in Hw. discriminate. }
  destruct (name_validation (Sample.says "J4ne") Sample.naming eq_refl eq_refl)
    as (_ & H1 & H2).
  destruct (H1 H4) as (Hr & _).
  split; [exact Hr|].
  apply H2. repeat constructor; assumption.
Defined.

(** C10, counterexample.  A user whose negotiation is in stage
    name_collection sends "offer ten": the text is stored as the name, the
    stage advances and the file changes. *)
Lemma offer_text_during_name_collection :
  stageOf Sample.jane Sample.naming = Some name_collection
  /\ Js.startsWith (incomingMsg (Sample.says "offer ten")) "offer" = true
  /\ replies (Sample.says "offer ten") Sample.naming = [Hello (Some "offer ten")]
  /\ replies (Sample.says "offer ten") Sample.naming <> [NoActiveNegotiation]
  /\ nameOf Sample.jane (persisted (Sample.says "offer ten") Sample.naming)
     = Some "offer ten"
  /\ persisted (Sample.says "offer ten") Sample.naming <> Sample.naming.
Proof. repeat split; discriminate. Qed.

(** C10, amended.  For a user with no session, or with a session whose
    negotiation is [null], a text starting with "offer" gets the
    no-active-negotiation reply, which is not the help reply, and neither
    the file nor the collection in memory changes. *)
Theorem offer_without_negotiation req f :
  Js.startsWith (incomingMsg req) "offer" = true ->
  negotiationOf (From req) f = None ->
  replies req f = [NoActiveNegotiation]
  /\ replies req f <> [Help]
  /\ persisted req f = f /\ inMemory req f = f
  /\ session (From req) (persisted req f) = session (From req) f.
Proof.
  intros Hs Hn.
  pose proof (handle_later req f (startsWith_offer _ Hs)) as H.
  assert (Hc : collectingName (findUser (From req) f) = None).
  { unfold negotiationOf, session in Hn. unfold collectingName.
    destruct (findUser (From req) f) as [[i u]|]; [|reflexivity].
    cbn in Hn. rewrite Hn. reflexivity. }
  rewrite Hc, Hs, (offerCase_idle _ _ _ Hn) in H.
  apply result_parts in H as (-> & -> & ->). cbn [twiml file data].
  repeat split. discriminate.
Qed.

Lemma offer_without_negotiation_witness :
  replies (Sample.says "offer 9500") Sample.fresh = [NoActiveNegotiation]
  /\ persisted (Sample.says "offer 9500") Sample.fresh = Sample.fresh
  /\ replies (Sample.says "Offer 1") Sample.idle = [NoActiveNegotiation]
  /\ persisted (Sample.says "Offer 1") Sample.idle = Sample.idle.
Proof.
  destruct (offer_without_negotiation (Sample.says "offer 9500") Sample.fresh
              eq_refl eq_refl) as (H1 & _ & H2 & _).
  destruct (offer_without_negotiation (Sample.says "Offer 1") Sample.idle
              eq_refl eq_refl) as (H3 & _ & H4 & _).
  repeat split; assumption.
Defined.

(** * Further properties of the handler *)

(** ** What a request can change *)

Lemma handle_stateless req f :
  earlierCase (incomingMsg req) = true ->
  Js.startsWith (incomingMsg req) "negotiate" = false ->
  handle req f = Returned tt (world_of (handle req f))
  /\ persisted req f = f /\ inMemory req f = f.
Proof.
  unfold earlierCase, persisted, inMemory, handle, whatsapp, bind, readData.
  cbn [file data twiml]. intros He Hn. rewrite Hn in *.
  destruct (String.eqb (incomingMsg req) "start"); [auto|].
  destruct (String.eqb (incomingMsg req) "recommend"); [auto|].
  destruct (isCategory (incomingMsg req)); [auto|].
  destruct (String.eqb (incomingMsg req) "browse"); [auto|].
  destruct (Js.startsWith (incomingMsg req) "view" || Js.digitsOnly (incomingMsg req));
    [|discriminate].
  unfold viewCase, bind, getData. cbn [file data twiml].
  destruct (findTractor _ _); auto.
Qed.

(** The four things a request can do to the collection. *)
Lemma handle_cases req f :
  (persisted req f = f /\ inMemory req f = f)
  \/ (Js.startsWith (incomingMsg req) "negotiate" = true
      /\ exists t,
           findTractor (amountOf (incomingMsg req)) f = Some t
           /\ persisted req f
              = withNegotiation (From req)
                  {| Negotiation.tractorId := Tractor.id t;
                     Negotiation.stage := name_collection |} f
           /\ inMemory req f = persisted req f)
  \/ (earlierCase (incomingMsg req) = false
      /\ isValidName (incomingMsg req) = true
      /\ exists i u tid,
           findUser (From req) f = Some (i, u)
           /\ User.currentNegotiation u
              = Some {| Negotiation.tractorId := tid;
                        Negotiation.stage := name_collection |}
           /\ persisted req f
              = withUser i (set_stage offer_collection
                              (set_name (Js.trim (incomingMsg req)) u)) f
           /\ inMemory req f = persisted req f)
  \/ (persisted req f = f
      /\ exists i u tid,
           findUser (From req) f = Some (i, u)
           /\ User.currentNegotiation u
              = Some {| Negotiation.tractorId := tid;
                        Negotiation.stage := offer_collection |}
           /\ inMemory req f = withUser i (set_currentNegotiation None u) f).
Proof.
  destruct (Js.startsWith (incomingMsg req) "negotiate") eqn:Hn.
  { pose proof (handle_negotiate req f Hn) as H.
    destruct (findTractor (amountOf (incomingMsg req)) f) as [t|] eqn:Ht.
    - right. left. split; [reflexivity|]. exists t. split; [reflexivity|].
      pose proof (findTractor_id _ _ _ Ht) as Ha. rewrite Ha in Ht.
      rewrite (negotiateCase_found _ (From req) f _ t Ha Ht) in H.
      apply result_parts in H as (_ & -> & ->). auto.
    - left. rewrite (negotiateCase_missing _ _ _ f Ht) in H.
      apply result_parts in H as (_ & -> & ->). auto. }
  destruct (earlierCase (incomingMsg req)) eqn:He.
  { left. apply (handle_stateless req f He Hn). }
  pose proof (handle_later req f He) as H.
  destruct (findUser (From req) f) as [[i u]|] eqn:Hu.
  2: { cbn [collectingName] in H. left.
       destruct (Js.startsWith (incomingMsg req) "offer").
       - rewrite offerCase_idle in H
           by (unfold negotiationOf, session; rewrite Hu; reflexivity).
         apply result_parts in H as (_ & -> & ->). auto.
       - apply result_parts in H as (_ & -> & ->). auto. }
  destruct (User.currentNegotiation u) as [[tid st]|] eqn:Hc.
  2: { cbn [collectingName] in H. rewrite Hc in H. left.
       destruct (Js.startsWith (incomingMsg req) "offer").
       - rewrite offerCase_idle in H
           by (unfold negotiationOf, session; rewrite Hu; cbn; exact Hc).
         apply result_parts in H as (_ & -> & ->). auto.
       - apply result_parts in H as (_ & -> & ->). auto. }
  rewrite <- Hu in H. rewrite (collectingName_Some _ _ _ _ _ Hu Hc) in H.
  cbn [Negotiation.stage] in H. destruct st.
  - pose proof (findUser_Some _ _ _ _ Hu) as [Hl _].
    destruct (isValidName (incomingMsg req)) eqn:Hv.
    + right. right. left. split; [reflexivity|]. split; [reflexivity|].
      exists i, u, tid. rewrite (nameCase_valid _ _ _ _ Hl Hv) in H.
      apply result_parts in H as (_ & -> & ->). auto.
    + left. rewrite (nameCase_invalid _ _ _ Hv) in H.
      apply result_parts in H as (_ & -> & ->). auto.
  - destruct (Js.startsWith (incomingMsg req) "offer") eqn:Ho.
    2: { left. apply result_parts in H as (_ & -> & ->). auto. }
    destruct (amountOf (incomingMsg req)) as [a|] eqn:Ha.
    2: { left. rewrite (offerCase_NaN _ _ _ _ _ _ Hu Hc Ha) in H.
         apply result_parts in H as (_ & -> & ->). auto. }
    destruct (findTractor (Some (Js.Int tid)) f) as [t|] eqn:Ht.
    2: { left. rewrite (offerCase_throws _ _ _ _ _ _ _ Hu Hc Ha Ht) in H.
         unfold persisted, inMemory. rewrite H. auto. }
    rewrite (offerCase_amount _ _ _ _ _ _ _ _ Hu Hc Ha Ht) in H.
    destruct (Double.ge a _).
    + right. right. right. apply result_parts in H as (_ & -> & ->).
      split; [reflexivity|]. exists i, u, tid. auto.
    + left. apply result_parts in H as (_ & -> & ->). auto.
Qed.

Lemma list_find_insert_irrelevant {A} (P : A -> Prop) `{!forall x, Decision (P x)}
    (l : list A) i x y :
  l !! i = Some x -> ~ P x -> ~ P y ->
  list_find P (<[i := y]> l) = list_find P l.
Proof.
  revert i. induction l as [|z l IH]; intros i Hl Hx Hy; [reflexivity|].
  destruct i as [|i]; simpl in *.
  - injection Hl as ->.
    destruct (decide (P y)); [contradiction|].
    destruct (decide (P x)); [contradiction|]. reflexivity.
  - destruct (decide (P z)); [reflexivity|]. rewrite (IH i Hl Hx Hy). reflexivity.
Qed.

Lemma list_find_snoc_irrelevant {A} (P : A -> Prop) `{!forall x, Decision (P x)}
    (l : list A) y :
  ~ P y -> list_find P (l ++ [y]) = list_find P l.
Proof.
  intros Hy. destruct (list_find P l) as [[i x]|] eqn:E.
  - apply list_find_app_l, E.
  - rewrite list_find_app_r by exact E. cbn.
    destruct (decide (P y)); [contradiction | reflexivity].
Qed.

(** Replacing the record of one phone number by a record with the same
    number does not change what [find] returns for another number. *)
Lemma findUser_withUser_other userNumber other d i u u' :
  findUser userNumber d = Some (i, u) ->
  User.phone u' = userNumber ->
  other <> userNumber ->
  findUser other (withUser i u' d) = findUser other d.
Proof.
  intros Hu Hp Hne. pose proof (findUser_Some _ _ _ _ Hu) as [Hl Hph].
  unfold findUser, withUser. cbn [users].
  apply (list_find_insert_irrelevant _ _ _ u); [exact Hl | congruence | congruence].
Qed.

Lemma findUser_withNegotiation_other userNumber other n d :
  other <> userNumber ->
  findUser other (withNegotiation userNumber n d) = findUser other d.
Proof.
  intros Hne. unfold withNegotiation.
  destruct (findUser userNumber d) as [[i u]|] eqn:Hu.
  - apply (findUser_withUser_other userNumber other d i u); [exact Hu | | exact Hne].
    pose proof (findUser_Some _ _ _ _ Hu) as [_ Hph]. exact Hph.
  - unfold findUser. cbn [users]. apply list_find_snoc_irrelevant. cbn. congruence.
Qed.

Lemma phones_withUser d i u u' :
  users d !! i = Some u -> User.phone u' = User.phone u ->
  User.phone <$> users (withUser i u' d) = User.phone <$> users d.
Proof.
  intros Hl Hp. unfold withUser. cbn [users].
  rewrite list_fmap_insert, Hp. apply list_insert_id.
  rewrite list_lookup_fmap, Hl. reflexivity.
Qed.

(** X1.  A request never changes the catalogue, and never changes what
    [find] returns for a phone number other than the sender's, neither in
    the file nor in memory. *)
Theorem request_touches_only_sender req f other :
  tractors (persisted req f) = tractors f
  /\ tractors (inMemory req f) = tractors f
  /\ (other <> From req ->
      findUser other (persisted req f) = findUser other f
      /\ findUser other (inMemory req f) = findUser other f).
Proof.
  destruct (handle_cases req f)
    as [(-> & ->) | [(_ & t & _ & -> & ->) | [(_ & _ & i & u & tid & Hu & _ & -> & ->)
       | (-> & i & u & tid & Hu & _ & ->)]]];
    cbn [tractors withNegotiation withUser];
    (split; [reflexivity|]); (split; [reflexivity|]); intros Hne.
  - split; reflexivity.
  - split; apply findUser_withNegotiation_other, Hne.
  - split; apply (findUser_withUser_other (From req) other f i u);
      first [exact Hu | exact Hne | apply (findUser_Some _ _ _ _ Hu)].
  - split; [reflexivity|].
    apply (findUser_withUser_other (From req) other f i u);
      first [exact Hu | exact Hne | apply (findUser_Some _ _ _ _ Hu)].
Qed.

Lemma request_touches_only_sender_witness :
  findUser Sample.jane
    (persisted {| Body := Some "negotiate 1"; From := Some "whatsapp:+15550199" |}
               Sample.offering)
  = findUser Sample.jane Sample.offering.
Proof.
  apply (request_touches_only_sender
           {| Body := Some "negotiate 1"; From := Some "whatsapp:+15550199" |}
           Sample.offering Sample.jane).
  discriminate.
Defined.

(** X2.  The file is rewritten only by a negotiate command that finds its
    tractor and by a valid name sent during name collection. *)
Theorem file_changes_only_on_negotiate_or_name req f :
  persisted req f = f
  \/ (Js.startsWith (incomingMsg req) "negotiate" = true
      /\ exists t, findTractor (amountOf (incomingMsg req)) f = Some t)
  \/ (stageOf (From req) f = Some name_collection
      /\ earlierCase (incomingMsg req) = false
      /\ isValidName (incomingMsg req) = true).
Proof.
  destruct (handle_cases req f)
    as [(H & _) | [(Hn & t & Ht & _) | [(He & Hv & i & u & tid & Hu & Hc & _)
       | (H & _)]]]; auto.
  - right. left. eauto.
  - right. right. split; [|auto].
    unfold stageOf. rewrite (negotiationOf_findUser _ _ _ _ Hu), Hc. reflexivity.
Qed.

(** X3.  Records are never removed and phone numbers never change: the
    phone numbers in the file after a request are those before it, with the
    sender's added at the end when the sender had no record (which only a
    negotiate command does). *)
Theorem users_only_grow req f :
  User.phone <$> users (persisted req f) = User.phone <$> users f
  \/ (session (From req) f = None
      /\ Js.startsWith (incomingMsg req) "negotiate" = true
      /\ User.phone <$> users (persisted req f)
         = ((User.phone <$> users f) ++ [From req])%list).
Proof.
  destruct (handle_cases req f)
    as [(-> & _) | [(Hn & t & _ & -> & _) | [(_ & _ & i & u & tid & Hu & _ & -> & _)
       | (-> & _)]]]; auto.
  - unfold withNegotiation, session.
    destruct (findUser (From req) f) as [[i u]|] eqn:Hu; cbn [users].
    + left. pose proof (findUser_Some _ _ _ _ Hu) as [Hl _].
      apply (phones_withUser f i u); [exact Hl | reflexivity].
    + right. split; [reflexivity|]. split; [exact Hn|].
      rewrite fmap_app. reflexivity.
  - left. pose proof (findUser_Some _ _ _ _ Hu) as [Hl _].
    apply (phones_withUser f i u); [exact Hl | reflexivity].
Qed.

Lemma findUser_None_phones userNumber d :
  findUser userNumber d = None -> userNumber ∉ (User.phone <$> users d).
Proof.
  unfold findUser. intros H Hin.
  apply list_elem_of_fmap in Hin as (u & -> & Hu).
  apply list_find_None in H. rewrite Forall_forall in H. apply (H u Hu). reflexivity.
Qed.

(** X4.  One record per phone number: when no two records of the file have
    the same phone number, the same holds after any request. *)
Theorem one_record_per_phone req f :
  NoDup (User.phone <$> users f) ->
  NoDup (User.phone <$> users (persisted req f)).
Proof.
  intros Hnd.
  destruct (handle_cases req f)
    as [(-> & _) | [(Hn & t & _ & -> & _) | [(_ & _ & i & u & tid & Hu & _ & -> & _)
       | (-> & _)]]]; auto.
  - unfold withNegotiation.
    destruct (findUser (From req) f) as [[i u]|] eqn:Hu; cbn [users].
    + pose proof (findUser_Some _ _ _ _ Hu) as [Hl _].
      pose proof (phones_withUser f i u (set_currentNegotiation
        (Some {| Negotiation.tractorId := Tractor.id t;
                 Negotiation.stage := name_collection |}) u) Hl eq_refl) as E.
      unfold withUser in E. cbn [users] in E. rewrite E. exact Hnd.
    + rewrite fmap_app. apply NoDup_app. split; [exact Hnd|]. split.
      * intros x Hx Hin. apply list_elem_of_singleton in Hin. subst x.
        exact (findUser_None_phones _ _ Hu Hx).
      * apply NoDup_singleton.
  - pose proof (findUser_Some _ _ _ _ Hu) as [Hl _].
    rewrite (phones_withUser f i u); [exact Hnd | exact Hl | reflexivity].
Qed.

Lemma one_record_per_phone_witness :
  NoDup (User.phone <$> users (persisted (Sample.says "negotiate 1") Sample.fresh))
  /\ NoDup (User.phone <$> users (persisted (Sample.says "negotiate 1") Sample.offering)).
Proof.
  split.
  - apply (one_record_per_phone (Sample.says "negotiate 1") Sample.fresh).
    cbn. apply NoDup_nil_2.
  - apply (one_record_per_phone (Sample.says "negotiate 1") Sample.offering).
    cbn. apply NoDup_singleton.
Defined.

Lemma findTractor_same_catalogue x d d' :
  tractors d' = tractors d -> findTractor x d' = findTractor x d.
Proof. unfold findTractor. intros ->. reflexivity. Qed.

Lemma withNegotiation_idem userNumber n d :
  withNegotiation userNumber n (withNegotiation userNumber n d)
  = withNegotiation userNumber n d.
Proof.
  unfold withNegotiation at 1.
  destruct (findUser userNumber d) as [[i u]|] eqn:Hu.
  - pose proof (findUser_Some _ _ _ _ Hu) as [Hl Hp].
    assert (E : withNegotiation userNumber n d
                = withUser i (set_currentNegotiation (Some n) u) d)
      by (unfold withNegotiation; rewrite Hu; reflexivity).
    rewrite E.
    rewrite (findUser_withUser userNumber d i u
               (set_currentNegotiation (Some n) u) Hu Hp).
    unfold withUser. cbn [users tractors]. f_equal.
    rewrite list_insert_insert_eq. reflexivity.
  - assert (E : withNegotiation userNumber n d
                = {| users := users d ++
                       [ {| User.phone := userNumber; User.name := None;
                            User.currentNegotiation := Some n |} ];
                     tractors := tractors d |})
      by (unfold withNegotiation; rewrite Hu; reflexivity).
    rewrite E. unfold findUser at 1. cbn [users].
    rewrite (findUser_push userNumber d
               {| User.phone := userNumber; User.name := None;
                  User.currentNegotiation := Some n |} Hu eq_refl).
    cbn [tractors]. f_equal.
    rewrite insert_app_r_alt, Nat.sub_diag by lia. reflexivity.
Qed.

(** X5.  The negotiate command is idempotent: sent a second time it gets
    the same reply and leaves the file as the first one left it. *)
Theorem negotiate_twice req f :
  Js.startsWith (incomingMsg req) "negotiate" = true ->
  replies req (persisted req f) = replies req f
  /\ persisted req (persisted req f) = persisted req f.
Proof.
  intros Hn. pose proof (handle_negotiate req f Hn) as H.
  destruct (findTractor (amountOf (incomingMsg req)) f) as [t|] eqn:Ht.
  - pose proof (findTractor_id _ _ _ Ht) as Ha. rewrite Ha in Ht.
    rewrite (negotiateCase_found _ (From req) f _ t Ha Ht) in H.
    apply result_parts in H as (Hr & Hf & _). cbn [twiml file] in Hr, Hf.
    set (n := {| Negotiation.tractorId := Tractor.id t;
                 Negotiation.stage := name_collection |}) in *.
    pose proof (handle_negotiate req (persisted req f) Hn) as H'.
    assert (Ht' : findTractor (Some (Js.Int (Tractor.id t))) (persisted req f) = Some t).
    { rewrite Hf. rewrite (findTractor_same_catalogue _ f); [exact Ht | reflexivity]. }
    rewrite (negotiateCase_found _ (From req) _ _ t Ha Ht') in H'.
    apply result_parts in H' as (Hr' & Hf' & _). cbn [twiml file] in Hr', Hf'.
    rewrite Hr', Hr, Hf'. split; [reflexivity|].
    rewrite Hf. apply withNegotiation_idem.
  - rewrite (negotiateCase_missing _ _ _ f Ht) in H.
    apply result_parts in H as (Hr & Hf & _). cbn [twiml file] in Hr, Hf.
    rewrite Hf. auto.
Qed.

Lemma negotiate_twice_witness :
  run [Sample.says "negotiate 2"; Sample.says "negotiate 2"] Sample.offering15
  = ([ [Negotiating "Field Master"]; [Negotiating "Field Master"] ],
     persisted (Sample.says "negotiate 2") Sample.offering15).
Proof.
  destruct (negotiate_twice (Sample.says "negotiate 2") Sample.offering15 eq_refl)
    as [H1 H2].
  cbn [run]. rewrite H1, H2. reflexivity.
Defined.

(** X6.  During offer collection, an offer command whose second word has no
    leading number gets the invalid-offer reply; nothing changes, whether
    or not the tractor is still in the catalogue. *)
Theorem offer_without_number req f :
  stageOf (From req) f = Some offer_collection ->
  Js.startsWith (incomingMsg req) "offer" = true ->
  amountOf (incomingMsg req) = None ->
  handle req f = Returned tt {| file := f; data := f; twiml := [InvalidOffer] |}.
Proof.
  intros Hst Hs Ha.
  apply stageOf_Some in Hst as (i & u & [tid st] & Hu & Hn & Hst).
  cbn in Hst. subst st.
  rewrite (handle_offer req f i u tid Hs Hu Hn).
  apply (offerCase_NaN _ _ _ i u tid Hu Hn Ha).
Qed.

Lemma offer_without_number_witness :
  replies (Sample.says "offer  5000") Sample.offering = [InvalidOffer]
  /\ replies (Sample.says "Offer") Sample.orphaned = [InvalidOffer]
  /\ persisted (Sample.says "offer $5000") Sample.offering = Sample.offering.
Proof.
  pose proof (offer_without_number (Sample.says "offer  5000") Sample.offering
                eq_refl eq_refl eq_refl) as H1.
  pose proof (offer_without_number (Sample.says "Offer") Sample.orphaned
                eq_refl eq_refl eq_refl) as H2.
  pose proof (offer_without_number (Sample.says "offer $5000") Sample.offering
                eq_refl eq_refl eq_refl) as H3.
  unfold replies, persisted. rewrite H1, H2, H3. repeat split.
Defined.

(** X7.  During offer collection on a tractor that is no longer in the
    catalogue, an offer with a number throws: there is no reply and nothing
    is written. *)
Theorem offer_on_missing_tractor_throws req f a :
  stageOf (From req) f = Some offer_collection ->
  negotiatedTractor (From req) f = None ->
  Js.startsWith (incomingMsg req) "offer" = true ->
  amountOf (incomingMsg req) = Some a ->
  handle req f = Thrown {| file := f; data := f; twiml := [] |}.
Proof.
  intros Hst Ht Hs Ha.
  apply stageOf_Some in Hst as (i & u & [tid st] & Hu & Hn & Hst).
  cbn in Hst. subst st.
  unfold negotiatedTractor in Ht.
  rewrite (negotiationOf_findUser _ _ _ _ Hu), Hn in Ht. cbn in Ht.
  rewrite (handle_offer req f i u tid Hs Hu Hn).
  apply (offerCase_throws _ _ _ i u tid a Hu Hn Ha Ht).
Qed.

Lemma offer_on_missing_tractor_throws_witness :
  handle (Sample.says "offer 9500") Sample.orphaned
  = Thrown {| file := Sample.orphaned; data := Sample.orphaned; twiml := [] |}.
Proof.
  exact (offer_on_missing_tractor_throws (Sample.says "offer 9500") Sample.orphaned
           9500 eq_refl eq_refl eq_refl eq_refl).
Defined.

(** A request returns with at least one message, or it is the offer on a
    missing tractor. *)
Lemma handle_outcome req f :
  (exists w, handle req f = Returned tt w /\ twiml w <> [])
  \/ (handle req f = Thrown (loaded f)
      /\ exists i u tid,
           findUser (From req) f = Some (i, u)
           /\ User.currentNegotiation u
              = Some {| Negotiation.tractorId := tid;
                        Negotiation.stage := offer_collection |}
           /\ findTractor (Some (Js.Int tid)) f = None).
Proof.
  destruct (Js.startsWith (incomingMsg req) "negotiate") eqn:Hn.
  { left. rewrite (handle_negotiate req f Hn).
    destruct (findTractor (amountOf (incomingMsg req)) f) as [t|] eqn:Ht.
    - pose proof (findTractor_id _ _ _ Ht) as Ha. rewrite Ha in Ht.
      rewrite (negotiateCase_found _ (From req) f _ t Ha Ht).
      eexists. split; [reflexivity | discriminate].
    - rewrite (negotiateCase_missing _ _ _ f Ht).
      eexists. split; [reflexivity | discriminate]. }
  destruct (earlierCase (incomingMsg req)) eqn:He.
  { left. revert He.
    unfold earlierCase, handle, whatsapp, bind, readData.
    cbn [file data twiml]. rewrite Hn.
    destruct (String.eqb (incomingMsg req) "start");
      [intros _; eexists; split; [reflexivity | discriminate]|].
    destruct (String.eqb (incomingMsg req) "recommend");
      [intros _; eexists; split; [reflexivity | discriminate]|].
    destruct (isCategory (incomingMsg req));
      [intros _; eexists; split; [reflexivity | discriminate]|].
    destruct (String.eqb (incomingMsg req) "browse");
      [intros _; eexists; split; [reflexivity | discriminate]|].
    destruct (Js.startsWith (incomingMsg req) "view" || Js.digitsOnly (incomingMsg req));
      [intros _|discriminate].
    unfold viewCase, bind, getData. cbn [file data twiml].
    destruct (findTractor _ _); eexists; (split; [reflexivity | discriminate]). }
  rewrite (handle_later req f He).
  destruct (findUser (From req) f) as [[i u]|] eqn:Hu.
  2: { cbn [collectingName]. left.
       destruct (Js.startsWith (incomingMsg req) "offer").
       - rewrite offerCase_idle
           by (unfold negotiationOf, session; rewrite Hu; reflexivity).
         eexists. split; [reflexivity | discriminate].
       - eexists. split; [reflexivity | discriminate]. }
  destruct (User.currentNegotiation u) as [[tid st]|] eqn:Hc.
  2: { cbn [collectingName]. rewrite Hc. left.
       destruct (Js.startsWith (incomingMsg req) "offer").
       - rewrite offerCase_idle
           by (unfold negotiationOf, session; rewrite Hu; cbn; exact Hc).
         eexists. split; [reflexivity | discriminate].
       - eexists. split; [reflexivity | discriminate]. }
  rewrite <- Hu. rewrite (collectingName_Some _ _ _ _ _ Hu Hc).
  cbn [Negotiation.stage]. destruct st.
  - left. pose proof (findUser_Some _ _ _ _ Hu) as [Hl _].
    destruct (isValidName (incomingMsg req)) eqn:Hv.
    + rewrite (nameCase_valid _ _ _ _ Hl Hv).
      eexists. split; [reflexivity | discriminate].
    + rewrite (nameCase_invalid _ _ _ Hv).
      eexists. split; [reflexivity | discriminate].
  - destruct (Js.startsWith (incomingMsg req) "offer") eqn:Ho.
    2: { left. eexists. split; [reflexivity | discriminate]. }
    destruct (amountOf (incomingMsg req)) as [a|] eqn:Ha.
    2: { left. rewrite (offerCase_NaN _ _ _ _ _ _ Hu Hc Ha).
         eexists. split; [reflexivity | discriminate]. }
    destruct (findTractor (Some (Js.Int tid)) f) as [t|] eqn:Ht.
    2: { right. rewrite (offerCase_throws _ _ _ _ _ _ _ Hu Hc Ha Ht).
         split; [reflexivity|]. exists i, u, tid. auto. }
    left. rewrite (offerCase_amount _ _ _ _ _ _ _ _ Hu Hc Ha Ht).
    destruct (Double.ge a _); eexists; (split; [reflexivity | discriminate]).
Qed.

Lemma resolves_same_catalogue d d' u :
  tractors d' = tractors d -> resolves d' u = resolves d u.
Proof.
  intros E. unfold resolves. destruct (User.currentNegotiation u); [|reflexivity].
  rewrite (findTractor_same_catalogue _ d d' E). reflexivity.
Qed.

Lemma negotiationsResolve_users d us :
  negotiationsResolve d ->
  Forall (fun u => resolves d u = true) us ->
  negotiationsResolve {| users := us; tractors := tractors d |}.
Proof.
  intros _ H. unfold negotiationsResolve. cbn [users].
  eapply Forall_impl; [exact H|]. intros u Hu. cbn beta.
  rewrite (resolves_same_catalogue d); [exact Hu | reflexivity].
Qed.

Lemma negotiationsResolve_withUser d i u :
  negotiationsResolve d -> resolves d u = true ->
  negotiationsResolve (withUser i u d).
Proof.
  intros H Hu. apply negotiationsResolve_users; [exact H|].
  apply Forall_insert; [exact H | exact Hu].
Qed.

Lemma negotiationsResolve_withNegotiation userNumber t d :
  negotiationsResolve d ->
  findTractor (Some (Js.Int (Tractor.id t))) d = Some t ->
  negotiationsResolve
    (withNegotiation userNumber
       {| Negotiation.tractorId := Tractor.id t;
          Negotiation.stage := name_collection |} d).
Proof.
  intros H Ht. unfold withNegotiation.
  destruct (findUser userNumber d) as [[i u]|].
  - apply (negotiationsResolve_withUser d i); [exact H|].
    unfold resolves. cbn. rewrite Ht. reflexivity.
  - apply negotiationsResolve_users; [exact H|].
    apply Forall_app. split; [exact H|].
    apply Forall_singleton. unfold resolves. cbn. rewrite Ht. reflexivity.
Qed.

Lemma negotiationsResolve_findUser userNumber d i u :
  negotiationsResolve d -> findUser userNumber d = Some (i, u) ->
  resolves d u = true.
Proof.
  intros H Hu. apply findUser_Some in Hu as [Hl _].
  unfold negotiationsResolve in H. rewrite Forall_lookup in H. exact (H i u Hl).
Qed.

(** A request keeps every negotiation on a tractor of the catalogue, in
    the file and in memory. *)
Lemma negotiationsResolve_step req f :
  negotiationsResolve f ->
  negotiationsResolve (persisted req f) /\ negotiationsResolve (inMemory req f).
Proof.
  intros H.
  destruct (handle_cases req f)
    as [(-> & ->) | [(Hn & t & Ht & -> & ->) | [(_ & _ & i & u & tid & Hu & Hc & -> & ->)
       | (-> & i & u & tid & Hu & Hc & ->)]]]; auto.
  - pose proof (findTractor_id _ _ _ Ht) as Ha. rewrite Ha in Ht.
    split; apply negotiationsResolve_withNegotiation; assumption.
  - pose proof (negotiationsResolve_findUser _ _ _ _ H Hu) as Hr.
    assert (resolves f (set_stage offer_collection
                          (set_name (Js.trim (incomingMsg req)) u)) = true).
    { unfold resolves in *. cbn. rewrite Hc in *. exact Hr. }
    split; apply negotiationsResolve_withUser; assumption.
  - split; [exact H|].
    apply negotiationsResolve_withUser; [exact H | reflexivity].
Qed.

(** Under that invariant a request returns, with at least one message. *)
Lemma handle_answers req f :
  negotiationsResolve f ->
  exists w, handle req f = Returned tt w /\ twiml w <> [].
Proof.
  intros H.
  destruct (handle_outcome req f) as [Hw | (_ & i & u & tid & Hu & Hc & Ht)];
    [exact Hw|].
  pose proof (negotiationsResolve_findUser _ _ _ _ H Hu) as Hr.
  unfold resolves in Hr. rewrite Hc in Hr. cbn in Hr. rewrite Ht in Hr.
  discriminate.
Qed.

(** X8.  When every negotiation of the file is on a tractor of the
    catalogue, a request does not throw: it returns with at least one
    message, and the file it leaves has the same property. *)
Theorem request_is_answered req f :
  negotiationsResolve f ->
  (exists w, handle req f = Returned tt w /\ twiml w <> [])
  /\ negotiationsResolve (persisted req f).
Proof.
  intros H. split; [apply handle_answers, H | apply negotiationsResolve_step, H].
Qed.

Lemma request_is_answered_witness :
  (exists w, handle (Sample.says "offer 9500") Sample.offering = Returned tt w
             /\ twiml w <> [])
  /\ negotiationsResolve (persisted (Sample.says "offer 9500") Sample.offering).
Proof.
  apply (request_is_answered (Sample.says "offer 9500") Sample.offering).
  unfold negotiationsResolve. cbn [users Sample.offering].
  apply Forall_singleton. reflexivity.
Defined.

(** X9.  Starting from such a file, every request of any sequence of
    requests gets at least one message, and the file at the end still has
    every negotiation on a tractor of the catalogue. *)
Theorem run_is_answered reqs f :
  negotiationsResolve f ->
  Forall (fun rs => rs <> []) (fst (run reqs f))
  /\ length (fst (run reqs f)) = length reqs
  /\ negotiationsResolve (snd (run reqs f)).
Proof.
  revert f. induction reqs as [|req rest IH]; intros f H; cbn [run].
  - cbn. auto using Forall_nil_2.
  - destruct (negotiationsResolve_step req f H) as [Hp _].
    destruct (IH _ Hp) as (IH1 & IH2 & IH3).
    destruct (run rest (persisted req f)) as [rs f'] eqn:E. cbn [fst snd length] in *.
    split; [|split; [congruence | exact IH3]].
    apply Forall_cons. split; [|exact IH1].
    destruct (handle_answers req f H) as (w & Hw & Hne).
    unfold replies. rewrite Hw. exact Hne.
Qed.

Lemma run_is_answered_witness :
  Forall (fun rs => rs <> [])
    (fst (run [Sample.says "negotiate 1"; Sample.says "Jane Doe";
               Sample.says "offer 14"] Sample.fresh)).
Proof.
  apply (run_is_answered [Sample.says "negotiate 1"; Sample.says "Jane Doe";
                          Sample.says "offer 14"] Sample.fresh).
  unfold negotiationsResolve. cbn [users Sample.fresh]. apply Forall_nil_2.
Defined.

(** A negotiation that is in the file is still there after a request,
    whoever sends it. *)
Lemma negotiation_kept_step req f userNumber :
  is_Some (negotiationOf userNumber f) ->
  is_Some (negotiationOf userNumber (persisted req f)).
Proof.
  intros H.
  destruct (handle_cases req f)
    as [(-> & _) | [(Hn & t & Ht & -> & _) | [(_ & _ & i & u & tid & Hu & Hc & -> & _)
       | (-> & _)]]]; auto.
  - destruct (decide (userNumber = From req)) as [->|Hne].
    + rewrite negotiationOf_withNegotiation. eauto.
    + unfold negotiationOf, session in *.
      rewrite (findUser_withNegotiation_other _ _ _ _ Hne). exact H.
  - pose proof (findUser_Some _ _ _ _ Hu) as [_ Hp].
    destruct (decide (userNumber = From req)) as [->|Hne].
    + rewrite (negotiationOf_findUser _ _ i
                 (set_stage offer_collection (set_name (Js.trim (incomingMsg req)) u)))
        by (apply (findUser_withUser _ _ _ u); [exact Hu | exact Hp]).
      cbn. rewrite Hc. cbn. eauto.
    + unfold negotiationOf, session in *.
      rewrite (findUser_withUser_other (From req) userNumber f i u);
        [exact H | exact Hu | exact Hp | exact Hne].
Qed.

(** X10.  The file never loses a negotiation: a user who has a negotiation
    in the file still has one after any sequence of requests, accepted
    offers included. *)
Theorem negotiation_never_leaves_file reqs f userNumber :
  is_Some (negotiationOf userNumber f) ->
  is_Some (negotiationOf userNumber (snd (run reqs f))).
Proof.
  revert f. induction reqs as [|req rest IH]; intros f H; cbn [run]; [exact H|].
  specialize (IH _ (negotiation_kept_step req f userNumber H)).
  destruct (run rest (persisted req f)) as [rs f']. exact IH.
Qed.

Lemma negotiation_never_leaves_file_witness :
  replies (Sample.says "offer 9500") Sample.offering
  = [DealAccepted (Some "jane doe") "Field Master" 9500]
  /\ is_Some (negotiationOf Sample.jane
                (snd (run [Sample.says "offer 9500"; Sample.says "offer 9500"]
                          Sample.offering))).
Proof.
  split; [reflexivity|].
  apply (negotiation_never_leaves_file
           [Sample.says "offer 9500"; Sample.says "offer 9500"] Sample.offering).
  cbn. eauto.
Defined.

(** ** Normalisation of the message *)

Lemma lowerChar_idem c : Js.lowerChar (Js.lowerChar c) = Js.lowerChar c.
Proof. destruct c as [[] [] [] [] [] [] [] []]; reflexivity. Qed.

Lemma isWhiteSpace_lowerChar c : Js.isWhiteSpace (Js.lowerChar c) = Js.isWhiteSpace c.
Proof. destruct c as [[] [] [] [] [] [] [] []]; reflexivity. Qed.

Lemma toLowerCase_idem s : Js.toLowerCase (Js.toLowerCase s) = Js.toLowerCase s.
Proof.
  induction s as [|c r IH]; simpl; [reflexivity|].
  rewrite lowerChar_idem, IH. reflexivity.
Qed.

Lemma toLowerCase_trimStart s :
  Js.toLowerCase (Js.trimStart s) = Js.trimStart (Js.toLowerCase s).
Proof.
  induction s as [|c r IH]; simpl; [reflexivity|].
  rewrite isWhiteSpace_lowerChar. destruct (Js.isWhiteSpace c); [exact IH | reflexivity].
Qed.

Lemma toLowerCase_trimEnd s :
  Js.toLowerCase (Js.trimEnd s) = Js.trimEnd (Js.toLowerCase s).
Proof.
  induction s as [|c r IH]; simpl; [reflexivity|].
  rewrite <- IH, isWhiteSpace_lowerChar.
  destruct (Js.trimEnd r); simpl; [destruct (Js.isWhiteSpace c)|]; reflexivity.
Qed.

Lemma toLowerCase_trim s : Js.toLowerCase (Js.trim s) = Js.trim (Js.toLowerCase s).
Proof. unfold Js.trim. rewrite toLowerCase_trimEnd, toLowerCase_trimStart. reflexivity. Qed.

(** The message the handler works on is in lower case and trimmed. *)
Lemma incomingMsg_normal req :
  Js.toLowerCase (incomingMsg req) = incomingMsg req
  /\ Js.trim (incomingMsg req) = incomingMsg req.
Proof.
  unfold incomingMsg. destruct (Body req) as [[|c b]|]; try (split; reflexivity).
  rewrite toLowerCase_trim, toLowerCase_idem, trim_idem. auto.
Qed.

Lemma incomingMsg_idem req userNumber :
  incomingMsg {| Body := Some (incomingMsg req); From := userNumber |} = incomingMsg req.
Proof.
  destruct (incomingMsg_normal req) as [Hl Ht].
  unfold incomingMsg at 1. cbn [Body].
  destruct (incomingMsg req) as [|c r] eqn:E; [reflexivity|].
  rewrite Hl, Ht. reflexivity.
Qed.

Lemma incomingMsg_Some body userNumber :
  incomingMsg {| Body := Some body; From := userNumber |}
  = Js.trim (Js.toLowerCase body).
Proof. apply incomingMsg_Body. reflexivity. Qed.

(** X11.  Letter case and surrounding white space of the body make no
    difference: the body in lower case, the trimmed body and the normalised
    message itself are handled exactly as the body. *)
Theorem handle_ignores_case_and_padding body userNumber f :
  handle {| Body := Some (Js.toLowerCase body); From := userNumber |} f
  = handle {| Body := Some body; From := userNumber |} f
  /\ handle {| Body := Some (Js.trim body); From := userNumber |} f
     = handle {| Body := Some body; From := userNumber |} f
  /\ handle {| Body := Some (incomingMsg {| Body := Some body; From := userNumber |});
               From := userNumber |} f
     = handle {| Body := Some body; From := userNumber |} f.
Proof.
  split; [|split]; unfold handle, whatsapp.
  - rewrite !incomingMsg_Some, toLowerCase_idem. reflexivity.
  - rewrite !incomingMsg_Some, toLowerCase_trim, trim_idem. reflexivity.
  - rewrite incomingMsg_idem. reflexivity.
Qed.

Lemma allNameChars_trimStart s :
  allNameChars s = true -> allNameChars (Js.trimStart s) = true.
Proof.
  induction s as [|c r IH]; simpl; [auto|].
  intros H. apply andb_true_iff in H as [Hc Hr].
  destruct (Js.isWhiteSpace c); [auto|]. simpl. rewrite Hc, Hr. reflexivity.
Qed.

Lemma allNameChars_trimEnd s :
  allNameChars s = true -> allNameChars (Js.trimEnd s) = true.
Proof.
  induction s as [|c r IH]; simpl; [auto|].
  intros H. apply andb_true_iff in H as [Hc Hr]. specialize (IH Hr).
  destruct (Js.trimEnd r) as [|c' r'].
  - destruct (Js.isWhiteSpace c); simpl; [reflexivity|]. rewrite Hc. reflexivity.
  - change (allNameChars (String c (String c' r')))
      with (nameChar c && allNameChars (String c' r')).
    rewrite Hc, IH. reflexivity.
Qed.

Lemma isValidName_trim msg : isValidName msg = true -> isValidName (Js.trim msg) = true.
Proof.
  unfold isValidName. intros H. apply andb_true_iff in H as [Hr Hl].
  rewrite trim_idem, Hl, andb_true_r.
  assert (Ha : allNameChars (Js.trim msg) = true).
  { unfold Js.trim. apply allNameChars_trimEnd, allNameChars_trimStart.
    destruct msg; [discriminate | exact Hr]. }
  destruct (Js.trim msg); [cbn in Hl; discriminate | exact Ha].
Qed.

Lemma normalName_incoming req :
  isValidName (incomingMsg req) = true -> normalName (Js.trim (incomingMsg req)).
Proof.
  intros Hv. destruct (incomingMsg_normal req) as [Hl Ht].
  split; [apply isValidName_trim, Hv|]. split; [apply trim_idem|].
  rewrite toLowerCase_trim, Hl. reflexivity.
Qed.

Lemma namesNormal_withUser d i u :
  namesNormal d -> (forall n, User.name u = Some n -> normalName n) ->
  namesNormal (withUser i u d).
Proof. intros H Hu. apply Forall_insert; [exact H | exact Hu]. Qed.

Lemma namesNormal_findUser userNumber d i u n :
  namesNormal d -> findUser userNumber d = Some (i, u) ->
  User.name u = Some n -> normalName n.
Proof.
  intros H Hu. apply findUser_Some in Hu as [Hl _].
  unfold namesNormal in H. rewrite Forall_lookup in H. exact (H i u Hl n).
Qed.

Lemma namesNormal_step req f : namesNormal f -> namesNormal (persisted req f).
Proof.
  intros H.
  destruct (handle_cases req f)
    as [(-> & _) | [(Hn & t & Ht & -> & _) | [(_ & Hv & i & u & tid & Hu & Hc & -> & _)
       | (-> & _)]]]; auto.
  - unfold withNegotiation.
    destruct (findUser (From req) f) as [[i u]|] eqn:Hu.
    + apply (namesNormal_withUser f i); [exact H|]. cbn [User.name set_currentNegotiation].
      intros n. apply (namesNormal_findUser _ _ _ _ _ H Hu).
    + unfold namesNormal. cbn [users]. apply Forall_app. split; [exact H|].
      apply Forall_singleton. cbn. discriminate.
  - apply namesNormal_withUser; [exact H|]. cbn. intros n [= <-].
    apply normalName_incoming, Hv.
Qed.

(** X12.  Names are stored normalised: when every name of the file is
    accepted by [isValidName], trimmed and in lower case, the same holds
    after any sequence of requests. *)
Theorem stored_names_are_normal reqs f :
  namesNormal f -> namesNormal (snd (run reqs f)).
Proof.
  revert f. induction reqs as [|req rest IH]; intros f H; cbn [run]; [exact H|].
  specialize (IH _ (namesNormal_step req f H)).
  destruct (run rest (persisted req f)) as [rs f']. exact IH.
Qed.

Lemma stored_names_are_normal_witness :
  nameOf Sample.jane
    (snd (run [Sample.says "Negotiate 2"; Sample.says "  Jane O'Neil-Doe "] Sample.fresh))
  = Some "jane o'neil-doe"
  /\ namesNormal
       (snd (run [Sample.says "Negotiate 2"; Sample.says "  Jane O'Neil-Doe "]
                 Sample.fresh)).
Proof.
  split; [reflexivity|].
  apply (stored_names_are_normal
           [Sample.says "Negotiate 2"; Sample.says "  Jane O'Neil-Doe "] Sample.fresh).
  unfold namesNormal. cbn [users Sample.fresh]. apply Forall_nil_2.
Defined.

(** ** Looking at a tractor *)

Lemma digit_first c r :
  Js.isDigit c = true ->
  String.eqb (String c r) "start" = false
  /\ String.eqb (String c r) "recommend" = false
  /\ isCategory (String c r) = false
  /\ String.eqb (String c r) "browse" = false
  /\ Js.startsWith (String c r) "negotiate" = false
  /\ Js.startsWith (String c r) "view" = false.
Proof.
  destruct c as [[] [] [] [] [] [] [] []]; intros H; try discriminate H;
    repeat split.
Qed.

Lemma startsWith_view msg :
  Js.startsWith msg "view" = true ->
  String.eqb msg "start" = false /\ String.eqb msg "recommend" = false
  /\ isCategory msg = false /\ String.eqb msg "browse" = false.
Proof.
  intros H. apply prefix_String in H as (r & -> & _). repeat split.
Qed.

(** The view case is the one taken for a message that starts with "view"
    or is made of digits. *)
Lemma handle_view req f :
  Js.startsWith (incomingMsg req) "view" || Js.digitsOnly (incomingMsg req) = true ->
  handle req f = viewCase (incomingMsg req) (loaded f).
Proof.
  intros H. unfold handle, whatsapp, bind, readData. cbn [file data twiml].
  rewrite H. apply orb_true_iff in H as [H|H].
  - destruct (startsWith_view _ H) as (-> & -> & -> & ->). reflexivity.
  - destruct (incomingMsg req) as [|c r]; [discriminate|].
    cbn in H. apply andb_true_iff in H as [Hc _].
    destruct (digit_first c r Hc) as (-> & -> & -> & -> & _). reflexivity.
Qed.

(** X13.  A message that starts with "view" or is made of digits shows the
    first tractor of the catalogue whose id is the number read from the
    message (details, image, invitation to negotiate, in that order), or
    says that there is none when no tractor has that id; nothing is
    changed, whatever the sender's negotiation. *)
Theorem view_shows_first_match req f :
  Js.startsWith (incomingMsg req) "view" || Js.digitsOnly (incomingMsg req) = true ->
  persisted req f = f /\ inMemory req f = f
  /\ ((exists k t,
         tractors f !! k = Some t
         /\ viewedId (incomingMsg req) = Some (Js.Int (Tractor.id t))
         /\ (forall j t', tractors f !! j = Some t' -> (j < k)%nat ->
                          Tractor.id t' <> Tractor.id t)
         /\ replies req f = [TractorDetails t; Image (Tractor.image t); Interested])
      \/ (Forall (fun t => Some (Js.Int (Tractor.id t)) <> viewedId (incomingMsg req))
                 (tractors f)
          /\ replies req f = [TractorNotFound])).
Proof.
  intros H. unfold persisted, inMemory, replies. rewrite (handle_view req f H).
  unfold viewCase, bind, getData, loaded. cbn [data].
  fold (viewedId (incomingMsg req)). unfold findTractor.
  destruct (list_find _ (tractors f)) as [[k t]|] eqn:E; cbn.
  - split; [reflexivity|]. split; [reflexivity|]. left.
    apply list_find_Some in E as (Hk & Hid & Hfirst).
    exists k, t. split; [exact Hk|]. split; [auto|]. split; [|reflexivity].
    intros j t' Hj Hlt Heq. apply (Hfirst j t' Hj Hlt). congruence.
  - split; [reflexivity|]. split; [reflexivity|]. right.
    apply list_find_None in E. auto.
Qed.

Lemma view_shows_first_match_witness :
  replies (Sample.says "View 2") Sample.naming
  = [TractorDetails {| Tractor.id := 2; Tractor.name := "Field Master";
                       Tractor.price := 10000; Tractor.condition := "new";
                       Tractor.useCase := "Farming";
                       Tractor.image := "https://example.com/2.jpg" |};
     Image "https://example.com/2.jpg"; Interested]
  /\ persisted (Sample.says "View 2") Sample.naming = Sample.naming
  /\ viewedId (incomingMsg (Sample.says "view 9007199254740993"))
     = Some (Js.Int 9007199254740992)
  /\ replies (Sample.says "view 9007199254740993") Sample.numbered
     = [TractorDetails {| Tractor.id := 9007199254740992;
                          Tractor.name := "Long Hauler"; Tractor.price := 20000;
                          Tractor.condition := "used";
                          Tractor.useCase := "Construction";
                          Tractor.image := "https://example.com/4.jpg" |};
        Image "https://example.com/4.jpg"; Interested]
  /\ persisted (Sample.says "view 9007199254740993") Sample.numbered = Sample.numbered.
Proof.
  split; [reflexivity|].
  split; [exact (proj1 (view_shows_first_match (Sample.says "View 2") Sample.naming
                          eq_refl))|].
  split; [reflexivity|]. split; [reflexivity|].
  exact (proj1 (view_shows_first_match (Sample.says "view 9007199254740993")
                  Sample.numbered eq_refl)).
Defined.

Lemma digit_plain c :
  Js.isDigit c = true ->
  Js.lowerChar c = c /\ Js.isWhiteSpace c = false /\ (Js.code c =? 32) = false.
Proof.
  destruct c as [[] [] [] [] [] [] [] []]; intros H; try discriminate H; repeat split.
Qed.

Lemma allDigits_plain s :
  Js.allDigits s = true ->
  Js.toLowerCase s = s /\ Js.split_space s = [s]
  /\ (s <> EmptyString -> Js.trimEnd s = s).
Proof.
  induction s as [|c r IH]; simpl; [intros _; repeat split; congruence|].
  intros H. apply andb_true_iff in H as [Hc Hr].
  destruct (IH Hr) as (IH1 & IH2 & IH3).
  destruct (digit_plain c Hc) as (Hl & Hw & Hs).
  rewrite Hl, IH1, Hs, IH2. repeat split. intros _.
  destruct r as [|c' r']; simpl; [rewrite Hw; reflexivity|].
  change (match Js.trimEnd (String c' r') with
          | EmptyString => if Js.isWhiteSpace c then EmptyString else String c EmptyString
          | r'' => String c r''
          end = String c (String c' r')).
  rewrite IH3 by discriminate. reflexivity.
Qed.

(** X14.  A message made of digits only is handled as "view" followed by
    those digits. *)
Theorem digits_are_a_view req f :
  Js.digitsOnly (incomingMsg req) = true ->
  handle req f
  = handle {| Body := Some ("view " +:+ incomingMsg req); From := From req |} f.
Proof.
  intros H. destruct (incomingMsg req) as [|c r] eqn:E; [discriminate|].
  cbn [Js.digitsOnly] in H. destruct (allDigits_plain _ H) as (Hl & Hs & Ht).
  specialize (Ht ltac:(discriminate)).
  assert (Hmsg : incomingMsg {| Body := Some ("view " +:+ String c r); From := From req |}
                 = "view " +:+ String c r).
  { rewrite incomingMsg_Some.
    change (Js.toLowerCase ("view " +:+ String c r))
      with ("view " +:+ Js.toLowerCase (String c r)).
    rewrite Hl. unfold Js.trim.
    change (Js.trimStart ("view " +:+ String c r)) with ("view " +:+ String c r).
    change ("view " +:+ String c r)
      with (String "v" (String "i" (String "e" (String "w" (String " " (String c r)))))).
    cbn [Js.trimEnd]. cbn [Js.trimEnd] in Ht. rewrite Ht. reflexivity. }
  rewrite (handle_view req f) by (rewrite E; cbn [Js.digitsOnly]; rewrite H; apply orb_true_r).
  rewrite (handle_view _ f) by (rewrite Hmsg; reflexivity).
  rewrite Hmsg, E. cbn [From]. unfold viewCase.
  replace (Js.split_space ("view " +:+ String c r)) with ["view"; String c r].
  2: { change ("view " +:+ String c r)
         with (String "v" (String "i" (String "e" (String "w" (String " " (String c r)))))).
       cbn [Js.split_space]. cbn [Js.split_space] in Hs. rewrite Hs. reflexivity. }
  rewrite Hs. reflexivity.
Qed.

Lemma digits_are_a_view_witness :
  handle (Sample.says " 2 ") Sample.fresh = handle (Sample.says "view 2") Sample.fresh.
Proof.
  exact (digits_are_a_view (Sample.says " 2 ") Sample.fresh eq_refl).
Defined.

(** ** Numbers written and read back *)

Lemma digitsValue_stop acc s : noDigitFirst s -> Js.digitsValue acc s = acc.
Proof. destruct s as [|c r]; cbn; [reflexivity | intros ->; reflexivity]. Qed.

Lemma append_String c s r : String c s +:+ r = String c (s +:+ r).
Proof. reflexivity. Qed.

Lemma digitsValue_uint_acc d acc rest :
  noDigitFirst rest ->
  Js.digitsValue (Some (Z.pos acc)) (NilEmpty.string_of_uint d +:+ rest)
  = Some (Z.pos (Pos.of_uint_acc d acc)).
Proof.
  intros Hr. revert acc.
  induction d as [|d IH|d IH|d IH|d IH|d IH|d IH|d IH|d IH|d IH|d IH]; intros acc;
    [apply digitsValue_stop, Hr | ..];
    cbn [NilEmpty.string_of_uint Pos.of_uint_acc]; rewrite append_String;
    cbn [Js.digitsValue]; change (Js.isDigit _) with true; cbv iota;
    rewrite <- IH; do 2 f_equal;
    change (default 0 (Some (Z.pos acc))) with (Z.pos acc);
    match goal with
    | |- context [Js.code ?c] =>
        let v := eval vm_compute in (Js.code c) in change (Js.code c) with v
    end; lia.
Qed.

Lemma digitsValue_uint_zero d rest :
  noDigitFirst rest ->
  Js.digitsValue (Some 0) (NilEmpty.string_of_uint d +:+ rest)
  = Some (Z.of_N (Pos.of_uint d)).
Proof.
  intros Hr.
  induction d as [|d IH|d IH|d IH|d IH|d IH|d IH|d IH|d IH|d IH|d IH];
    [apply digitsValue_stop, Hr | ..];
    cbn [NilEmpty.string_of_uint Pos.of_uint]; rewrite append_String;
    cbn [Js.digitsValue]; change (Js.isDigit _) with true; cbv iota;
    first [ exact IH | apply (digitsValue_uint_acc d _ rest Hr) ].
Qed.

Lemma digitsValue_uint d rest :
  d <> Decimal.Nil -> noDigitFirst rest ->
  Js.digitsValue None (NilEmpty.string_of_uint d +:+ rest)
  = Some (Z.of_N (Pos.of_uint d)).
Proof.
  intros Hd Hr. rewrite <- (digitsValue_uint_zero d rest Hr).
  destruct d; [contradiction | ..]; reflexivity.
Qed.

Lemma to_uint_nonnil n : N.to_uint n <> Decimal.Nil.
Proof.
  destruct n as [|p]; [discriminate|]. apply DecimalPos.Unsigned.to_uint_nonnil.
Qed.

Lemma decimal_uint n :
  Double.decimal n = NilEmpty.string_of_uint (N.to_uint (Z.to_N n)).
Proof.
  unfold Double.decimal, NilZero.string_of_uint.
  pose proof (to_uint_nonnil (Z.to_N n)).
  destruct (N.to_uint (Z.to_N n)); [contradiction | ..]; reflexivity.
Qed.

Lemma allDigits_uint d : Js.allDigits (NilEmpty.string_of_uint d) = true.
Proof. induction d; cbn [NilEmpty.string_of_uint Js.allDigits]; auto. Qed.

Lemma decimal_digits n :
  Js.digitsOnly (Double.decimal n) = true.
Proof.
  rewrite decimal_uint. pose proof (to_uint_nonnil (Z.to_N n)) as H.
  pose proof (allDigits_uint (N.to_uint (Z.to_N n))) as Ha.
  destruct (N.to_uint (Z.to_N n)); [contradiction | ..]; exact Ha.
Qed.

Lemma parseInt_digit c r :
  Js.isDigit c = true ->
  Js.parseInt (String c r) = Js.digitsValue None (String c r) ≫= Js.ofInt.
Proof.
  destruct c as [[] [] [] [] [] [] [] []]; intros H; try discriminate H; reflexivity.
Qed.

(** An integer below 2^53 in absolute value is a binary64 number: it is
    its own Number value. *)
Lemma ofInt_exact n : Z.abs n < 2 ^ 53 -> Js.ofInt n = Some (Js.Int n).
Proof.
  intros Hn. unfold Js.ofInt, binary_normalize.
  destruct n as [|q|q]; [reflexivity | |];
    rewrite binary_round_int by (cbn [Z.abs] in Hn; exact Hn);
    unfold Js.ofSpec; cbv zeta; do 2 f_equal.
  all: pose proof (Z.log2_spec (Zpos q) ltac:(lia)) as L.
  all: assert (HL : 0 <= Z.log2 (Zpos q) < 53)
         by (split; [apply Z.log2_nonneg | apply Z.log2_lt_pow2; [lia | exact Hn]]).
  all: set (l := Z.log2 (Zpos q)) in *.
  all: assert (HP : 0 < 2 ^ (52 - l)) by (apply Z.pow_pos_nonneg; lia).
  all: rewrite Z2Pos.id by lia.
  all: destruct (Z.leb_spec 0 (l - 52)).
  all: try (replace (52 - l) with 0 by lia; replace (l - 52) with 0 by lia;
            change (2 ^ 0) with 1; lia).
  all: replace (- (l - 52)) with (52 - l) by lia; rewrite Z.div_mul by lia; lia.
Qed.

Lemma digitsValue_decimal n rest :
  0 <= n -> noDigitFirst rest ->
  Js.digitsValue None (Double.decimal n +:+ rest) = Some n.
Proof.
  intros Hn Hr. rewrite decimal_uint.
  rewrite (digitsValue_uint _ rest (to_uint_nonnil _) Hr).
  change (Pos.of_uint (N.to_uint (Z.to_N n))) with (N.of_uint (N.to_uint (Z.to_N n))).
  rewrite DecimalN.Unsigned.of_to, Z2N.id by exact Hn. reflexivity.
Qed.

Lemma parseInt_digits_first n rest :
  Js.parseInt (Double.decimal n +:+ rest)
  = Js.digitsValue None (Double.decimal n +:+ rest) ≫= Js.ofInt.
Proof.
  pose proof (decimal_digits n) as Hd.
  destruct (Double.decimal n) as [|c r]; [discriminate|].
  cbn in Hd. apply andb_true_iff in Hd as [Hc _].
  apply (parseInt_digit c (r +:+ rest) Hc).
Qed.

Lemma parseInt_written n rest :
  0 <= n < 2 ^ 53 -> noDigitFirst rest ->
  Js.parseInt (Double.decimal n +:+ rest) = Some (Js.Int n).
Proof.
  intros Hn Hr. rewrite parseInt_digits_first.
  rewrite digitsValue_decimal by (try exact Hr; lia).
  apply ofInt_exact. lia.
Qed.

(** The Number value of an integer is never NaN: [parseInt] is NaN
    exactly when there is no digit to read. *)
Lemma ofInt_is_Some n : is_Some (Js.ofInt n).
Proof.
  unfold Js.ofInt, binary_normalize.
  destruct n as [|q|q]; [cbn; eauto | |];
    (destruct (Z.lt_ge_cases (Zpos q) (2 ^ 53)) as [H|H];
     [ rewrite binary_round_int by exact H; cbn; eauto
     | match goal with
       | |- context [binary_round _ _ ?sx _ _] =>
           destruct (binary_round_big sx q H) as [-> | (m & e & -> & _)]
       end; cbn; eauto ]).
Qed.

(** X15.  Reading back a number that was written: [parseInt] applied to the
    decimal digits of a natural number below 2^53, followed by any text
    that does not start with a digit, gives the number.  From 2^53 on it
    gives the nearest binary64 number, which may be another integer. *)
Theorem parseInt_decimal n rest :
  0 <= n < 2 ^ 53 -> noDigitFirst rest ->
  Js.parseInt (Double.decimal n +:+ rest) = Some (Js.Int n)
  /\ Js.parseInt (Double.decimal (2 ^ 53 + 1) +:+ rest) = Some (Js.Int (2 ^ 53)).
Proof.
  intros Hn Hr. split; [exact (parseInt_written n rest Hn Hr)|].
  rewrite parseInt_digits_first.
  rewrite digitsValue_decimal by (try exact Hr; lia). reflexivity.
Qed.

Lemma parseInt_decimal_witness :
  Double.decimal 9000 +:+ ".00" = "9000.00"
  /\ Js.parseInt "9000.00" = Some (Js.Int 9000)
  /\ Js.parseInt "9007199254740993.00" = Some (Js.Int 9007199254740992).
Proof.
  split; [reflexivity|].
  exact (parseInt_decimal 9000 ".00" ltac:(split; [lia | reflexivity]) eq_refl).
Defined.

Lemma split_space_nonempty s : Js.split_space s <> [].
Proof.
  induction s as [|c r IH]; cbn [Js.split_space]; [discriminate|].
  destruct (Js.code c =? 32); [discriminate|].
  destruct (Js.split_space r); [contradiction | discriminate].
Qed.

Lemma split_space_app a b :
  Js.split_space a = [a] -> Js.split_space b = [b] ->
  Js.split_space (a +:+ b) = [a +:+ b].
Proof.
  intros Ha Hb. induction a as [|c r IH]; [exact Hb|].
  rewrite append_String. cbn [Js.split_space] in *.
  destruct (Js.code c =? 32); [discriminate|].
  pose proof (split_space_nonempty r) as Hne.
  destruct (Js.split_space r) as [|w ws]; [contradiction|].
  injection Ha as -> ->. rewrite IH by reflexivity. reflexivity.
Qed.

Lemma digitChar_code d : 0 <= d < 10 -> Js.code (Double.digitChar d) = 48 + d.
Proof.
  intros H.
  assert (E : d = 0 \/ d = 1 \/ d = 2 \/ d = 3 \/ d = 4 \/ d = 5 \/ d = 6
              \/ d = 7 \/ d = 8 \/ d = 9) by lia.
  repeat destruct E as [->|E]; try subst d; reflexivity.
Qed.

Lemma digit_cases d :
  0 <= d < 10 ->
  d = 0 \/ d = 1 \/ d = 2 \/ d = 3 \/ d = 4 \/ d = 5 \/ d = 6 \/ d = 7
  \/ d = 8 \/ d = 9.
Proof. lia. Qed.

Lemma nineTenthsText_split p :
  Js.split_space (nineTenthsText p) = [nineTenthsText p].
Proof.
  unfold nineTenthsText.
  change (NilZero.string_of_uint (N.to_uint (Z.to_N (9 * p / 10))))
    with (Double.decimal (9 * p / 10)).
  apply split_space_app.
  - pose proof (decimal_digits (9 * p / 10)) as H.
    destruct (Double.decimal (9 * p / 10)) as [|c r] eqn:E; [discriminate|].
    apply (allDigits_plain _ H).
  - pose proof (digit_cases _ (Z.mod_pos_bound (9 * p) 10 ltac:(lia))) as E.
    repeat destruct E as [E|E]; rewrite E; reflexivity.
Qed.

Lemma nineTenthsText_parse p :
  0 <= p < 2 ^ 53 -> Js.parseInt (nineTenthsText p) = Some (Js.Int (9 * p / 10)).
Proof.
  intros Hp. unfold nineTenthsText.
  change (NilZero.string_of_uint (N.to_uint (Z.to_N (9 * p / 10))))
    with (Double.decimal (9 * p / 10)).
  apply parseInt_written.
  - split; [apply Z.div_pos; lia|].
    apply Z.div_lt_upper_bound; lia.
  - pose proof (digit_cases _ (Z.mod_pos_bound (9 * p) 10 ltac:(lia))) as E.
    repeat destruct E as [E|E]; rewrite E; reflexivity.
Qed.

Lemma offer_text_amount x :
  Js.split_space x = [x] -> amountOf ("offer " +:+ x) = Js.parseInt x.
Proof.
  intros H. unfold amountOf.
  change ("offer " +:+ x)
    with (String "o" (String "f" (String "f" (String "e" (String "r" (String " " x)))))).
  cbn [Js.split_space]. rewrite H. reflexivity.
Qed.

(** X16.  Sending back the minimum that the seller suggested: the amount is
    read up to the decimal point, so the offer is accepted when the price
    is a multiple of ten and rejected again, with the same suggestion,
    when it is not. *)
Theorem suggested_minimum_offer req f t :
  stageOf (From req) f = Some offer_collection ->
  negotiatedTractor (From req) f = Some t ->
  priceInRange (Tractor.price t) ->
  incomingMsg req = "offer " +:+ Double.toFixed2 (Double.mul09 (Tractor.price t)) ->
  replies req f
  = if Tractor.price t mod 10 =? 0
    then [DealAccepted (nameOf (From req) f) (Tractor.name t) (9 * Tractor.price t / 10)]
    else [OfferTooLow (Double.toFixed2 (Double.mul09 (Tractor.price t)))].
Proof.
  intros Hst Ht Hp Hmsg. rewrite (toFixed2_mul09 _ Hp) in *.
  assert (Hs : Js.startsWith (incomingMsg req) "offer" = true)
    by (rewrite Hmsg; reflexivity).
  assert (Ha : amountOf (incomingMsg req) = Some (Js.Int (9 * Tractor.price t / 10))).
  { rewrite Hmsg, (offer_text_amount _ (nineTenthsText_split _)).
    apply nineTenthsText_parse. destruct Hp as [H0 H1].
    split; [lia|]. eapply Z.lt_trans; [exact H1 | reflexivity]. }
  destruct (Z.eqb_spec (Tractor.price t mod 10) 0) as [E|E].
  - apply (accepted_offer req f t _ Hst Ht Hp Hs Ha). Z.div_mod_to_equations. lia.
  - apply (rejected_offer req f t _ Hst Ht Hp Hs Ha). Z.div_mod_to_equations. lia.
Qed.

Lemma suggested_minimum_offer_witness :
  replies (Sample.says "offer 13") Sample.offering15 = [OfferTooLow "13.50"]
  /\ replies (Sample.says "offer 13.50") Sample.offering15 = [OfferTooLow "13.50"]
  /\ replies (Sample.says "offer 9000.00") Sample.offering
     = [DealAccepted (Some "jane doe") "Field Master" 9000].
Proof.
  split; [|split].
  - reflexivity.
  - exact (suggested_minimum_offer (Sample.says "offer 13.50") Sample.offering15
             {| Tractor.id := 1; Tractor.name := "Compact 15"; Tractor.price := 15;
                Tractor.condition := "used"; Tractor.useCase := "Landscaping";
                Tractor.image := "https://example.com/1.jpg" |}
             eq_refl eq_refl ltac:(split; reflexivity) eq_refl).
  - exact (suggested_minimum_offer (Sample.says "offer 9000.00") Sample.offering
             {| Tractor.id := 2; Tractor.name := "Field Master"; Tractor.price := 10000;
                Tractor.condition := "new"; Tractor.useCase := "Farming";
                Tractor.image := "https://example.com/2.jpg" |}
             eq_refl eq_refl ltac:(split; reflexivity) eq_refl).
Defined.

(** ** The whole conversation *)

(** X17.  A negotiation from start to offer, from any file: negotiate on a
    tractor of the catalogue whose price is an integer between 0 and 2^45,
    then a valid name, then an offer with an integer amount.  The three
    replies are the invitation to send a name, the greeting with the
    normalised name, and the acceptance or the rejection according to nine
    tenths of the price; at the end the file has the sender collecting an
    offer on that tractor, whatever the last reply. *)
Theorem negotiation_conversation req1 req2 req3 f t a :
  From req2 = From req1 -> From req3 = From req1 ->
  Js.startsWith (incomingMsg req1) "negotiate" = true ->
  findTractor (amountOf (incomingMsg req1)) f = Some t ->
  priceInRange (Tractor.price t) ->
  earlierCase (incomingMsg req2) = false ->
  isValidName (incomingMsg req2) = true ->
  Js.startsWith (incomingMsg req3) "offer" = true ->
  amountOf (incomingMsg req3) = Some (Js.Int a) ->
  fst (run [req1; req2; req3] f)
  = [ [Negotiating (Tractor.name t)];
      [Hello (Some (Js.trim (incomingMsg req2)))];
      [if 9 * Tractor.price t <=? 10 * a
       then DealAccepted (Some (Js.trim (incomingMsg req2))) (Tractor.name t) a
       else OfferTooLow (nineTenthsText (Tractor.price t))] ]
  /\ stageOf (From req1) (snd (run [req1; req2; req3] f)) = Some offer_collection
  /\ nameOf (From req1) (snd (run [req1; req2; req3] f))
     = Some (Js.trim (incomingMsg req2))
  /\ negotiatedTractor (From req1) (snd (run [req1; req2; req3] f)) = Some t.
Proof.
  intros E2 E3 Hn Ht Hp He Hv Ho Ha.
  (* negotiate *)
  pose proof (findTractor_id _ _ _ Ht) as Hid. rewrite Hid in Ht.
  pose proof (handle_negotiate req1 f Hn) as H1.
  rewrite (negotiateCase_found _ (From req1) f _ t Hid Ht) in H1.
  apply result_parts in H1 as (R1 & P1 & _). cbn [twiml file] in R1, P1.
  set (f1 := withNegotiation (From req1)
               {| Negotiation.tractorId := Tractor.id t;
                  Negotiation.stage := name_collection |} f) in *.
  assert (N1 : negotiationOf (From req1) f1
               = Some {| Negotiation.tractorId := Tractor.id t;
                         Negotiation.stage := name_collection |})
    by apply negotiationOf_withNegotiation.
  assert (exists i u, findUser (From req1) f1 = Some (i, u)
                      /\ User.currentNegotiation u
                         = Some {| Negotiation.tractorId := Tractor.id t;
                                   Negotiation.stage := name_collection |})
    as (i & u & Hu & Hc).
  { unfold negotiationOf, session in N1.
    destruct (findUser (From req1) f1) as [[i u]|]; [|discriminate]. eauto. }
  pose proof (findUser_Some _ _ _ _ Hu) as [Hl Hph].
  (* the name *)
  pose proof (handle_later req2 f1 He) as H2. rewrite E2 in H2.
  rewrite (collectingName_Some _ _ _ _ _ Hu Hc) in H2. cbn [Negotiation.stage] in H2.
  rewrite (nameCase_valid _ _ _ _ Hl Hv) in H2.
  apply result_parts in H2 as (R2 & P2 & _). cbn [twiml file] in R2, P2.
  set (u2 := set_stage offer_collection (set_name (Js.trim (incomingMsg req2)) u)) in *.
  set (f2 := withUser i u2 f1) in *.
  assert (Hu2 : findUser (From req1) f2 = Some (i, u2))
    by (apply (findUser_withUser _ _ _ u); [exact Hu | exact Hph]).
  assert (Hc2 : User.currentNegotiation u2
                = Some {| Negotiation.tractorId := Tractor.id t;
                          Negotiation.stage := offer_collection |})
    by (unfold u2; cbn; rewrite Hc; reflexivity).
  assert (Ht2 : findTractor (Some (Js.Int (Tractor.id t))) f2 = Some t)
    by (rewrite (findTractor_same_catalogue _ f); [exact Ht | reflexivity]).
  assert (S2 : stageOf (From req1) f2 = Some offer_collection)
    by (unfold stageOf; rewrite (negotiationOf_findUser _ _ _ _ Hu2), Hc2; reflexivity).
  assert (T2 : negotiatedTractor (From req1) f2 = Some t)
    by (unfold negotiatedTractor; rewrite (negotiationOf_findUser _ _ _ _ Hu2), Hc2;
        exact Ht2).
  assert (N2 : nameOf (From req1) f2 = Some (Js.trim (incomingMsg req2)))
    by (rewrite (nameOf_findUser _ _ _ _ Hu2); reflexivity).
  (* the offer *)
  rewrite <- E3 in S2, T2.
  destruct (offer_outcome req3 f2 t a S2 T2 Hp Ho Ha) as (i' & u' & tid & Hu' & _ & H3).
  rewrite E3, Hu2 in Hu'. injection Hu' as <- <-.
  assert (R3 : replies req3 f2
               = [if 9 * Tractor.price t <=? 10 * a
                  then DealAccepted (Some (Js.trim (incomingMsg req2))) (Tractor.name t) a
                  else OfferTooLow (nineTenthsText (Tractor.price t))]
               /\ persisted req3 f2 = f2).
  { unfold replies, persisted. rewrite H3.
    destruct (9 * Tractor.price t <=? 10 * a); split; reflexivity. }
  destruct R3 as [R3 P3]. rewrite E3 in S2, T2.
  cbn [run]. rewrite P1, P2, P3, R1, R2, R3. cbn [fst snd]. auto.
Qed.

Lemma negotiation_conversation_witness :
  fst (run [Sample.says "Negotiate 1"; Sample.says "Jane Doe"; Sample.says "Offer 14"]
           Sample.idle)
  = [ [Negotiating "Compact 15"]; [Hello (Some "jane doe")];
      [DealAccepted (Some "jane doe") "Compact 15" 14] ].
Proof.
  exact (proj1 (negotiation_conversation
                  (Sample.says "Negotiate 1") (Sample.says "Jane Doe")
                  (Sample.says "Offer 14") Sample.idle
                  {| Tractor.id := 1; Tractor.name := "Compact 15"; Tractor.price := 15;
                     Tractor.condition := "used"; Tractor.useCase := "Landscaping";
                     Tractor.image := "https://example.com/1.jpg" |} 14
                  eq_refl eq_refl eq_refl eq_refl ltac:(split; reflexivity)
                  eq_refl eq_refl eq_refl eq_refl)).
Defined.

(** ** The threshold in IEEE 754 arithmetic *)

(** X18.  In the Standard Library's specification of binary64 arithmetic,
    the test [offerAmount >= price * 0.9] on an integer amount and an
    integer price below 2^45 holds exactly when ten times the amount is at
    least nine times the price: the rounding of 0.9 and of the product
    never moves the threshold. *)
Theorem binary64_threshold p a :
  priceInRange p -> SFleb (SFmul09 p) (SFofInt a) = (9 * p <=? 10 * a).
Proof.
  intros Hp. rewrite <- (geInt_mul09 a p Hp).
  symmetry. apply geInt_is_SFleb. destruct Hp as [H0 H1].
  split; [exact H0|]. eapply Z.lt_trans; [exact H1 | reflexivity].
Qed.

Lemma binary64_threshold_witness :
  SFleb (SFmul09 10000) (SFofInt 9000) = true
  /\ SFleb (SFmul09 10000) (SFofInt 8999) = false.
Proof.
  split.
  - exact (binary64_threshold 10000 9000 ltac:(split; reflexivity)).
  - exact (binary64_threshold 10000 8999 ltac:(split; reflexivity)).
Defined.

(** ** The default case and the listings *)

Lemma offerCase_not_help msg userNumber f :
  twiml (world_of (offerCase msg userNumber (loaded f))) <> [Help].
Proof.
  unfold offerCase, bind, getData, loaded. cbn [file data twiml].
  destruct (findUser userNumber f) as [[i u]|]; [|discriminate].
  destruct (User.currentNegotiation u) as [[tid []]|]; try discriminate.
  destruct (Js.parseIntArg _); [|discriminate].
  destruct (findTractor _ _); [|discriminate].
  destruct (Double.ge _ _); discriminate.
Qed.

(** X19.  The help reply is the default, and only the default: a request
    gets it exactly when its message is none of the commands written
    before the name-collection case, the sender is not being asked for a
    name, and the message does not start with "offer". *)
Theorem help_is_the_default req f :
  replies req f = [Help]
  <-> earlierCase (incomingMsg req) = false
      /\ stageOf (From req) f <> Some name_collection
      /\ Js.startsWith (incomingMsg req) "offer" = false.
Proof.
  destruct (earlierCase (incomingMsg req)) eqn:He.
  { split; [|intros [? _]; discriminate]. intros H. exfalso. revert He H.
    unfold earlierCase, replies, handle, whatsapp, bind, readData.
    cbn [file data twiml].
    destruct (String.eqb (incomingMsg req) "start"); [discriminate|].
    destruct (String.eqb (incomingMsg req) "recommend"); [discriminate|].
    destruct (isCategory (incomingMsg req)); [discriminate|].
    destruct (String.eqb (incomingMsg req) "browse"); [discriminate|].
    destruct (Js.startsWith (incomingMsg req) "view" || Js.digitsOnly (incomingMsg req)).
    - intros _. unfold viewCase, bind, getData. cbn [file data twiml].
      destruct (findTractor _ _); discriminate.
    - destruct (Js.startsWith (incomingMsg req) "negotiate"); [|discriminate].
      intros _. unfold negotiateCase, bind, getData. cbn [file data twiml].
      destruct (Js.parseIntArg _) as [[nid|negative]|]; try discriminate.
      destruct (findTractor _ _); [|discriminate].
      destruct (fst <$> findUser (From req) f); discriminate. }
  unfold replies. rewrite (handle_later req f He).
  unfold stageOf, negotiationOf, session, collectingName.
  destruct (findUser (From req) f) as [[i u]|]; cbn [fmap option_fmap option_map snd
    mbind option_bind].
  1: destruct (User.currentNegotiation u) as [[tid []]|]; cbn [fmap option_fmap option_map
       Negotiation.stage].
  1: { split; [|intros (_ & H & _); contradiction]. intros H. exfalso. revert H.
       unfold nameCase, bind, updateUser, setUsers, getData, message, writeData, loaded.
       destruct (isValidName _); discriminate. }
  all: destruct (Js.startsWith (incomingMsg req) "offer");
    (split; [intros H | intros (_ & _ & H)]);
    first [ discriminate H
          | exfalso; exact (offerCase_not_help _ _ _ H)
          | repeat split; discriminate
          | reflexivity ].
Qed.

Lemma help_is_the_default_witness :
  replies (Sample.says "Hello there") Sample.offering = [Help].
Proof.
  apply (help_is_the_default (Sample.says "Hello there") Sample.offering).
  split; [reflexivity|]. split; [discriminate | reflexivity].
Defined.

Lemma handle_category req f :
  isCategory (incomingMsg req) = true ->
  handle req f
  = Returned tt
      {| file := f; data := f;
         twiml := [CategoryList (incomingMsg req)
                     (filter (fun t => Js.toLowerCase (Tractor.useCase t) = incomingMsg req)
                             (tractors f))] |}.
Proof.
  intros H. unfold handle, whatsapp, bind, readData. cbn [file data twiml].
  rewrite H. unfold isCategory in H.
  repeat (apply orb_true_iff in H as [H|H]); apply String.eqb_eq in H;
    rewrite H; reflexivity.
Qed.

(** X20.  A category word lists, in catalogue order, exactly the tractors
    whose use case in lower case is that word; nothing is changed,
    whatever the sender's negotiation. *)
Theorem category_lists_matching_tractors req f :
  isCategory (incomingMsg req) = true ->
  persisted req f = f /\ inMemory req f = f
  /\ exists items,
       replies req f = [CategoryList (incomingMsg req) items]
       /\ items `sublist_of` tractors f
       /\ forall t, t ∈ items
                    <-> Js.toLowerCase (Tractor.useCase t) = incomingMsg req
                        /\ t ∈ tractors f.
Proof.
  intros H. pose proof (handle_category req f H) as E.
  apply result_parts in E as (-> & -> & ->). cbn [file data twiml].
  split; [reflexivity|]. split; [reflexivity|].
  eexists. split; [reflexivity|]. split; [apply sublist_filter|].
  intros t. rewrite list_elem_of_filter. reflexivity.
Qed.

Lemma category_lists_matching_tractors_witness :
  replies (Sample.says "FARMING") Sample.naming
  = [CategoryList "farming"
       [ {| Tractor.id := 2; Tractor.name := "Field Master"; Tractor.price := 10000;
            Tractor.condition := "new"; Tractor.useCase := "Farming";
            Tractor.image := "https://example.com/2.jpg" |} ]]
  /\ persisted (Sample.says "FARMING") Sample.naming = Sample.naming.
Proof.
  split; [reflexivity|].
  exact (proj1 (category_lists_matching_tractors (Sample.says "FARMING") Sample.naming
                  eq_refl)).
Defined.

(** ** What is kept between requests *)

Lemma nameOf_withNegotiation userNumber other n d :
  nameOf other (withNegotiation userNumber n d) = nameOf other d.
Proof.
  destruct (decide (other = userNumber)) as [->|Hne].
  2: { unfold nameOf, session. rewrite (findUser_withNegotiation_other _ _ _ _ Hne).
       reflexivity. }
  unfold withNegotiation.
  destruct (findUser userNumber d) as [[i u]|] eqn:Hu.
  - pose proof (findUser_Some _ _ _ _ Hu) as [_ Hp].
    pose proof (findUser_withUser userNumber d i u
                  (set_currentNegotiation (Some n) u) Hu Hp) as H.
    unfold withUser in H.
    rewrite (nameOf_findUser _ _ _ _ H), (nameOf_findUser _ _ _ _ Hu). reflexivity.
  - unfold nameOf, session. rewrite Hu. unfold findUser. cbn [users].
    rewrite (findUser_push userNumber d
               {| User.phone := userNumber; User.name := None;
                  User.currentNegotiation := Some n |} Hu eq_refl).
    reflexivity.
Qed.

(** X21.  The name on file changes only through the name-collection case:
    after a request every user has the name they had, except the sender
    of a valid name who was being asked for it, whose name is then the
    trimmed message.  In particular a new negotiate command keeps the
    name. *)
Theorem name_changes_only_when_collected req f userNumber :
  nameOf userNumber (persisted req f) = nameOf userNumber f
  \/ (userNumber = From req
      /\ stageOf userNumber f = Some name_collection
      /\ earlierCase (incomingMsg req) = false
      /\ isValidName (incomingMsg req) = true
      /\ nameOf userNumber (persisted req f) = Some (Js.trim (incomingMsg req))).
Proof.
  destruct (handle_cases req f)
    as [(-> & _) | [(Hn & t & Ht & -> & _) | [(He & Hv & i & u & tid & Hu & Hc & -> & _)
       | (-> & _)]]]; auto.
  - left. apply nameOf_withNegotiation.
  - pose proof (findUser_Some _ _ _ _ Hu) as [_ Hp].
    destruct (decide (userNumber = From req)) as [->|Hne].
    + right. split; [reflexivity|]. split; [|split; [exact He|split; [exact Hv|]]].
      * unfold stageOf. rewrite (negotiationOf_findUser _ _ _ _ Hu), Hc. reflexivity.
      * rewrite (nameOf_findUser _ _ i
                   (set_stage offer_collection (set_name (Js.trim (incomingMsg req)) u)))
          by (apply (findUser_withUser _ _ _ u); [exact Hu | exact Hp]).
        reflexivity.
    + left. unfold nameOf, session.
      rewrite (findUser_withUser_other (From req) userNumber f i u);
        [reflexivity | exact Hu | exact Hp | exact Hne].
Qed.

(** X22.  The collection in memory and the file differ at the end of a
    request only after an accepted offer: then the file is the one that
    was read, with the sender still collecting an offer, while in memory
    the sender's negotiation is gone. *)
Theorem memory_differs_only_on_acceptance req f :
  inMemory req f = persisted req f
  \/ (exists n t a, replies req f = [DealAccepted n t a])
     /\ persisted req f = f
     /\ stageOf (From req) f = Some offer_collection
     /\ negotiationOf (From req) (inMemory req f) = None.
Proof.
  destruct (written_unless_accepted req f) as [H | Hr]; [left; exact H|].
  destruct (handle_cases req f)
    as [(-> & ->) | [(_ & _ & _ & _ & ->) | [(_ & _ & _ & _ & _ & _ & _ & _ & ->)
       | (Hp & i & u & tid & Hu & Hc & Hm)]]]; auto.
  right. split; [exact Hr|]. split; [exact Hp|]. split.
  - unfold stageOf. rewrite (negotiationOf_findUser _ _ _ _ Hu), Hc. reflexivity.
  - pose proof (findUser_Some _ _ _ _ Hu) as [_ Hph]. rewrite Hm.
    rewrite (negotiationOf_findUser _ _ i (set_currentNegotiation None u))
      by (apply (findUser_withUser _ _ _ u); [exact Hu | exact Hph]).
    reflexivity.
Qed.
